(** * iterm-mcp: session registry, tab registry and command execution engine

    A shallow embedding of the TypeScript sources [CommandExecutor.ts],
    [TabManager.ts], [SessionManager.ts], [TtyOutputReader.ts],
    [KeySender.ts] and [SendControlCharacter.ts], and of the timeout that
    [index.ts] passes on; the properties of the specification that are
    decided by them, and further properties of the sources.

    Conventions of the embedding:
    - JavaScript strings are Rocq [string]s of ASCII code units;
    - a JavaScript [number] that the code uses as a tab index is a [jsnum]
      (an integer or [NaN]); times read from [Date.now()] are integers (ms);
      the timeout budgets, which the code obtains by multiplying with
      0.25, 0.93 and 0.7, are exact rationals;
    - a [Promise] is its outcome: [Return v], [Throw e], or [OutOfFuel] for a
      loop that has not finished within the number of iterations allowed
      (more iterations never change an outcome that has settled, and a loop
      that is out of fuel has slept through every one of them: section
      Fuel); a race against a timeout is decided when the promise that it
      wraps has settled, so the machine after a timeout is the one that
      the abandoned promise leaves behind;
    - the terminal control channel ([execPromise] running [osascript]), the
      process activity inspector ([ProcessTracker.getActiveProcess]) and
      [openSync] are oracles of an environment [Env]; the calls made, the
      clock and the registries are fields of the machine state;
    - the method [executeCommand] of [KeySender] and of
      [SendControlCharacter], which a subclass may override, is a
      parameter of their functions, and so are the digest of
      [getClientIdFromPath] and the order in which [findSessionByPath]
      goes through the clients. *)

From Stdlib Require Import ZArith QArith Qminmax Lqa Lia List String Ascii Bool.
From stdpp Require Import base option gmap strings list fin_maps pretty.
Import ListNotations.

Open Scope string_scope.
Open Scope Z_scope.

(** ** JavaScript values and string primitives *)

Module JS.

(** A [number] used as an index: [parseInt] yields an integer or [NaN]. *)
Inductive jsnum : Type :=
| NaN
| Num (z : Z).

#[global] Instance jsnum_eq_dec : EqDecision jsnum.
Proof. solve_decision. Defined.

(** [a === b] on numbers: [NaN] is not equal to itself. *)
Definition strict_eq (a b : jsnum) : bool :=
  match a, b with
  | Num x, Num y => x =? y
  | _, _ => false
  end.

(** [Map] keys are compared with SameValueZero: [NaN] is equal to [NaN]. *)
Definition same_value_zero (a b : jsnum) : bool := bool_decide (a = b).

(** [n + 1] *)
Definition succ (n : jsnum) : jsnum :=
  match n with
  | NaN => NaN
  | Num z => Num (z + 1)
  end.

(** [`${n}`] *)
Definition show (n : jsnum) : string :=
  match n with
  | NaN => "NaN"
  | Num z => pretty z
  end.

Definition LF : string := String "010"%char "".

(** White space and line terminators (the ASCII ones). *)
Definition is_space (c : ascii) : bool :=
  let n := nat_of_ascii c in
  ((9 <=? n)%nat && (n <=? 13)%nat) || (n =? 32)%nat.

Fixpoint trim_start (s : string) : string :=
  match s with
  | String c s' => if is_space c then trim_start s' else s
  | EmptyString => EmptyString
  end.

Definition rev_string (s : string) : string :=
  string_of_list_ascii (rev (list_ascii_of_string s)).

(** [s.trim()] *)
Definition trim (s : string) : string :=
  rev_string (trim_start (rev_string (trim_start s))).

(** [s.split(sep)] for a non-empty separator. [skip] counts the characters
    of a separator occurrence that are still to be dropped. *)
Fixpoint split_go (sep : string) (skip : nat) (s : string) : list string :=
  match s with
  | EmptyString => [EmptyString]
  | String c s' =>
      match skip with
      | S k => split_go sep k s'
      | O =>
          if String.prefix sep s
          then EmptyString :: split_go sep (String.length sep - 1) s'
          else match split_go sep O s' with
               | piece :: rest => String c piece :: rest
               | [] => [String c EmptyString]
               end
      end
  end.

Definition split (sep s : string) : list string := split_go sep O s.

(** [l.join(sep)] *)
Definition join (sep : string) (l : list string) : string := String.concat sep l.

(** [s.includes(sub)] *)
Fixpoint includes (sub s : string) : bool :=
  String.prefix sub s ||
  match s with
  | String _ s' => includes sub s'
  | EmptyString => false
  end.

Definition lower_char (c : ascii) : ascii :=
  let n := nat_of_ascii c in
  if (65 <=? n)%nat && (n <=? 90)%nat then ascii_of_nat (n + 32) else c.

(** [s.toLowerCase()] *)
Fixpoint toLowerCase (s : string) : string :=
  match s with
  | String c s' => String (lower_char c) (toLowerCase s')
  | EmptyString => EmptyString
  end.

Definition digit_val (c : ascii) : option Z :=
  let n := nat_of_ascii c in
  if (48 <=? n)%nat && (n <=? 57)%nat then Some (Z.of_nat (n - 48)) else None.

(** The value of the longest prefix of decimal digits, if there is a digit. *)
Fixpoint digits_prefix (s : string) (acc : option Z) : option Z :=
  match s with
  | String c s' =>
      match digit_val c with
      | Some d => digits_prefix s' (Some (10 * default 0 acc + d))
      | None => acc
      end
  | EmptyString => acc
  end.

(** [parseInt(s, 10)]: leading white space is skipped, a sign is accepted,
    then the longest run of digits is read; no digit gives [NaN]. The
    value is the exact integer. *)
Definition parseInt (s : string) : jsnum :=
  let s1 := trim_start s in
  let '(sign, s2) :=
    match s1 with
    | String "-"%char r => (-1, r)
    | String "+"%char r => (1, r)
    | _ => (1, s1)
    end in
  match digits_prefix s2 None with
  | Some v => Num (sign * v)
  | None => NaN
  end.

(** [l.slice(start)]: a negative [start] counts from the end. *)
Definition slice {A : Type} (start : Z) (l : list A) : list A :=
  let len := Z.of_nat (List.length l) in
  let k := if start <? 0 then Z.max (len + start) 0 else Z.min start len in
  drop (Z.to_nat k) l.

(** [s.split("\n").length] *)
Definition line_count (s : string) : Z := Z.of_nat (List.length (split LF s)).

(** Characters that the sources escape. *)
Definition backslash : ascii := "092"%char.
Definition dquote : ascii := "034"%char.
Definition squote : ascii := "039"%char.
Definition TAB : ascii := "009"%char.
Definition CR : ascii := "013"%char.
Definition LFchar : ascii := "010"%char.

(** [s.replace(/c/g, replacement)] for a pattern that is one character. *)
Fixpoint replaceAll (c : ascii) (replacement s : string) : string :=
  match s with
  | String a s' =>
      if Ascii.eqb a c then replacement +:+ replaceAll c replacement s'
      else String a (replaceAll c replacement s')
  | EmptyString => EmptyString
  end.

(** [s.replace(/[class]/g, replacer)] for a class of characters and a
    replacer function. *)
Fixpoint replaceClass (class : ascii -> bool) (replacer : ascii -> string)
    (s : string) : string :=
  match s with
  | String a s' =>
      if class a then replacer a +:+ replaceClass class replacer s'
      else String a (replaceClass class replacer s')
  | EmptyString => EmptyString
  end.

(** The class [[\x20-\x7E]]. *)
Definition printable (c : ascii) : bool :=
  let n := nat_of_ascii c in (32 <=? n)%nat && (n <=? 126)%nat.

Definition hex_digit (d : nat) : ascii :=
  ascii_of_nat (if (d <? 10)%nat then 48 + d else 87 + d).

Fixpoint toString16_go (fuel n : nat) (acc : string) : string :=
  match fuel with
  | O => acc
  | S fuel' =>
      let acc' := String (hex_digit (n mod 16)) acc in
      if (n / 16 =? 0)%nat then acc' else toString16_go fuel' (n / 16) acc'
  end.

(** [n.toString(16)] *)
Definition toString16 (n : nat) : string := toString16_go (S n) n EmptyString.

(** [s.padStart(targetLength, c)] for a padding of one character. *)
Definition padStart (targetLength : nat) (c : ascii) (s : string) : string :=
  string_of_list_ascii (repeat c (targetLength - String.length s)) +:+ s.

Definition upper_char (c : ascii) : ascii :=
  let n := nat_of_ascii c in
  if (97 <=? n)%nat && (n <=? 122)%nat then ascii_of_nat (n - 32) else c.

(** [s.toUpperCase()] *)
Fixpoint toUpperCase (s : string) : string :=
  match s with
  | String c s' => String (upper_char c) (toUpperCase s')
  | EmptyString => EmptyString
  end.

(** A string in a boolean context: [undefined] and [''] are falsy. *)
Definition truthy (s : option string) : option string :=
  match s with
  | Some (String c rest) => Some (String c rest)
  | _ => None
  end.

End JS.

(** ** Effects: the channel, the inspector, the clock *)

(** A request to the terminal control channel (an [osascript] invocation). *)
Inductive Command : Type :=
| CreateWindow
| CloseWindow (windowId : string)
| WindowExists (windowId : string)
| CreateTab (windowId : string) (profileName tabName : option string)
| SelectTab (windowId : string) (tabNumber : JS.jsnum)
| CloseTab (windowId : string) (tabNumber : JS.jsnum)
| ListTabs (windowId : string)
| GetTabTty (windowId : string) (tabNumber : JS.jsnum)
| GetTty (windowId : string) (tabNumber : option JS.jsnum)
| IsProcessing (windowId : string) (tabNumber : option JS.jsnum)
| WriteText (windowId : string) (tabNumber : option JS.jsnum)
            (command : string) (multiline : bool)
| GetContents (windowId : string) (tabNumber : option JS.jsnum).

(** What [execPromise] settles with. *)
Inductive Reply : Type :=
| Stdout (s : string)
| Fails (message : string).

(** What [tracker.getActiveProcess(ttyPath)] settles with: an error (of
    the call, or of reading [metrics.totalCPUPercent] from its result), no
    process, or a process and its CPU usage. *)
Inductive Inspection : Type :=
| InspectorError (message : string)
| NoProcess
| Process (totalCPUPercent : Q).

(** The outside world. Replies and latencies (in ms) are indexed by the
    number of calls made before. *)
Record Env : Type := {
  exec_reply : nat -> Command -> Reply;
  exec_latency : nat -> nat;
  inspect_reply : nat -> string -> Inspection;
  inspect_latency : nat -> nat;
  open_error : string -> option string;
  number_to_string : Q -> string;
  path_resolve : string -> string
}.

Inductive Event : Type :=
| Exec (c : Command)
| Sleep (ms : Z)
| OpenSync (path : string)
| CloseSync (fd : nat)
| GetActiveProcess (ttyPath : string).

(** [SessionTabInfo] of SessionManager.ts *)
Module SessionTabInfo.
Record t : Type := {
  windowId : string;
  tabIndex : JS.jsnum;
  tabName : option string
}.
End SessionTabInfo.

(** The machine: what the world has seen, and the registries of the
    [SessionManager] and of its [TabManager]. The inner alias map of a
    window is kept in insertion order, the order in which a JavaScript
    [Map] is iterated. *)
Record Machine : Type := {
  clock : Z;
  trace : list Event;
  execs : nat;
  inspections : nat;
  next_fd : nat;
  open_fds : list nat;
  sessionWindowMap : gmap string string;
  sessionPathMap : gmap string string;
  sessionTabMap : gmap string SessionTabInfo.t;
  tabAliases : gmap string (list (JS.jsnum * string))
}.

Inductive outcome (A : Type) : Type :=
| Return (a : A)
| Throw (message : string)
| OutOfFuel.
Arguments Return {A} a.
Arguments Throw {A} message.
Arguments OutOfFuel {A}.

Definition M (A : Type) : Type := Machine -> outcome A * Machine.

Definition ret {A : Type} (a : A) : M A := fun st => (Return a, st).
Definition throw {A : Type} (message : string) : M A := fun st => (Throw message, st).

Definition bind {A B : Type} (m : M A) (k : A -> M B) : M B :=
  fun st =>
    match m st with
    | (Return a, st1) => k a st1
    | (Throw e, st1) => (Throw e, st1)
    | (OutOfFuel, st1) => (OutOfFuel, st1)
    end.

Notation "'let*' x ':=' m 'in' k" := (bind m (fun x => k))
  (at level 10, x pattern, m at level 100, k at level 200).
Notation "m ';;' k" := (bind m (fun _ => k))
  (at level 100, k at level 200, right associativity).

(** [try { m } catch (error) { h error }] *)
Definition try_catch {A : Type} (m : M A) (h : string -> M A) : M A :=
  fun st =>
    match m st with
    | (Throw e, st1) => h e st1
    | other => other
    end.

(** [try { m } finally { f }]: the finalizer runs when [m] returns or throws;
    if it returns a value ([Some v]) or throws, that replaces the outcome
    of [m]. *)
Definition try_finally {A : Type} (m : M A) (f : M (option A)) : M A :=
  fun st =>
    match m st with
    | (OutOfFuel, st1) => (OutOfFuel, st1)
    | (r, st1) =>
        match f st1 with
        | (Return (Some v), st2) => (Return v, st2)
        | (Return None, st2) => (r, st2)
        | (Throw e, st2) => (Throw e, st2)
        | (OutOfFuel, st2) => (OutOfFuel, st2)
        end
    end.

Definition Qltb (a b : Q) : bool := negb (Qle_bool b a).

Definition with_sessions (windows paths : gmap string string)
    (tabs : gmap string SessionTabInfo.t) (st : Machine) : Machine :=
  {| clock := clock st; trace := trace st; execs := execs st;
     inspections := inspections st; next_fd := next_fd st; open_fds := open_fds st;
     sessionWindowMap := windows; sessionPathMap := paths;
     sessionTabMap := tabs; tabAliases := tabAliases st |}.

Definition with_tabAliases (aliases : gmap string (list (JS.jsnum * string)))
    (st : Machine) : Machine :=
  {| clock := clock st; trace := trace st; execs := execs st;
     inspections := inspections st; next_fd := next_fd st; open_fds := open_fds st;
     sessionWindowMap := sessionWindowMap st; sessionPathMap := sessionPathMap st;
     sessionTabMap := sessionTabMap st; tabAliases := aliases |}.

(** A computation that has settled with outcome [o]. *)
Definition settle {A : Type} (o : outcome A) : M A := fun st => (o, st).

(** Read a field of the machine. *)
Definition gets {A : Type} (f : Machine -> A) : M A := fun st => (Return (f st), st).

(** Change the machine. *)
Definition modify (f : Machine -> Machine) : M unit := fun st => (Return tt, f st).

Section World.

Variable env : Env.

Definition record (ev : Event) (st : Machine) : Machine :=
  {| clock := clock st; trace := trace st ++ [ev]; execs := execs st;
     inspections := inspections st; next_fd := next_fd st; open_fds := open_fds st;
     sessionWindowMap := sessionWindowMap st; sessionPathMap := sessionPathMap st;
     sessionTabMap := sessionTabMap st; tabAliases := tabAliases st |}.

Definition advance (ms : Z) (st : Machine) : Machine :=
  {| clock := clock st + ms; trace := trace st; execs := execs st;
     inspections := inspections st; next_fd := next_fd st; open_fds := open_fds st;
     sessionWindowMap := sessionWindowMap st; sessionPathMap := sessionPathMap st;
     sessionTabMap := sessionTabMap st; tabAliases := tabAliases st |}.

(** [await execPromise(...)] *)
Definition exec (c : Command) : M string :=
  fun st =>
    let n := execs st in
    let st1 := advance (Z.of_nat (exec_latency env n)) (record (Exec c) st) in
    let st2 :=
      {| clock := clock st1; trace := trace st1; execs := S n;
         inspections := inspections st1; next_fd := next_fd st1; open_fds := open_fds st1;
         sessionWindowMap := sessionWindowMap st1; sessionPathMap := sessionPathMap st1;
         sessionTabMap := sessionTabMap st1; tabAliases := tabAliases st1 |} in
    match exec_reply env n c with
    | Stdout s => (Return s, st2)
    | Fails e => (Throw e, st2)
    end.

(** [await sleep(ms)] *)
Definition sleep (ms : Z) : M unit :=
  fun st => (Return tt, advance ms (record (Sleep ms) st)).

(** [Date.now()] *)
Definition now : M Z := fun st => (Return (clock st), st).

(** [await tracker.getActiveProcess(ttyPath)]: [None] is "no process",
    [Some cpu] a process with [metrics.totalCPUPercent = cpu]. *)
Definition getActiveProcess (ttyPath : string) : M (option Q) :=
  fun st =>
    let n := inspections st in
    let st1 := advance (Z.of_nat (inspect_latency env n)) (record (GetActiveProcess ttyPath) st) in
    let st2 :=
      {| clock := clock st1; trace := trace st1; execs := execs st1;
         inspections := S n; next_fd := next_fd st1; open_fds := open_fds st1;
         sessionWindowMap := sessionWindowMap st1; sessionPathMap := sessionPathMap st1;
         sessionTabMap := sessionTabMap st1; tabAliases := tabAliases st1 |} in
    match inspect_reply env n ttyPath with
    | InspectorError e => (Throw e, st2)
    | NoProcess => (Return None, st2)
    | Process cpu => (Return (Some cpu), st2)
    end.

(** [openSync(path, 'r')]: a new descriptor, or the error of the world. *)
Definition openSync (path : string) : M nat :=
  fun st =>
    let st1 := record (OpenSync path) st in
    match open_error env path with
    | Some e => (Throw e, st1)
    | None =>
        let fd := next_fd st1 in
        (Return fd,
         {| clock := clock st1; trace := trace st1; execs := execs st1;
            inspections := inspections st1; next_fd := S fd; open_fds := fd :: open_fds st1;
            sessionWindowMap := sessionWindowMap st1; sessionPathMap := sessionPathMap st1;
            sessionTabMap := sessionTabMap st1; tabAliases := tabAliases st1 |})
    end.

(** [closeSync(fd)]: throws (EBADF) on a descriptor that is not open. *)
Definition closeSync (fd : nat) : M unit :=
  fun st =>
    let st1 := record (CloseSync fd) st in
    if bool_decide (fd ∈ open_fds st1)
    then (Return tt,
          {| clock := clock st1; trace := trace st1; execs := execs st1;
             inspections := inspections st1; next_fd := next_fd st1;
             open_fds := filter (fun x => x <> fd) (open_fds st1);
             sessionWindowMap := sessionWindowMap st1; sessionPathMap := sessionPathMap st1;
             sessionTabMap := sessionTabMap st1; tabAliases := tabAliases st1 |})
    else (Throw "EBADF: bad file descriptor, close", st1).

End World.

(** ** TtyOutputReader.ts *)

Module TtyOutputReader.
Section Reader.

Variable env : Env.

(** [tell tab ${tabIndex + 1}] when a tab is given. *)
Definition sessionTarget (tabIndex : option JS.jsnum) : option JS.jsnum :=
  JS.succ <$> tabIndex.

Definition retrieveBuffer (windowId : string) (tabIndex : option JS.jsnum) : M string :=
  let* finalContent := exec env (GetContents windowId (sessionTarget tabIndex)) in
  ret (JS.trim finalContent).

(** [call(windowId, linesOfOutput, tabIndex)]: [undefined], [NaN] and [0]
    are the falsy values of [linesOfOutput]. *)
Definition call (windowId : string) (linesOfOutput : option JS.jsnum)
    (tabIndex : option JS.jsnum) : M string :=
  let* buffer := retrieveBuffer windowId tabIndex in
  match linesOfOutput with
  | Some (JS.Num n) =>
      if n =? 0 then ret buffer
      else ret (JS.join JS.LF (JS.slice (- n - 1) (JS.split JS.LF buffer)))
  | _ => ret buffer
  end.

End Reader.
End TtyOutputReader.

(** ** CommandExecutor.ts *)

Module CommandExecutor.

(** [{newLines, executionTime, output?}]: [output] is [None] when the field
    is absent, [Some None] when it is [null]. *)
Record Result : Type := {
  newLines : Z;
  executionTime : Z;
  output : option (option string)
}.

(** [timeoutMs * 0.25] *)
Definition processingTimeout (timeoutMs : Q) : Q := (timeoutMs * (25 # 100))%Q.

(** [Math.max(timeoutMs - elapsedTime, 1000)] *)
Definition remainingTime (timeoutMs : Q) (elapsedTime : Z) : Q :=
  Qmax (timeoutMs - inject_Z elapsedTime)%Q 1000%Q.

(** [Math.min(remainingTime * 0.93, timeoutMs * 0.7)] *)
Definition inputTimeout (timeoutMs : Q) (elapsedTime : Z) : Q :=
  Qmin (remainingTime timeoutMs elapsedTime * (93 # 100))%Q (timeoutMs * (7 # 10))%Q.

(** The body of the [try] around the capture of the output lines:
    [afterCommandBuffer.split('\n').slice(-returnOutputLines - 1).join('\n')]. *)
Definition captureTail (afterCommandBuffer : string) (returnOutputLines : Z) : string :=
  JS.join JS.LF (JS.slice (- returnOutputLines - 1) (JS.split JS.LF afterCommandBuffer)).

(** That body as a step that may throw: on strings it never does. *)
Definition tryCaptureTail (afterCommandBuffer : string) (returnOutputLines : Z)
    : outcome string :=
  Return (captureTail afterCommandBuffer returnOutputLines).

(** The error messages that the two catch blocks of [retrieveTtyPath] and
    [isProcessing] build from the message of the channel. *)
Definition classify (windowId fallback errorMessage : string) : string :=
  if JS.includes "Invalid key form" errorMessage
     || JS.includes "doesn't understand" errorMessage
  then "Invalid window ID " +:+ windowId
       +:+ ": window may have been closed or doesn't exist"
  else if JS.includes "iTerm2 got an error" errorMessage
  then "iTerm2 AppleScript error: " +:+ errorMessage
  else fallback +:+ errorMessage.

(** [escapeAppleScriptString]: the three replacements, in their order. *)
Definition escapeAppleScriptString (str : string) : string :=
  JS.replaceAll JS.TAB (String JS.backslash "t")
    (JS.replaceAll JS.dquote (String JS.backslash (String JS.dquote ""))
       (JS.replaceAll JS.backslash (String JS.backslash (String JS.backslash "")) str)).

(** ['"' + this.escapeAppleScriptString(line) + '"'] *)
Definition quoted (line : string) : string :=
  String JS.dquote (escapeAppleScriptString line +:+ String JS.dquote "").

(** [prepareMultilineCommand]: the first line, then the loop over the
    others ([split] gives at least one piece). *)
Definition prepareMultilineCommand (str : string) : string :=
  match JS.split JS.LF str with
  | [] => EmptyString
  | first :: others =>
      fold_left (fun applescriptString line =>
                   applescriptString +:+ " & return & " +:+ quoted line)
                others (quoted first)
  end.

(** ['\\u' + char.charCodeAt(0).toString(16).padStart(4, '0')] *)
Definition unicodeEscape (char : ascii) : string :=
  String JS.backslash
    ("u" +:+ JS.padStart 4 "0"%char (JS.toString16 (nat_of_ascii char))).

(** The four replacements of the branch for a command on one line, in
    their order. *)
Definition escapeSingleLine (str : string) : string :=
  let str := JS.replaceAll JS.backslash
               (String JS.backslash (String JS.backslash "")) str in
  let str := JS.replaceAll JS.dquote (String JS.backslash (String JS.dquote "")) str in
  let str := JS.replaceAll JS.squote
               (String JS.squote (String JS.backslash
                  (String JS.squote (String JS.squote "")))) str in
  JS.replaceClass (fun c => negb (JS.printable c)) unicodeEscape str.

Definition escapeForAppleScript (str : string) : string :=
  if JS.includes JS.LF str then prepareMultilineCommand str
  else escapeSingleLine str.

Section Executor.

Variable env : Env.

(** [Promise.race([promise, timeoutPromise])]: the promise wins when it
    settles before [timeoutMs] have passed, otherwise the race rejects with
    [errorMessage] (the abandoned promise is not cancelled: the machine is
    the one it leaves behind). A loop that is out of fuel has not settled
    and decides nothing. *)
Definition withTimeout {A : Type} (promise : M A) (timeoutMs : Q)
    (errorMessage : string) : M A :=
  fun st =>
    match promise st with
    | (OutOfFuel, st1) => (OutOfFuel, st1)
    | (r, st1) =>
        if Qltb (inject_Z (clock st1 - clock st)) timeoutMs
        then (r, st1)
        else (Throw errorMessage, st1)
    end.

Definition isProcessing (windowId : string) (tabIndex : option JS.jsnum) : M bool :=
  try_catch
    (let* stdout := exec env (IsProcessing windowId (TtyOutputReader.sessionTarget tabIndex)) in
     ret (String.eqb (JS.trim stdout) "true"))
    (fun errorMessage =>
       throw (classify windowId "Failed to check processing status: " errorMessage)).

Definition retrieveTtyPath (windowId : string) (tabIndex : option JS.jsnum) : M string :=
  try_catch
    (let* stdout := exec env (GetTty windowId (TtyOutputReader.sessionTarget tabIndex)) in
     ret (JS.trim stdout))
    (fun errorMessage =>
       throw (classify windowId "Failed to retrieve TTY path: " errorMessage)).

(** [while (await this.isProcessing(windowId, tabIndex)) await sleep(100)] *)
Fixpoint waitForProcessingComplete (fuel : nat) (windowId : string)
    (tabIndex : option JS.jsnum) : M unit :=
  match fuel with
  | O => settle OutOfFuel
  | S fuel' =>
      let* processing := isProcessing windowId tabIndex in
      if (processing : bool)
      then sleep 100 ;; waitForProcessingComplete fuel' windowId tabIndex
      else ret tt
  end.

(** The [while (true)] loop of [isWaitingForUserInput]. One round is the
    inner [try]/[catch], which either returns from the function ([inl]) or
    falls through with the new [belowThresholdTime] ([inr]), followed by
    [await sleep(350)]. *)
Fixpoint pollActivity (fuel : nat) (ttyPath : string) (belowThresholdTime : Z) : M bool :=
  match fuel with
  | O => settle OutOfFuel
  | S fuel' =>
      let* round :=
        try_catch
          (let* activeProcess := getActiveProcess env ttyPath in
           match activeProcess with
           | None => ret (inl true)
           | Some totalCPUPercent =>
               if Qltb totalCPUPercent 1%Q
               then if 1000 <=? belowThresholdTime + 350
                    then ret (inl true)
                    else ret (inr (belowThresholdTime + 350))
               else ret (inr 0)
           end)
          (fun _ => ret (inl true)) in
      match round with
      | inl answer => ret answer
      | inr below => sleep 350 ;; pollActivity fuel' ttyPath below
      end
  end.

(** [fd] is assigned by the first statement of the outer [try]; the outer
    [catch] returns [true]; the [finally] closes [fd] when it was assigned
    and then returns [true] itself. *)
Definition isWaitingForUserInput (fuel : nat) (ttyPath : string) : M bool :=
  fun st =>
    let '(opened, st1) := openSync env ttyPath st in
    let fd := match opened with Return fd => Some fd | _ => None end in
    try_finally
      (try_catch
         (match opened with
          | Return _ => pollActivity fuel ttyPath 0
          | Throw e => throw e
          | OutOfFuel => settle OutOfFuel
          end)
         (fun _ => ret true))
      (match fd with
       | Some fd => closeSync fd
       | None => ret tt
       end ;;
       ret (Some true))
      st1.

(** [while (await this.isWaitingForUserInput(ttyPath) === false) await sleep(100)] *)
Fixpoint waitForUserInputReady (fuel polls : nat) (windowId ttyPath : string) : M unit :=
  match fuel with
  | O => settle OutOfFuel
  | S fuel' =>
      let* waiting := isWaitingForUserInput polls ttyPath in
      if (waiting : bool)
      then ret tt
      else sleep 100 ;; waitForUserInputReady fuel' polls windowId ttyPath
  end.

(** Lines 68-84: the buffer before the command, and the submission. *)
Definition submit (windowId command : string) (tabIndex : option JS.jsnum) : M Z :=
  let* beforeCommandBuffer := TtyOutputReader.retrieveBuffer env windowId tabIndex in
  let beforeCommandBufferLines := JS.line_count beforeCommandBuffer in
  exec env (WriteText windowId (TtyOutputReader.sessionTarget tabIndex) command
              (JS.includes JS.LF command)) ;;
  ret beforeCommandBufferLines.

(** Lines 86-92: phase 1, a quarter of the timeout. *)
Definition drainProcessing (fuel : nat) (windowId : string)
    (tabIndex : option JS.jsnum) (timeoutMs : Q) : M unit :=
  withTimeout (waitForProcessingComplete fuel windowId tabIndex)
    (processingTimeout timeoutMs)
    ("Command timed out waiting for processing to complete ("
       +:+ number_to_string env (processingTimeout timeoutMs / 1000)%Q +:+ "s)").

(** Lines 94-104: phase 2. *)
Definition confirmIdle (fuel : nat) (windowId : string) (tabIndex : option JS.jsnum)
    (startTime : Z) (timeoutSeconds : Q) : M unit :=
  let timeoutMs := (timeoutSeconds * 1000)%Q in
  let* t := now in
  let elapsedTime := t - startTime in
  let* ttyPath := retrieveTtyPath windowId tabIndex in
  withTimeout (waitForUserInputReady fuel fuel windowId ttyPath)
    (inputTimeout timeoutMs elapsedTime)
    ("Command timed out waiting for completion ("
       +:+ number_to_string env timeoutSeconds +:+ "s total timeout exceeded)").

(** Lines 106-133: the settle delay, the buffer after the command and the
    result. [capture] is the body of the inner [try]. *)
Definition collect (capture : string -> Z -> outcome string) (windowId : string)
    (tabIndex : option JS.jsnum) (startTime beforeCommandBufferLines : Z)
    (returnOutputLines : Z) : M Result :=
  sleep 200 ;;
  let* afterCommandBuffer := TtyOutputReader.retrieveBuffer env windowId tabIndex in
  let afterCommandBufferLines := JS.line_count afterCommandBuffer in
  let newLines := afterCommandBufferLines - beforeCommandBufferLines in
  let* t := now in
  let executionTime := t - startTime in
  let* output :=
    if 0 <? returnOutputLines
    then try_catch
           (let* tail := settle (capture afterCommandBuffer returnOutputLines) in
            ret (Some (Some tail)))
           (fun _ => ret (Some None))
    else ret None in
  ret {| newLines := newLines; executionTime := executionTime; output := output |}.

Definition executeCommandWith (capture : string -> Z -> outcome string) (fuel : nat)
    (windowId command : string) (timeoutSeconds : Q) (returnOutputLines : Z)
    (tabIndex : option JS.jsnum) : M Result :=
  let* startTime := now in
  let timeoutMs := (timeoutSeconds * 1000)%Q in
  try_catch
    (let* beforeCommandBufferLines := submit windowId command tabIndex in
     drainProcessing fuel windowId tabIndex timeoutMs ;;
     confirmIdle fuel windowId tabIndex startTime timeoutSeconds ;;
     collect capture windowId tabIndex startTime beforeCommandBufferLines
       returnOutputLines)
    (fun message => throw ("Failed to execute command: " +:+ message)).

(** [executeCommand(windowId, command, timeoutSeconds, returnOutputLines, tabIndex)] *)
Definition executeCommand : nat -> string -> string -> Q -> Z -> option JS.jsnum -> M Result :=
  executeCommandWith tryCaptureTail.

End Executor.
End CommandExecutor.

(** ** TabManager.ts *)

Module TabManager.

Record TabInfo : Type := {
  index : JS.jsnum;
  name : string;
  sessionId : option string;
  tty : option string;
  alias : option string
}.

(** [string | number] *)
Inductive TabIdentifier : Type :=
| ByNumber (n : JS.jsnum)
| ByString (s : string).

(** A [Map<number, string>] in insertion order. *)
Fixpoint map_set (k : JS.jsnum) (v : string) (m : list (JS.jsnum * string))
    : list (JS.jsnum * string) :=
  match m with
  | [] => [(k, v)]
  | (k', v') :: m' =>
      if JS.same_value_zero k' k then (k', v) :: m' else (k', v') :: map_set k v m'
  end.

Fixpoint map_get (k : JS.jsnum) (m : list (JS.jsnum * string)) : option string :=
  match m with
  | [] => None
  | (k', v') :: m' => if JS.same_value_zero k' k then Some v' else map_get k m'
  end.

Fixpoint map_delete (k : JS.jsnum) (m : list (JS.jsnum * string))
    : list (JS.jsnum * string) :=
  match m with
  | [] => []
  | (k', v') :: m' =>
      if JS.same_value_zero k' k then map_delete k m' else (k', v') :: map_delete k m'
  end.

(** [for (const [tabIndex, tabAlias] of m.entries()) if (tabAlias === alias) return tabIndex] *)
Fixpoint first_with_alias (alias : string) (m : list (JS.jsnum * string))
    : option JS.jsnum :=
  match m with
  | [] => None
  | (tabIndex, tabAlias) :: m' =>
      if String.eqb tabAlias alias then Some tabIndex else first_with_alias alias m'
  end.

Definition setTabAlias (windowId : string) (tabIndex : JS.jsnum) (alias : string) : M unit :=
  modify (fun st =>
    let aliases :=
      match tabAliases st !! windowId with
      | None => <[windowId := []]> (tabAliases st)
      | Some _ => tabAliases st
      end in
    with_tabAliases (alter (map_set tabIndex alias) windowId aliases) st).

Definition getTabAlias (windowId : string) (tabIndex : JS.jsnum) : M (option string) :=
  gets (fun st =>
    match tabAliases st !! windowId with
    | None => None
    | Some windowAliases => map_get tabIndex windowAliases
    end).

Definition removeTabAlias (windowId : string) (tabIndex : JS.jsnum) : M unit :=
  modify (fun st =>
    with_tabAliases (alter (map_delete tabIndex) windowId (tabAliases st)) st).

Definition getTabIndexByAlias (windowId alias : string) : M (option JS.jsnum) :=
  gets (fun st =>
    match tabAliases st !! windowId with
    | None => None
    | Some windowAliases => first_with_alias alias windowAliases
    end).

Definition clearWindowAliases (windowId : string) : M unit :=
  modify (fun st => with_tabAliases (delete windowId (tabAliases st)) st).

Section Tabs.

Variable env : Env.

(** One record [index|name|sessionId|tty] of the listing. *)
Definition parseTab (windowId tabString : string) : M TabInfo :=
  let parts := JS.split "|" tabString in
  let tabIndex :=
    match parts !! 0%nat with
    | Some indexStr => JS.parseInt indexStr
    | None => JS.NaN
    end in
  let* alias := getTabAlias windowId tabIndex in
  ret {| index := tabIndex;
         name := match parts !! 1%nat with
                 | Some (String c rest) => String c rest
                 | _ => "Tab " +:+ JS.show (JS.succ tabIndex)
                 end;
         sessionId := parts !! 2%nat;
         tty := parts !! 3%nat;
         alias := alias |}.

Fixpoint parseTabs (windowId : string) (tabStrings : list string) : M (list TabInfo) :=
  match tabStrings with
  | [] => ret []
  | tabString :: rest =>
      let* tab := parseTab windowId tabString in
      let* tabs := parseTabs windowId rest in
      ret (tab :: tabs)
  end.

Definition listTabs (windowId : string) : M (list TabInfo) :=
  try_catch
    (let* stdout := exec env (ListTabs windowId) in
     let tabData := JS.trim stdout in
     if String.eqb tabData "" then ret []
     else parseTabs windowId (JS.split ", " tabData))
    (fun message => throw ("Failed to list tabs: " +:+ message)).

(** [tabs.find(t => t.name === tabName)] *)
Definition getTabIndex (windowId tabName : string) : M (option JS.jsnum) :=
  let* tabs := listTabs windowId in
  ret (index <$> List.find (fun t => String.eqb (name t) tabName) tabs).

Definition closeTab (windowId : string) (tabIndex : JS.jsnum) : M unit :=
  try_catch
    (exec env (CloseTab windowId (JS.succ tabIndex)) ;; ret tt)
    (fun message =>
       throw ("Failed to close tab " +:+ JS.show tabIndex +:+ ": " +:+ message)).

Definition resolveTabIndex (windowId : string) (tabIdentifier : TabIdentifier)
    : M JS.jsnum :=
  match tabIdentifier with
  | ByNumber n => ret n
  | ByString s =>
      match JS.parseInt s with
      | JS.Num numericIndex => ret (JS.Num numericIndex)
      | JS.NaN =>
          let* aliasBased := getTabIndexByAlias windowId s in
          match aliasBased with
          | Some tabIndex => ret tabIndex
          | None =>
              let* tabIndex := getTabIndex windowId s in
              match tabIndex with
              | None => throw ("Tab not found: " +:+ s)
              | Some tabIndex => ret tabIndex
              end
          end
      end
  end.

(** [createTab(windowId, profileName, tabName)]: an empty [profileName]
    or [tabName] is falsy and gives the script of the absent one. *)
Definition createTab (windowId : string) (profileName tabName : option string)
    : M JS.jsnum :=
  try_catch
    (let* stdout := exec env (CreateTab windowId (JS.truthy profileName)
                                (JS.truthy tabName)) in
     match JS.parseInt (JS.trim stdout) with
     | JS.NaN => throw "Failed to get new tab index from iTerm2"
     | JS.Num tabIndex => ret (JS.Num tabIndex)
     end)
    (fun message => throw ("Failed to create tab: " +:+ message)).

Definition selectTab (windowId : string) (tabIndex : JS.jsnum) : M unit :=
  try_catch
    (exec env (SelectTab windowId (JS.succ tabIndex)) ;; ret tt)
    (fun message =>
       throw ("Failed to select tab " +:+ JS.show tabIndex +:+ ": " +:+ message)).

Definition getTabTty (windowId : string) (tabIndex : JS.jsnum) : M string :=
  try_catch
    (let* stdout := exec env (GetTabTty windowId (JS.succ tabIndex)) in
     ret (JS.trim stdout))
    (fun message =>
       throw ("Failed to get TTY for tab " +:+ JS.show tabIndex +:+ ": " +:+ message)).

Definition ensureTab (windowId tabName : string) (profileName : option string)
    : M JS.jsnum :=
  let* existingIndex := getTabIndex windowId tabName in
  match existingIndex with
  | Some existingIndex => ret existingIndex
  | None => createTab windowId profileName (Some tabName)
  end.

End Tabs.
End TabManager.

(** ** SessionManager.ts *)

Module SessionManager.

(** [string | string[]] *)
Inductive TabsArgument : Type :=
| OneString (tabs : string)
| StringArray (tabs : list string).

(** [{success, message}] *)
Record CloseReport : Type := {
  success : bool;
  message : string
}.

(** The three [delete(clientId)] of [endSession]. *)
Definition forgetClient (clientId : string) : M unit :=
  modify (fun st =>
    with_sessions (delete clientId (sessionWindowMap st))
                  (delete clientId (sessionPathMap st))
                  (delete clientId (sessionTabMap st)) st).

Definition setSessionTab (clientId : string) (info : SessionTabInfo.t) : M unit :=
  modify (fun st =>
    with_sessions (sessionWindowMap st) (sessionPathMap st)
                  (<[clientId := info]> (sessionTabMap st)) st).

Definition deleteSessionTab (clientId : string) : M unit :=
  modify (fun st =>
    with_sessions (sessionWindowMap st) (sessionPathMap st)
                  (delete clientId (sessionTabMap st)) st).

(** [this.sessionWindowMap.get(clientId)] followed by the test [!windowId]:
    an absent entry and the empty string are both falsy. *)
Definition getWindowId (clientId : string) : M (option string) :=
  gets (fun st =>
    match sessionWindowMap st !! clientId with
    | Some (String c rest) => Some (String c rest)
    | _ => None
    end).

Section Sessions.

Variable env : Env.

Definition createSession (clientId : string) (workingDir : option string) : M string :=
  try_catch
    (let* stdout := exec env CreateWindow in
     let windowId := JS.trim stdout in
     if String.eqb windowId "" then throw "Failed to get new window ID from iTerm2."
     else
       modify (fun st =>
         with_sessions (<[clientId := windowId]> (sessionWindowMap st))
                       (match workingDir with
                        | Some (String c rest) =>
                            <[clientId := path_resolve env (String c rest)]> (sessionPathMap st)
                        | _ => sessionPathMap st
                        end)
                       (sessionTabMap st) st) ;;
       ret windowId)
    (fun message => throw ("Failed to create iTerm2 window: " +:+ message)).

Definition endSession (clientId : string) : M unit :=
  let* windowId := getWindowId clientId in
  match windowId with
  | None => ret tt
  | Some windowId =>
      try_catch
        (exec env (CloseWindow windowId) ;; forgetClient clientId)
        (fun _ => forgetClient clientId)
  end.

Definition closeSessionTab (clientId : string)
    (tabIdentifier : TabManager.TabIdentifier) : M unit :=
  let* windowId := getWindowId clientId in
  match windowId with
  | None => throw ("No session found for client " +:+ clientId)
  | Some windowId =>
      let* tabIndex := TabManager.resolveTabIndex env windowId tabIdentifier in
      TabManager.closeTab env windowId tabIndex ;;
      let* currentTabInfo := gets (fun st => sessionTabMap st !! clientId) in
      match currentTabInfo with
      | Some info =>
          if JS.strict_eq (SessionTabInfo.tabIndex info) tabIndex
          then try_catch
                 (let* tabs := TabManager.listTabs env windowId in
                  if (0 <? List.length tabs)%nat
                  then setSessionTab clientId
                         {| SessionTabInfo.windowId := windowId;
                            SessionTabInfo.tabIndex := JS.Num 0;
                            SessionTabInfo.tabName := None |}
                  else deleteSessionTab clientId)
                 (fun _ => deleteSessionTab clientId)
          else ret tt
      | None => ret tt
      end
  end.

(** The [for] loop of [closeTabs]: the identifiers closed and the failures. *)
Fixpoint closeEach (clientId : string) (tabList : list string)
    : M (list string * list string) :=
  match tabList with
  | [] => ret ([], [])
  | tabIdentifier :: rest =>
      let* one :=
        try_catch
          (closeSessionTab clientId (TabManager.ByString tabIdentifier) ;;
           ret (inl tabIdentifier))
          (fun message => ret (inr (tabIdentifier +:+ ": " +:+ message))) in
      let* others := closeEach clientId rest in
      ret (match one with
           | inl closed => (closed :: fst others, snd others)
           | inr failed => (fst others, failed :: snd others)
           end)
  end.

(** [typeof tabs === 'string' && tabs.toLowerCase() === 'all'] *)
Definition isAll (tabs : TabsArgument) : bool :=
  match tabs with
  | OneString s => String.eqb (JS.toLowerCase s) "all"
  | StringArray _ => false
  end.

Definition closeTabs (clientId : string) (tabs : TabsArgument) : M CloseReport :=
  let* windowId := getWindowId clientId in
  match windowId with
  | None =>
      ret {| success := false;
             message := "No session found for client " +:+ clientId |}
  | Some windowId =>
      if isAll tabs
      then try_catch
             (endSession clientId ;;
              ret {| success := true;
                     message := "Successfully closed entire window for client "
                                  +:+ clientId |})
             (fun message =>
                ret {| success := false;
                       message := "Failed to close window: " +:+ message |})
      else
        let tabList :=
          match tabs with
          | StringArray l => l
          | OneString s => [s]
          end in
        let* result := closeEach clientId tabList in
        let closedTabs := fst result in
        let failedTabs := snd result in
        let successMessage :=
          if (0 <? List.length closedTabs)%nat
          then "Closed tabs: " +:+ JS.join ", " closedTabs else "" in
        let failureMessage :=
          if (0 <? List.length failedTabs)%nat
          then "Failed to close: " +:+ JS.join "; " failedTabs else "" in
        let message :=
          JS.join ". " (List.filter (fun m => negb (String.eqb m ""))
                          [successMessage; failureMessage]) in
        ret {| success := (0 <? List.length closedTabs)%nat;
               message := if String.eqb message "" then "No tabs were processed"
                          else message |}
  end.

(** [this.sessionWindowMap.has(clientId)] *)
Definition hasSession (clientId : string) : M bool :=
  gets (fun st => bool_decide (is_Some (sessionWindowMap st !! clientId))).

Definition getSessionPath (clientId : string) : M (option string) :=
  gets (fun st => sessionPathMap st !! clientId).

Definition getSessionTabInfo (clientId : string) : M (option SessionTabInfo.t) :=
  gets (fun st => sessionTabMap st !! clientId).

(** The two [delete(existingClientId)] of [focusOrCreateSessionForPath]. *)
Definition forgetWindowAndPath (clientId : string) : M unit :=
  modify (fun st =>
    with_sessions (delete clientId (sessionWindowMap st))
                  (delete clientId (sessionPathMap st))
                  (sessionTabMap st) st).

Definition validateWindow (windowId : string) : M bool :=
  try_catch
    (let* stdout := exec env (WindowExists windowId) in
     ret (String.eqb (JS.trim stdout) "true"))
    (fun _ => ret false).

(** The loop of [findSessionByPath] over the entries of [sessionPathMap].
    [clients] are the keys of the map in the order of the iteration. *)
Fixpoint first_with_path (normalizedPath : string) (paths : gmap string string)
    (clients : list string) : option string :=
  match clients with
  | [] => None
  | clientId :: rest =>
      if bool_decide (paths !! clientId = Some normalizedPath) then Some clientId
      else first_with_path normalizedPath paths rest
  end.

(** [findSessionByPath(path)]. A JavaScript [Map] is iterated in the order
    in which its keys were inserted, which the machine does not record:
    the keys in that order are the argument [clients]. *)
Definition findSessionByPath (clients : list string) (path : string)
    : M (option string) :=
  gets (fun st =>
    first_with_path (path_resolve env path) (sessionPathMap st) clients).

Definition refreshSession (clientId : string) : M string :=
  let* existingWindowId := getWindowId clientId in
  let* existingWorkingDir := getSessionPath clientId in
  match existingWindowId with
  | Some existingWindowId =>
      let* isValid := validateWindow existingWindowId in
      if (isValid : bool) then ret existingWindowId
      else forgetClient clientId ;; createSession clientId existingWorkingDir
  | None => createSession clientId existingWorkingDir
  end.

Definition listSessionTabs (clientId : string) : M (list TabManager.TabInfo) :=
  let* windowId := getWindowId clientId in
  match windowId with
  | None => throw ("No session found for client " +:+ clientId)
  | Some windowId => TabManager.listTabs env windowId
  end.

Definition focusOrCreateTab (clientId : string)
    (tabIdentifier : option TabManager.TabIdentifier) : M JS.jsnum :=
  let* windowId := getWindowId clientId in
  match windowId with
  | None => throw ("No session found for client " +:+ clientId)
  | Some windowId =>
      match tabIdentifier with
      | None =>
          let* currentTabInfo := getSessionTabInfo clientId in
          match currentTabInfo with
          | Some currentTabInfo =>
              TabManager.selectTab env windowId (SessionTabInfo.tabIndex currentTabInfo) ;;
              ret (SessionTabInfo.tabIndex currentTabInfo)
          | None =>
              TabManager.selectTab env windowId (JS.Num 0) ;;
              setSessionTab clientId
                {| SessionTabInfo.windowId := windowId;
                   SessionTabInfo.tabIndex := JS.Num 0;
                   SessionTabInfo.tabName := None |} ;;
              ret (JS.Num 0)
          end
      | Some tabIdentifier =>
          let* target :=
            match tabIdentifier with
            | TabManager.ByString s =>
                match JS.parseInt s with
                | JS.Num numericIndex => ret (JS.Num numericIndex, None)
                | JS.NaN =>
                    let* tabIndex := TabManager.ensureTab env windowId s None in
                    ret (tabIndex, Some s)
                end
            | TabManager.ByNumber n => ret (n, None)
            end in
          let '(tabIndex, tabName) := target in
          TabManager.selectTab env windowId tabIndex ;;
          setSessionTab clientId
            {| SessionTabInfo.windowId := windowId;
               SessionTabInfo.tabIndex := tabIndex;
               SessionTabInfo.tabName := tabName |} ;;
          ret tabIndex
      end
  end.

Definition getSessionTabTty (clientId : string) : M string :=
  let* tabInfo := getSessionTabInfo clientId in
  match tabInfo with
  | None =>
      let* windowId := getWindowId clientId in
      match windowId with
      | None => throw ("No session found for client " +:+ clientId)
      | Some windowId =>
          let* stdout := exec env (GetTty windowId None) in
          ret (JS.trim stdout)
      end
  | Some tabInfo =>
      TabManager.getTabTty env (SessionTabInfo.windowId tabInfo)
        (SessionTabInfo.tabIndex tabInfo)
  end.

Definition setTabAlias (clientId : string) (tabIdentifier : TabManager.TabIdentifier)
    (alias : string) : M unit :=
  let* windowId := getWindowId clientId in
  match windowId with
  | None => throw ("No session found for client " +:+ clientId)
  | Some windowId =>
      let* tabIndex := TabManager.resolveTabIndex env windowId tabIdentifier in
      TabManager.setTabAlias windowId tabIndex alias
  end.

Definition endSessionByPath (clients : list string) (path : string) : M CloseReport :=
  let normalizedPath := path_resolve env path in
  let* clientId := findSessionByPath clients normalizedPath in
  match JS.truthy clientId with
  | None =>
      ret {| success := false;
             message := "No active session found for path: " +:+ normalizedPath |}
  | Some clientId =>
      let* windowId := getWindowId clientId in
      try_catch
        (endSession clientId ;;
         ret {| success := true;
                message := "Successfully closed session for path: " +:+ normalizedPath
                             +:+ match windowId with
                                 | Some windowId => " (window " +:+ windowId +:+ ")"
                                 | None => ""
                                 end |})
        (fun message =>
           ret {| success := false;
                  message := "Failed to close session for path " +:+ normalizedPath
                               +:+ ": " +:+ message |})
  end.

Definition closeTabsByPath (clients : list string) (path : string) (tabs : TabsArgument)
    : M CloseReport :=
  let normalizedPath := path_resolve env path in
  let* clientId := findSessionByPath clients normalizedPath in
  match JS.truthy clientId with
  | None =>
      ret {| success := false;
             message := "No active session found for path: " +:+ normalizedPath |}
  | Some clientId => closeTabs clientId tabs
  end.

(** [createHash('md5').update(s).digest('hex').substring(0, 8)] is a
    parameter of the two functions that derive a client from a path. *)
Section Paths.

Variable md5_hex8 : string -> string.

Definition getClientIdFromPath (path : string) : string :=
  "path_" +:+ md5_hex8 (path_resolve env path).

Definition focusOrCreateSessionForPath (clients : list string) (path : string)
    : M string :=
  let normalizedPath := path_resolve env path in
  let* existingClientId := findSessionByPath clients normalizedPath in
  let* existing :=
    match JS.truthy existingClientId with
    | Some existingClientId =>
        let* existingWindowId := getWindowId existingClientId in
        match existingWindowId with
        | Some existingWindowId =>
            let* isValid := validateWindow existingWindowId in
            if (isValid : bool) then ret (Some existingWindowId)
            else forgetWindowAndPath existingClientId ;; ret None
        | None => ret None
        end
    | None => ret None
    end in
  match existing with
  | Some existingWindowId => ret existingWindowId
  | None =>
      createSession (getClientIdFromPath normalizedPath) (Some normalizedPath)
  end.

End Paths.

End Sessions.
End SessionManager.

(** ** SendControlCharacter.ts *)

Module SendControlCharacter.

(** The script of [send]: [write text (ASCII character ${controlCode})] in
    the current session of [window id ${windowId}]. *)
Record Script : Type := {
  window : string;
  asciiCharacter : Z
}.

(** [/^[A-Z]$/] *)
Definition isCapitalLetter (letter : string) : bool :=
  match letter with
  | String c EmptyString =>
      let n := nat_of_ascii c in (65 <=? n)%nat && (n <=? 90)%nat
  | _ => false
  end.

(** [letter.charCodeAt(0)] of a non-empty string. *)
Definition charCodeAt0 (letter : string) : Z :=
  match letter with
  | String c _ => Z.of_nat (nat_of_ascii c)
  | EmptyString => 0
  end.

(** The [if] chain of [send] that assigns [controlCode]. *)
Definition controlCode (letter : string) : outcome Z :=
  if String.eqb (JS.toUpperCase letter) "]" then Return 29
  else if String.eqb (JS.toUpperCase letter) "ESCAPE"
          || String.eqb (JS.toUpperCase letter) "ESC" then Return 27
  else
    let letter := JS.toUpperCase letter in
    if negb (isCapitalLetter letter) then Throw "Invalid control character letter"
    else Return (charCodeAt0 letter - 64).

Section Sender.

(** [this.executeCommand(command, windowId)], which a subclass may
    override. *)
Variable executeCommand : Script -> string -> M unit.

Definition send (windowId letter : string) : M unit :=
  let* controlCode := settle (controlCode letter) in
  try_catch
    (executeCommand {| window := windowId; asciiCharacter := controlCode |} windowId)
    (fun message => throw ("Failed to send control character: " +:+ message)).

End Sender.
End SendControlCharacter.

(** ** KeySender.ts *)

Module KeySender.

(** The value of [table[key]] for a table that is an object literal: a
    number of the table, or what [key] names on [Object.prototype], kept as
    the text that stands for it in a template or a [join]. *)
Inductive KeyValue : Type :=
| Code (n : Z)
| Inherited (text : string).

(** [`${value}`] *)
Definition show (value : KeyValue) : string :=
  match value with
  | Code n => pretty n
  | Inherited text => text
  end.

Definition KEY_CODES : list (string * Z) :=
  [("up", 126); ("down", 125); ("left", 123); ("right", 124);
   ("f1", 122); ("f2", 120); ("f3", 99); ("f4", 118); ("f5", 96);
   ("f6", 97); ("f7", 98); ("f8", 100); ("f9", 101); ("f10", 109);
   ("f11", 103); ("f12", 111); ("f13", 105); ("f14", 107); ("f15", 113);
   ("f16", 106); ("f17", 64); ("f18", 79); ("f19", 80); ("f20", 90);
   ("home", 115); ("end", 119); ("pageup", 116); ("pagedown", 121);
   ("tab", 48); ("enter", 36); ("return", 36); ("space", 49);
   ("backspace", 51); ("delete", 117); ("escape", 53); ("esc", 53);
   ("0", 29); ("1", 18); ("2", 19); ("3", 20); ("4", 21); ("5", 23);
   ("6", 22); ("7", 26); ("8", 28); ("9", 25);
   ("a", 0); ("b", 11); ("c", 8); ("d", 2); ("e", 14); ("f", 3);
   ("g", 5); ("h", 4); ("i", 34); ("j", 38); ("k", 40); ("l", 37);
   ("m", 46); ("n", 45); ("o", 35); ("p", 31); ("q", 12); ("r", 15);
   ("s", 1); ("t", 17); ("u", 32); ("v", 9); ("w", 13); ("x", 7);
   ("y", 16); ("z", 6);
   ("semicolon", 41); ("quote", 39); ("comma", 43); ("period", 47);
   ("slash", 44); ("backslash", 42); ("minus", 27); ("equal", 24);
   ("leftbracket", 33); ("rightbracket", 30); ("grave", 50);
   ("keypad0", 82); ("keypad1", 83); ("keypad2", 84); ("keypad3", 85);
   ("keypad4", 86); ("keypad5", 87); ("keypad6", 88); ("keypad7", 89);
   ("keypad8", 91); ("keypad9", 92); ("keypadclear", 71); ("keypadequals", 81);
   ("keypaddivide", 75); ("keypadmultiply", 67); ("keypadminus", 78);
   ("keypadplus", 69); ("keypadenter", 76); ("keypaddecimal", 65)].

Definition CONTROL_CHARS : list (string * Z) :=
  [("a", 1); ("b", 2); ("c", 3); ("d", 4); ("e", 5); ("f", 6); ("g", 7);
   ("h", 8); ("i", 9); ("j", 10); ("k", 11); ("l", 12); ("m", 13); ("n", 14);
   ("o", 15); ("p", 16); ("q", 17); ("r", 18); ("s", 19); ("t", 20);
   ("u", 21); ("v", 22); ("w", 23); ("x", 24); ("y", 25); ("z", 26);
   ("esc", 27); ("escape", 27); ("]", 29)].

Definition MODIFIERS : list (string * string) :=
  [("cmd", "command down"); ("command", "command down");
   ("ctrl", "control down"); ("control", "control down");
   ("opt", "option down"); ("option", "option down");
   ("shift", "shift down"); ("alt", "option down")].

(** The [asciiMap] of [sendKeyCode]. *)
Definition asciiMap : list (Z * Z) :=
  [(36, 13); (48, 9); (53, 27); (51, 8); (49, 32)].

(** The own property [key] of an object literal. *)
Fixpoint own {V : Type} (table : list (string * V)) (key : string) : option V :=
  match table with
  | [] => None
  | (k, v) :: rest => if String.eqb k key then Some v else own rest key
  end.

(** The properties that every object literal inherits from
    [Object.prototype], and the text of each: the functions read
    [function name() { [native code] }], and [__proto__] is the prototype
    itself. *)
Definition inherited (key : string) : option string :=
  if String.eqb key "__proto__" then Some "[object Object]"
  else if existsb (String.eqb key)
            ["__defineGetter__"; "__defineSetter__"; "__lookupGetter__";
             "__lookupSetter__"; "hasOwnProperty"; "isPrototypeOf";
             "propertyIsEnumerable"; "toLocaleString"; "toString"; "valueOf"]
  then Some ("function " +:+ key +:+ "() { [native code] }")
  else if String.eqb key "constructor"
  then Some "function Object() { [native code] }"
  else None.

(** [table[key]] for a table of numbers. All the numbers of
    [CONTROL_CHARS] are truthy, and so is every inherited value. *)
Definition lookup (table : list (string * Z)) (key : string) : option KeyValue :=
  match own table key with
  | Some n => Some (Code n)
  | None => Inherited <$> inherited key
  end.

(** [KeySender.MODIFIERS[modifier]], as the text that [join] gives it. *)
Definition lookupModifier (modifier : string) : option string :=
  match own MODIFIERS modifier with
  | Some text => Some text
  | None => inherited modifier
  end.

Record ParsedKey : Type := {
  keyCode : option KeyValue;
  asciiCode : option KeyValue;
  modifiers : list string;
  useKeyCode : bool
}.

(** The loop of [parseKeyInput] that validates and converts the
    modifiers. *)
Fixpoint convertModifiers (modifierParts : list string) : outcome (list string) :=
  match modifierParts with
  | [] => Return []
  | modifier :: rest =>
      match lookupModifier modifier with
      | None => Throw ("Invalid modifier: " +:+ modifier)
      | Some text =>
          match convertModifiers rest with
          | Return texts => Return (text :: texts)
          | other => other
          end
      end
  end.

Definition parseKeyInput (input : string) : outcome ParsedKey :=
  let parts := JS.split "+" (JS.toLowerCase input) in
  let key := List.last parts EmptyString in
  let modifierParts := removelast parts in
  match convertModifiers modifierParts with
  | Return modifiers =>
      let controlChar := lookup CONTROL_CHARS key in
      if bool_decide ("ctrl" ∈ modifierParts) && (List.length modifierParts =? 1)%nat
         && bool_decide (is_Some controlChar)
      then Return {| keyCode := None; asciiCode := controlChar;
                     modifiers := []; useKeyCode := false |}
      else
        match lookup KEY_CODES key with
        | Some keyCode =>
            Return {| keyCode := Some keyCode; asciiCode := None;
                      modifiers := modifiers; useKeyCode := true |}
        | None =>
            if bool_decide (is_Some controlChar) && (List.length modifiers =? 0)%nat
            then Return {| keyCode := None; asciiCode := controlChar;
                           modifiers := []; useKeyCode := false |}
            else Throw ("Unknown key: " +:+ key)
        end
  | Throw e => Throw e
  | OutOfFuel => OutOfFuel
  end.

(** [escapeForAppleScript] of KeySender.ts: the five replacements, in
    their order. *)
Definition escapeForAppleScript (text : string) : string :=
  JS.replaceAll JS.LFchar (String JS.backslash "n")
    (JS.replaceAll JS.CR (String JS.backslash "r")
       (JS.replaceAll JS.TAB (String JS.backslash "t")
          (JS.replaceAll JS.dquote (String JS.backslash (String JS.dquote ""))
             (JS.replaceAll JS.backslash
                (String JS.backslash (String JS.backslash "")) text)))).

(** The two scripts of the class, both for the current session of
    [window id ${windowId}]: [type text "${escapedText}"] and
    [write text (ASCII character ${asciiCode})]. *)
Inductive Script : Type :=
| TypeText (windowId escapedText : string)
| WriteAsciiCharacter (windowId : string) (asciiCode : KeyValue).

(** The messages of the [catch] blocks of [typeText] and
    [sendAsciiCharacter]. *)
Definition classify (windowId scriptError fallback errorMessage : string) : string :=
  if JS.includes "Invalid key form" errorMessage
     || JS.includes "doesn't understand" errorMessage
  then "Invalid window ID " +:+ windowId
       +:+ ": window may have been closed or doesn't exist"
  else if JS.includes "iTerm2 got an error" errorMessage
  then scriptError +:+ errorMessage
  else fallback +:+ errorMessage.

Section Sender.

(** [this.executeCommand(command, windowId)], which a subclass may
    override. *)
Variable executeCommand : Script -> string -> M unit.

Definition sendAsciiCharacter (windowId : string) (asciiCode : KeyValue) : M unit :=
  try_catch
    (executeCommand (WriteAsciiCharacter windowId asciiCode) windowId)
    (fun errorMessage =>
       throw (classify windowId
                ("iTerm2 AppleScript error while sending ASCII character "
                   +:+ show asciiCode +:+ ": ")
                "Failed to send ASCII character: " errorMessage)).

(** [asciiMap[keyCode]]: the property named by the text of [keyCode]. *)
Definition asciiOf (keyCode : KeyValue) : option Z :=
  match keyCode with
  | Code n => snd <$> List.find (fun entry => fst entry =? n) asciiMap
  | Inherited _ => None
  end.

Definition sendKeyCode (windowId : string) (keyCode : KeyValue)
    (modifiers : list string) : M unit :=
  let unsupported :=
    throw ("Key code " +:+ show keyCode +:+ " with modifiers "
             +:+ JS.join ", " modifiers
             +:+ " is not supported by iTerm2's AppleScript interface") in
  match modifiers with
  | [] =>
      match asciiOf keyCode with
      | Some asciiCode => sendAsciiCharacter windowId (Code asciiCode)
      | None => unsupported
      end
  | _ :: _ => unsupported
  end.

Definition sendKey (windowId keyInput : string) : M unit :=
  let* parsed := settle (parseKeyInput keyInput) in
  match useKeyCode parsed, keyCode parsed, asciiCode parsed with
  | true, Some keyCode, _ => sendKeyCode windowId keyCode (modifiers parsed)
  | _, _, Some asciiCode => sendAsciiCharacter windowId asciiCode
  | _, _, None => throw ("Invalid key input: " +:+ keyInput)
  end.

Definition typeText (windowId text : string) : M unit :=
  try_catch
    (executeCommand (TypeText windowId (escapeForAppleScript text)) windowId)
    (fun errorMessage =>
       throw (classify windowId "iTerm2 AppleScript error while typing text: "
                "Failed to type text: " errorMessage)).

Definition includeFile (windowId filename : string) : M unit :=
  typeText windowId ("@" +:+ filename) ;; sendKey windowId "enter".

Definition includeDirectory (windowId dirname : string) : M unit :=
  typeText windowId ("@" +:+ dirname +:+ "/") ;; sendKey windowId "enter".

Definition addToMemory (windowId content : string) : M unit :=
  typeText windowId ("#" +:+ content) ;; sendKey windowId "enter".

End Sender.
End KeySender.

(** ** index.ts: the arguments of [write_to_terminal] *)

Module Server.

(** What [Number(value)] can be. *)
Inductive number : Type :=
| NaN
| Infinity
| NegativeInfinity
| Finite (q : Q).

(** [Math.min(Math.max(Number(timeout) || 30, 1), 120)] *)
Definition timeout (requested : number) : Q :=
  match requested with
  | NaN => 30
  | Infinity => 120
  | NegativeInfinity => 1
  | Finite q => if Qeq_bool q 0 then 30 else Qmin (Qmax q 1) 120
  end.

End Server.

(** * Vocabulary of the properties *)

(** A computation keeps a relation between the machine before and the
    machine after it. *)
Definition keeps (R : Machine -> Machine -> Prop) {A : Type} (m : M A) : Prop :=
  forall st, R st (snd (m st)).

(** All the events between two machines satisfy [P]. *)
Definition emits (P : Event -> Prop) (st st' : Machine) : Prop :=
  exists evs, trace st' = (trace st ++ evs)%list /\ Forall P evs.

(** The events of the polling loop of [isWaitingForUserInput] and of its
    [finally]: inspections, sleeps of 350 ms, and the closing of the
    descriptor. *)
Definition pollingEvent (ev : Event) : Prop :=
  match ev with
  | CloseSync _ | GetActiveProcess _ => True
  | Sleep ms => ms = 350
  | OpenSync _ | Exec _ => False
  end.

Definition anyEvent (ev : Event) : Prop := True.

Definition notCloseWindow (ev : Event) : Prop :=
  match ev with
  | Exec (CloseWindow _) => False
  | _ => True
  end.

(** No window was closed between two machines, and the window map is the
    same. *)
Definition windowKept (st st' : Machine) : Prop :=
  emits notCloseWindow st st' /\ sessionWindowMap st' = sessionWindowMap st.

(** An outcome other than [OutOfFuel]. *)
Definition settled {A : Type} (r : outcome A) : Prop := r <> OutOfFuel.

(** [m'] settles wherever [m] does, and in the same way. *)
Definition extends {A : Type} (m m' : M A) : Prop :=
  forall st r st', m st = (r, st') -> settled r -> m' st = (r, st').

(** The clock only moves forward. *)
Definition later (st st' : Machine) : Prop := clock st <= clock st'.

(** ** Sequences of alias operations *)

(** The three operations that write the alias side-table. *)
Inductive AliasOperation : Type :=
| SetTabAlias (windowId : string) (tabIndex : JS.jsnum) (alias : string)
| RemoveTabAlias (windowId : string) (tabIndex : JS.jsnum)
| ClearWindowAliases (windowId : string).

Definition operationWindow (op : AliasOperation) : string :=
  match op with
  | SetTabAlias w _ _ => w
  | RemoveTabAlias w _ => w
  | ClearWindowAliases w => w
  end.

Definition runAliasOperation (op : AliasOperation) : M unit :=
  match op with
  | SetTabAlias w i a => TabManager.setTabAlias w i a
  | RemoveTabAlias w i => TabManager.removeTabAlias w i
  | ClearWindowAliases w => TabManager.clearWindowAliases w
  end.

Fixpoint runAliasOperations (ops : list AliasOperation) : M unit :=
  match ops with
  | [] => ret tt
  | op :: rest => runAliasOperation op ;; runAliasOperations rest
  end.

(** Tab [i] of window [w] holds alias [a]. *)
Definition holdsAlias (st : Machine) (w : string) (i : JS.jsnum) (a : string) : Prop :=
  fst (TabManager.getTabAlias w i st) = Return (Some a).

(** In the alias table of window [w] every tab index occurs once. *)
Definition indexedOnce (st : Machine) (w : string) : Prop :=
  forall l, tabAliases st !! w = Some l -> NoDup l.*1.

(** ** Machines and worlds of the examples *)

(** The machine of a process that has just started. *)
Definition freshMachine : Machine :=
  {| clock := 0; trace := []; execs := 0; inspections := 0;
     next_fd := 3; open_fds := [];
     sessionWindowMap := ∅; sessionPathMap := ∅; sessionTabMap := ∅;
     tabAliases := ∅ |}.

(** A world for the examples: the first channel call returns [before], the
    later reads of the buffer return [after], the session is not
    processing, every channel call takes 10 ms and the inspector answers
    [inspection] after [latency] ms. *)
Definition scriptedWorld (before after : string) (inspection : Inspection)
    (latency : nat) : Env :=
  {| exec_reply := fun n c =>
       match c with
       | GetContents _ _ => if (n =? 0)%nat then Stdout before else Stdout after
       | IsProcessing _ _ => Stdout "false"
       | GetTty _ _ => Stdout "/dev/ttys001"
       | _ => Stdout ""
       end;
     exec_latency := fun _ => 10%nat;
     inspect_reply := fun _ _ => inspection;
     inspect_latency := fun _ => latency;
     open_error := fun _ => None;
     number_to_string := fun _ => "";
     path_resolve := fun path => path |}.

Definition lines (l : list string) : string := JS.join JS.LF l.

(** The buffer shrinks from three lines to one, as after [clear]. *)
Definition shrinkingWorld : Env :=
  scriptedWorld (lines ["a"; "b"; "c"]) "a" NoProcess 10.

Definition clearRun : outcome CommandExecutor.Result * Machine :=
  CommandExecutor.executeCommand shrinkingWorld 1 "w" "clear" 30 0 None freshMachine.

(** The buffer grows from two lines to five. *)
Definition listingWorld : Env :=
  scriptedWorld (lines ["Last login"; "$"]) (lines ["Last login"; "$ ls"; "a"; "b"; "$"])
    NoProcess 10.

Definition listingRun (returnOutputLines : Z) : outcome CommandExecutor.Result * Machine :=
  CommandExecutor.executeCommand listingWorld 1 "w" "ls" 30 returnOutputLines None
    freshMachine.

(** A foreground process that uses half a percent of the CPU. *)
Definition quietProcessWorld : Env := scriptedWorld "" "" (Process (1 # 2)) 10.

Definition idleCheck : outcome bool * Machine :=
  CommandExecutor.isWaitingForUserInput quietProcessWorld 3 "/dev/ttys001" freshMachine.

(** Two tabs of one window are given the same alias. *)
Definition sharedAlias : Machine :=
  snd (runAliasOperations
         [SetTabAlias "w" (JS.Num 0) "x"; SetTabAlias "w" (JS.Num 1) "x"] freshMachine).

(** A world whose inspector always fails. *)
Definition inspectorDown : Env :=
  scriptedWorld (lines ["Last login"; "$"]) (lines ["Last login"; "$ ls"; "a"; "b"; "$"])
    (InspectorError "spawn ps ENOENT") 10.

Definition afterSubmit : Machine :=
  snd (CommandExecutor.submit inspectorDown "w" "ls" None freshMachine).

(** A world whose inspector always fails, after 800 ms; the timeout of
    the example, one second, is printed as 1. *)
Definition inspectorLate : Env :=
  {| exec_reply := exec_reply inspectorDown;
     exec_latency := exec_latency inspectorDown;
     inspect_reply := inspect_reply inspectorDown;
     inspect_latency := fun _ => 800%nat;
     open_error := open_error inspectorDown;
     number_to_string := fun _ => "1";
     path_resolve := path_resolve inspectorDown |}.

Definition lateSubmit : Machine :=
  snd (CommandExecutor.submit inspectorLate "w" "ls" None freshMachine).

Definition lateDrain : Machine :=
  snd (CommandExecutor.drainProcessing inspectorLate 1 "w" None (1 * 1000) lateSubmit).

Definition afterDrain : Machine :=
  snd (CommandExecutor.drainProcessing inspectorDown 1 "w" None (30 * 1000) afterSubmit).

(** The channel of the example of the specification: three tabs, the first
    of them named "x". *)
Definition threeTabs : Env :=
  {| exec_reply := fun _ c =>
       match c with
       | ListTabs _ =>
           Stdout "0|x|s0|/dev/ttys000, 1|y|s1|/dev/ttys001, 2|z|s2|/dev/ttys002"
       | CreateWindow => Stdout "12345"
       | _ => Stdout ""
       end;
     exec_latency := fun _ => 10%nat;
     inspect_reply := fun _ _ => NoProcess;
     inspect_latency := fun _ => 10%nat;
     open_error := fun _ => None;
     number_to_string := fun _ => "";
     path_resolve := fun path => path |}.

(** Alias "x" on tab 2 of window "w". *)
Definition aliasedMachine : Machine :=
  snd (TabManager.setTabAlias "w" (JS.Num 2) "x" freshMachine).

(** A channel on which closing a window fails. *)
Definition closedByHand : Env :=
  {| exec_reply := fun _ c =>
       match c with
       | CreateWindow => Stdout "12345"
       | CloseWindow _ => Fails "iTerm2 got an error: Invalid key form"
       | _ => Stdout ""
       end;
     exec_latency := fun _ => 10%nat;
     inspect_reply := fun _ _ => NoProcess;
     inspect_latency := fun _ => 10%nat;
     open_error := fun _ => None;
     number_to_string := fun _ => "";
     path_resolve := fun path => path |}.

(** Client "c1" has created a session for the path "/p". *)
Definition oneSession (env : Env) : Machine :=
  snd (SessionManager.createSession env "c1" (Some "/p") freshMachine).


(** ** Strings as lists of characters *)

Definition chars (s : string) : list ascii := list_ascii_of_string s.

(** A string function that works character by character. *)
Definition distributes (f : string -> string) : Prop :=
  f EmptyString = EmptyString /\ forall x y, f (x +:+ y) = f x +:+ f y.

(** A scan of the body of an AppleScript string literal: a backslash takes
    the character after it, and a double quote that no backslash has taken
    would end the literal. *)
Fixpoint staysQuoted (s : string) : bool :=
  match s with
  | EmptyString => true
  | String c s' =>
      if Ascii.eqb c JS.backslash
      then match s' with
           | String _ s'' => staysQuoted s''
           | EmptyString => false
           end
      else if Ascii.eqb c JS.dquote then false
      else staysQuoted s'
  end.

(** A printable character that no replacement of [escapeForAppleScript]
    touches. *)
Definition plain (c : ascii) : bool :=
  JS.printable c && negb (Ascii.eqb c JS.backslash) && negb (Ascii.eqb c JS.dquote)
  && negb (Ascii.eqb c JS.squote).

(** ** Further worlds and machines of the examples *)

(** A buffer of four lines. *)
Definition fourLines : Env := scriptedWorld (lines ["a"; "b"; "c"; "$"]) "" NoProcess 10.

(** ** The listing of the tabs of a window *)

(** One tab as the channel reports it: the four fields of a record. *)
Record ListedTab : Type := {
  listedIndex : string;
  listedName : string;
  listedSession : string;
  listedTty : string
}.

(** [index|name|sessionId|tty] *)
Definition renderTab (tab : ListedTab) : string :=
  JS.join "|" [listedIndex tab; listedName tab; listedSession tab; listedTty tab].

(** The records separated by a comma and a space. *)
Definition renderTabs (tabs : list ListedTab) : string :=
  JS.join ", " (map renderTab tabs).

(** A field without bar and without comma. *)
Definition cleanField (field : string) : Prop :=
  ("|"%char ∉ chars field) /\ (","%char ∉ chars field).

Definition cleanTab (tab : ListedTab) : Prop :=
  cleanField (listedIndex tab) /\ cleanField (listedName tab) /\
  cleanField (listedSession tab) /\ cleanField (listedTty tab).

(** What [listTabs] makes of a record in window [w]. *)
Definition tabInfoOf (st : Machine) (w : string) (tab : ListedTab) : TabManager.TabInfo :=
  let tabIndex := JS.parseInt (listedIndex tab) in
  {| TabManager.index := tabIndex;
     TabManager.name :=
       match listedName tab with
       | String c rest => String c rest
       | EmptyString => "Tab " +:+ JS.show (JS.succ tabIndex)
       end;
     TabManager.sessionId := Some (listedSession tab);
     TabManager.tty := Some (listedTty tab);
     TabManager.alias :=
       match tabAliases st !! w with
       | None => None
       | Some windowAliases => TabManager.map_get tabIndex windowAliases
       end |}.

(** The three tabs that the channel [threeTabs] lists. *)
Definition threeListedTabs : list ListedTab :=
  [ {| listedIndex := "0"; listedName := "x"; listedSession := "s0";
       listedTty := "/dev/ttys000" |};
    {| listedIndex := "1"; listedName := "y"; listedSession := "s1";
       listedTty := "/dev/ttys001" |};
    {| listedIndex := "2"; listedName := "z"; listedSession := "s2";
       listedTty := "/dev/ttys002" |} ].

(** ** The registries *)

(** A computation leaves [f] of the machine as it was. *)
Definition unchanged {A : Type} (f : Machine -> A) (st st' : Machine) : Prop :=
  f st' = f st.

(** What is read from the four registries only. *)
Definition storeOnly {A : Type} (f : Machine -> A) : Prop :=
  forall st st',
    sessionWindowMap st' = sessionWindowMap st ->
    sessionPathMap st' = sessionPathMap st ->
    sessionTabMap st' = sessionTabMap st ->
    tabAliases st' = tabAliases st ->
    f st' = f st.

(** The three registries of the sessions. *)
Definition sessions (st : Machine)
    : gmap string string * gmap string string * gmap string SessionTabInfo.t :=
  (sessionWindowMap st, sessionPathMap st, sessionTabMap st).

(** Client [c] is in none of the three registries. *)
Definition forgotten (st : Machine) (c : string) : Prop :=
  sessionWindowMap st !! c = None /\ sessionPathMap st !! c = None /\
  sessionTabMap st !! c = None.

(** What the three registries hold for client [c]. *)
Definition sessionOf (st : Machine) (c : string)
    : option string * option string * option SessionTabInfo.t :=
  (sessionWindowMap st !! c, sessionPathMap st !! c, sessionTabMap st !! c).

(** The channel, asked now whether window [w] exists, answers [true]. *)
Definition reportedToExist (env : Env) (st : Machine) (w : string) : bool :=
  match exec_reply env (execs st) (WindowExists w) with
  | Stdout s => String.eqb (JS.trim s) "true"
  | Fails _ => false
  end.

(** A channel on which the window "12345" is created and then exists,
    with three tabs. *)
Definition openWindow : Env :=
  {| exec_reply := fun _ c =>
       match c with
       | ListTabs _ =>
           Stdout "0|x|s0|/dev/ttys000, 1|y|s1|/dev/ttys001, 2|z|s2|/dev/ttys002"
       | CreateWindow => Stdout "12345"
       | WindowExists _ => Stdout "true"
       | _ => Stdout ""
       end;
     exec_latency := fun _ => 10%nat;
     inspect_reply := fun _ _ => NoProcess;
     inspect_latency := fun _ => 10%nat;
     open_error := fun _ => None;
     number_to_string := fun _ => "";
     path_resolve := fun path => path |}.

(** A stand-in for the digest of the examples. *)
Definition digestOfExamples (s : string) : string := "0a1b2c3d".

(** The session for the path "/p" has been opened. *)
Definition pathSession : Machine :=
  snd (SessionManager.focusOrCreateSessionForPath openWindow digestOfExamples [] "/p"
         freshMachine).

(** A computation that never runs out of fuel. *)
Definition settles {A : Type} (m : M A) : Prop := forall st, settled (fst (m st)).

(** A computation that does the same whatever the alias tables are, and
    leaves them as they were. *)
Definition aliasBlind {A : Type} (m : M A) : Prop :=
  forall aliases st,
    m (with_tabAliases aliases st)
    = (fst (m st), with_tabAliases aliases (snd (m st))).

(** Client "c1" has a window on the channel [openWindow] and is tracked on
    its second tab. *)
Definition trackedOnSecondTab : Machine :=
  snd (SessionManager.focusOrCreateTab openWindow "c1"
         (Some (TabManager.ByNumber (JS.Num 1))) (oneSession openWindow)).

(** The operations of the session manager that a request can start. *)
Inductive SessionOperation : Type :=
| CreateSession (clientId : string) (workingDir : option string)
| EndSession (clientId : string)
| RefreshSession (clientId : string)
| FocusOrCreateSessionForPath (clients : list string) (path : string)
| EndSessionByPath (clients : list string) (path : string)
| FocusOrCreateTab (clientId : string) (tabIdentifier : option TabManager.TabIdentifier)
| ListSessionTabs (clientId : string)
| CloseSessionTab (clientId : string) (tabIdentifier : TabManager.TabIdentifier)
| GetSessionTabTty (clientId : string)
| SetSessionTabAlias (clientId : string) (tabIdentifier : TabManager.TabIdentifier)
    (alias : string)
| CloseTabs (clientId : string) (tabs : SessionManager.TabsArgument)
| CloseTabsByPath (clients : list string) (path : string)
    (tabs : SessionManager.TabsArgument).

(** The machine after an operation, whether it returned or threw. *)
Definition afterOperation (env : Env) (md5_hex8 : string -> string)
    (op : SessionOperation) (st : Machine) : Machine :=
  match op with
  | CreateSession c dir => snd (SessionManager.createSession env c dir st)
  | EndSession c => snd (SessionManager.endSession env c st)
  | RefreshSession c => snd (SessionManager.refreshSession env c st)
  | FocusOrCreateSessionForPath clients path =>
      snd (SessionManager.focusOrCreateSessionForPath env md5_hex8 clients path st)
  | EndSessionByPath clients path =>
      snd (SessionManager.endSessionByPath env clients path st)
  | FocusOrCreateTab c tab => snd (SessionManager.focusOrCreateTab env c tab st)
  | ListSessionTabs c => snd (SessionManager.listSessionTabs env c st)
  | CloseSessionTab c tab => snd (SessionManager.closeSessionTab env c tab st)
  | GetSessionTabTty c => snd (SessionManager.getSessionTabTty env c st)
  | SetSessionTabAlias c tab alias => snd (SessionManager.setTabAlias env c tab alias st)
  | CloseTabs c tabs => snd (SessionManager.closeTabs env c tabs st)
  | CloseTabsByPath clients path tabs =>
      snd (SessionManager.closeTabsByPath env clients path tabs st)
  end.

Definition afterOperations (env : Env) (md5_hex8 : string -> string)
    (ops : list SessionOperation) (st : Machine) : Machine :=
  fold_left (fun st op => afterOperation env md5_hex8 op st) ops st.

Definition writesAlias (op : SessionOperation) : bool :=
  match op with
  | SetSessionTabAlias _ _ _ => true
  | _ => false
  end.

(** Every window in the registry has a name, and every client with a
    working path has a window. *)
Definition registered (st : Machine) : Prop :=
  (forall c w, sessionWindowMap st !! c = Some w -> w <> "") /\
  (forall c, is_Some (sessionPathMap st !! c) -> is_Some (sessionWindowMap st !! c)).

(** A registry that is well formed stays so. *)
Definition staysRegistered (st st' : Machine) : Prop := registered st -> registered st'.

(** Tab 1 of the window of client "c1" has the alias "build". *)
Definition aliasedSession : Machine :=
  snd (SessionManager.setTabAlias openWindow "c1" (TabManager.ByNumber (JS.Num 1)) "build"
         (oneSession openWindow)).

(** A computation that returns, whatever the machine. *)
Definition returns {A : Type} (m : M A) : Prop :=
  forall st, exists a, fst (m st) = Return a.

(** ** Keys *)

(** The ASCII characters that [sendKey] can write: the control characters
    1 to 27, 29 and the space. *)
Definition writable (asciiCode : KeySender.KeyValue) : Prop :=
  match asciiCode with
  | KeySender.Code n => 1 <= n <= 27 \/ n = 29 \/ n = 32
  | KeySender.Inherited _ => True
  end.

(** The names of the arrow keys, of the function keys, of the digits and
    of the letters in [KEY_CODES]. *)
Definition arrowKeys : list string := ["up"; "down"; "left"; "right"].

Definition functionKeys : list string :=
  ["f1"; "f2"; "f3"; "f4"; "f5"; "f6"; "f7"; "f8"; "f9"; "f10";
   "f11"; "f12"; "f13"; "f14"; "f15"; "f16"; "f17"; "f18"; "f19"; "f20"].

Definition digitKeys : list string :=
  ["0"; "1"; "2"; "3"; "4"; "5"; "6"; "7"; "8"; "9"].

Definition letterKeys : list string :=
  ["a"; "b"; "c"; "d"; "e"; "f"; "g"; "h"; "i"; "j"; "k"; "l"; "m";
   "n"; "o"; "p"; "q"; "r"; "s"; "t"; "u"; "v"; "w"; "x"; "y"; "z"].

(** The parts of a key input: its modifiers and its key. *)
Definition modifierPartsOf (keyInput : string) : list string :=
  removelast (JS.split "+" (JS.toLowerCase keyInput)).

Definition keyOf (keyInput : string) : string :=
  List.last (JS.split "+" (JS.toLowerCase keyInput)) EmptyString.

(** A letter of the alphabet, in either case, and its position. *)
Definition isLetter (c : ascii) : bool :=
  let n := nat_of_ascii c in
  ((65 <=? n)%nat && (n <=? 90)%nat) || ((97 <=? n)%nat && (n <=? 122)%nat).

Definition alphabetPosition (c : ascii) : Z :=
  Z.of_nat (nat_of_ascii (JS.upper_char c)) - 64.

(** ** Polling *)

(** The session still reports that it is processing when it is asked as
    the [n]-th request. *)
Definition stillProcessing (env : Env) (w : string) (tab : option JS.jsnum) (n : nat)
    : Prop :=
  exists s,
    exec_reply env n (IsProcessing w (TtyOutputReader.sessionTarget tab)) = Stdout s /\
    JS.trim s = "true".

Definition doneProcessing (env : Env) (w : string) (tab : option JS.jsnum) (n : nat)
    : Prop :=
  exists s,
    exec_reply env n (IsProcessing w (TtyOutputReader.sessionTarget tab)) = Stdout s /\
    JS.trim s <> "true".

(** The time that the channel takes for [k] requests from the [n]-th on. *)
Fixpoint channelTime (env : Env) (n k : nat) : Z :=
  match k with
  | O => 0
  | S k' => Z.of_nat (exec_latency env n) + channelTime env (S n) k'
  end.

(** [k] rounds of asking and sleeping. *)
Fixpoint pollingRounds (w : string) (tab : option JS.jsnum) (k : nat) : list Event :=
  match k with
  | O => []
  | S k' =>
      Exec (IsProcessing w (TtyOutputReader.sessionTarget tab)) :: Sleep 100
        :: pollingRounds w tab k'
  end.

(** A session that is processing until the sixth request: the buffer is
    read, the command is written, the session reports three times that
    it is processing, and then that it is not. *)
Definition busyWorld : Env :=
  {| exec_reply := fun n c =>
       match c with
       | IsProcessing _ _ => if (n <? 5)%nat then Stdout "true" else Stdout "false"
       | GetContents _ _ => Stdout "$"
       | GetTty _ _ => Stdout "/dev/ttys001"
       | _ => Stdout ""
       end;
     exec_latency := fun _ => 10%nat;
     inspect_reply := fun _ _ => NoProcess;
     inspect_latency := fun _ => 10%nat;
     open_error := fun _ => None;
     number_to_string := fun _ => "";
     path_resolve := fun path => path |}.

(** The command has been written. *)
Definition busySubmitted : Machine :=
  snd (CommandExecutor.submit busyWorld "w" "make" None freshMachine).

(** The events by which a command is only watched: the channel is asked
    whether the session is processing, for its terminal device and for
    its contents; the rest are sleeps, inspections, and the opening and
    closing of the terminal device. *)
Definition watching (ev : Event) : Prop :=
  match ev with
  | Exec (IsProcessing _ _) | Exec (GetTty _ _) | Exec (GetContents _ _) => True
  | Exec _ => False
  | Sleep _ | OpenSync _ | CloseSync _ | GetActiveProcess _ => True
  end.

(** The events of the polling loop alone. *)
Definition inspecting (ev : Event) : Prop :=
  match ev with
  | GetActiveProcess _ => True
  | Sleep ms => ms = 350
  | _ => False
  end.

(** The descriptors of the machine: those that are open, and the next one
    that [openSync] hands out. *)
Definition descriptors (st : Machine) : list nat * nat := (open_fds st, next_fd st).

(** Every open descriptor was handed out before: the next one is new. *)
Definition descriptorsInUse (st : Machine) : Prop :=
  Forall (fun fd => (fd < next_fd st)%nat) (open_fds st).

(** A computation that, when it settles from a machine whose descriptors
    are in use, has closed every descriptor that it opened. *)
Definition tidy {A : Type} (m : M A) : Prop :=
  forall st,
    descriptorsInUse st -> settled (fst (m st)) ->
    open_fds (snd (m st)) = open_fds st /\ descriptorsInUse (snd (m st)).

(** * Properties *)

(** ** Runs of the monad *)

Section Runs.

Context {A B : Type}.

Lemma bind_Return (m : M A) (k : A -> M B) st b st' :
  bind m k st = (Return b, st') ->
  exists a st1, m st = (Return a, st1) /\ k a st1 = (Return b, st').
Proof.
  unfold bind. destruct (m st) as [[a|e|] st1]; intros H; try discriminate.
  exists a, st1. split; [reflexivity | exact H].
Qed.

Lemma bind_run (m : M A) (k : A -> M B) st a st1 :
  m st = (Return a, st1) -> bind m k st = k a st1.
Proof. unfold bind. intros ->. reflexivity. Qed.

Lemma bind_throws (m : M A) (k : A -> M B) st e st1 :
  m st = (Throw e, st1) -> bind m k st = (Throw e, st1).
Proof. unfold bind. intros ->. reflexivity. Qed.

Lemma try_catch_Return (m : M A) (h : string -> M A) st a st' :
  try_catch m h st = (Return a, st') ->
  m st = (Return a, st') \/
  exists e st1, m st = (Throw e, st1) /\ h e st1 = (Return a, st').
Proof.
  unfold try_catch. destruct (m st) as [[x|e|] st1]; intros H.
  - left. exact H.
  - right. exists e, st1. split; [reflexivity | exact H].
  - discriminate.
Qed.

End Runs.

(** A relation between the machine before and after a computation that is
    reflexive and transitive is kept by a computation when each of its
    steps keeps it. *)
Section Keeps.

Variable R : Machine -> Machine -> Prop.
Hypothesis R_refl : forall st, R st st.
Hypothesis R_trans : forall a b c, R a b -> R b c -> R a c.

Lemma keeps_ret {A : Type} (a : A) : keeps R (ret a).
Proof. intros st. apply R_refl. Qed.

Lemma keeps_throw {A : Type} (e : string) : keeps R (@throw A e).
Proof. intros st. apply R_refl. Qed.

Lemma keeps_gets {A : Type} (f : Machine -> A) : keeps R (gets f).
Proof. intros st. apply R_refl. Qed.

Lemma keeps_settle {A : Type} (o : outcome A) : keeps R (settle o).
Proof. intros st. apply R_refl. Qed.

Lemma keeps_bind {A B : Type} (m : M A) (k : A -> M B) :
  keeps R m -> (forall a, keeps R (k a)) -> keeps R (bind m k).
Proof.
  intros Hm Hk st. unfold bind. specialize (Hm st).
  destruct (m st) as [[a|e|] st1]; simpl in *; try exact Hm.
  eapply R_trans; [exact Hm | apply Hk].
Qed.

Lemma keeps_try_catch {A : Type} (m : M A) (h : string -> M A) :
  keeps R m -> (forall e, keeps R (h e)) -> keeps R (try_catch m h).
Proof.
  intros Hm Hh st. unfold try_catch. specialize (Hm st).
  destruct (m st) as [[a|e|] st1]; simpl in *; try exact Hm.
  eapply R_trans; [exact Hm | apply Hh].
Qed.

Lemma keeps_try_finally {A : Type} (m : M A) (f : M (option A)) :
  keeps R m -> keeps R f -> keeps R (try_finally m f).
Proof.
  intros Hm Hf st. unfold try_finally. specialize (Hm st).
  destruct (m st) as [[a|e|] st1]; simpl in *; try exact Hm.
  all: specialize (Hf st1); destruct (f st1) as [r st2]; simpl in *.
  all: assert (R st st2) by (eapply R_trans; [exact Hm | exact Hf]).
  all: destruct r as [[v|]|e'|]; simpl; assumption.
Qed.

End Keeps.

(** ** What a computation adds to the trace *)

Lemma emits_refl (P : Event -> Prop) (st : Machine) : emits P st st.
Proof. exists []. split; [symmetry; apply app_nil_r | constructor]. Qed.

Lemma emits_trans (P : Event -> Prop) (a b c : Machine) :
  emits P a b -> emits P b c -> emits P a c.
Proof.
  intros (e1 & H1 & F1) (e2 & H2 & F2). exists (e1 ++ e2)%list. split.
  - rewrite H2, H1. symmetry. apply app_assoc.
  - apply Forall_app. split; assumption.
Qed.

Lemma emits_one (P : Event -> Prop) (ev : Event) (st st' : Machine) :
  P ev -> trace st' = (trace st ++ [ev])%list -> emits P st st'.
Proof. intros HP Ht. exists [ev]. split; [exact Ht | repeat constructor; exact HP]. Qed.

Section Emits.

Variable env : Env.
Variable P : Event -> Prop.

Lemma keeps_exec (c : Command) : P (Exec c) -> keeps (emits P) (exec env c).
Proof.
  intros HP st. unfold exec.
  destruct (exec_reply env (execs st) c); simpl; apply (emits_one P (Exec c)); auto.
Qed.

Lemma keeps_sleep (ms : Z) : P (Sleep ms) -> keeps (emits P) (sleep ms).
Proof. intros HP st. apply (emits_one P (Sleep ms)); auto. Qed.

Lemma keeps_now : keeps (emits P) now.
Proof. intros st. apply emits_refl. Qed.

Lemma keeps_getActiveProcess (ttyPath : string) :
  P (GetActiveProcess ttyPath) -> keeps (emits P) (getActiveProcess env ttyPath).
Proof.
  intros HP st. unfold getActiveProcess.
  destruct (inspect_reply env (inspections st) ttyPath); simpl;
    apply (emits_one P (GetActiveProcess ttyPath)); auto.
Qed.

Lemma keeps_openSync (path : string) :
  P (OpenSync path) -> keeps (emits P) (openSync env path).
Proof.
  intros HP st. unfold openSync.
  destruct (open_error env path); simpl; apply (emits_one P (OpenSync path)); auto.
Qed.

Lemma keeps_closeSync (fd : nat) : P (CloseSync fd) -> keeps (emits P) (closeSync fd).
Proof.
  intros HP st. unfold closeSync.
  case_bool_decide; simpl; apply (emits_one P (CloseSync fd)); auto.
Qed.

Lemma keeps_modify (f : Machine -> Machine) :
  (forall st, trace (f st) = trace st) -> keeps (emits P) (modify f).
Proof.
  intros Hf st. exists []. simpl. rewrite Hf. split; [symmetry; apply app_nil_r | constructor].
Qed.

Lemma keeps_withTimeout {A : Type} (promise : M A) (timeoutMs : Q) (errorMessage : string) :
  keeps (emits P) promise ->
  keeps (emits P) (CommandExecutor.withTimeout promise timeoutMs errorMessage).
Proof.
  intros Hp st. unfold CommandExecutor.withTimeout. specialize (Hp st).
  destruct (promise st) as [[a|e|] st1]; simpl in *; try exact Hp;
    destruct (Qltb _ _); exact Hp.
Qed.

End Emits.

Ltac keeps_emits :=
  repeat match goal with
  | |- keeps (emits _) (ret _) => apply keeps_ret, emits_refl
  | |- keeps (emits _) (throw _) => apply keeps_throw, emits_refl
  | |- keeps (emits _) (settle _) => apply keeps_settle, emits_refl
  | |- keeps (emits _) (gets _) => apply keeps_gets, emits_refl
  | |- keeps (emits _) (bind _ _) => apply keeps_bind; [apply emits_trans | | intros ?]
  | |- keeps (emits _) (try_catch _ _) =>
      apply keeps_try_catch; [apply emits_trans | | intros ?]
  | |- keeps (emits _) (try_finally _ _) =>
      apply keeps_try_finally; [apply emits_trans | | ]
  | |- keeps (emits _) (exec _ _) => apply keeps_exec
  | |- keeps (emits _) (sleep _) => apply keeps_sleep
  | |- keeps (emits _) now => apply keeps_now
  | |- keeps (emits _) (getActiveProcess _ _) => apply keeps_getActiveProcess
  | |- keeps (emits _) (openSync _ _) => apply keeps_openSync
  | |- keeps (emits _) (closeSync _) => apply keeps_closeSync
  | |- keeps (emits _) (modify _) => apply keeps_modify; intros ?; reflexivity
  | |- keeps (emits _) (CommandExecutor.withTimeout _ _ _) => apply keeps_withTimeout
  | |- keeps (emits _) (match ?x with _ => _ end) => destruct x
  | |- _ => first [exact I | reflexivity | assumption]
  end.

Section ExecutorTraces.

Variable env : Env.

Lemma pollActivity_events (fuel : nat) (ttyPath : string) (below : Z) :
  keeps (emits pollingEvent) (CommandExecutor.pollActivity env fuel ttyPath below).
Proof.
  revert below. induction fuel as [|fuel IH]; intros below; simpl; keeps_emits.
  apply IH.
Qed.

(** A call of [isWaitingForUserInput] opens the terminal once, and then
    only polls and closes. *)
Lemma isWaitingForUserInput_events (fuel : nat) (ttyPath : string) (st : Machine) :
  exists evs,
    trace (snd (CommandExecutor.isWaitingForUserInput env fuel ttyPath st))
      = (trace st ++ OpenSync ttyPath :: evs)%list /\
    Forall pollingEvent evs.
Proof.
  unfold CommandExecutor.isWaitingForUserInput.
  assert (Hopen : trace (snd (openSync env ttyPath st))
                  = (trace st ++ [OpenSync ttyPath])%list).
  { unfold openSync. destruct (open_error env ttyPath); reflexivity. }
  destruct (openSync env ttyPath st) as [opened st1]. cbn [snd] in Hopen.
  match goal with
  | |- context [snd (?m st1)] => assert (keeps (emits pollingEvent) m) as Hk
  end.
  { keeps_emits. apply pollActivity_events. }
  destruct (Hk st1) as (evs & Ht & HF). exists evs. split; [| exact HF].
  rewrite Ht, Hopen, <- app_assoc. reflexivity.
Qed.

Lemma emits_weaken (P Q : Event -> Prop) (st st' : Machine) :
  (forall ev, P ev -> Q ev) -> emits P st st' -> emits Q st st'.
Proof.
  intros HPQ (evs & Ht & HF). exists evs. split; [exact Ht |].
  eapply Forall_impl; [exact HF | exact HPQ].
Qed.

Lemma isProcessing_trace (windowId : string) (tabIndex : option JS.jsnum) :
  keeps (emits anyEvent) (CommandExecutor.isProcessing env windowId tabIndex).
Proof. unfold CommandExecutor.isProcessing. keeps_emits. Qed.

Lemma waitForProcessingComplete_trace (fuel : nat) (windowId : string)
    (tabIndex : option JS.jsnum) :
  keeps (emits anyEvent) (CommandExecutor.waitForProcessingComplete env fuel windowId tabIndex).
Proof.
  induction fuel as [|fuel IH]; simpl; keeps_emits.
  apply isProcessing_trace.
Qed.

Lemma waitForUserInputReady_trace (fuel polls : nat) (windowId ttyPath : string) :
  keeps (emits anyEvent)
    (CommandExecutor.waitForUserInputReady env fuel polls windowId ttyPath).
Proof.
  induction fuel as [|fuel IH]; simpl; keeps_emits.
  intros st. destruct (isWaitingForUserInput_events polls ttyPath st) as (evs & Ht & _).
  exists (OpenSync ttyPath :: evs). split; [exact Ht |].
  apply Forall_forall. intros ev _. exact I.
Qed.

Lemma drainProcessing_trace (fuel : nat) (windowId : string)
    (tabIndex : option JS.jsnum) (timeoutMs : Q) :
  keeps (emits anyEvent)
    (CommandExecutor.drainProcessing env fuel windowId tabIndex timeoutMs).
Proof.
  unfold CommandExecutor.drainProcessing. keeps_emits.
  apply waitForProcessingComplete_trace.
Qed.

Lemma confirmIdle_trace (fuel : nat) (windowId : string) (tabIndex : option JS.jsnum)
    (startTime : Z) (timeoutSeconds : Q) :
  keeps (emits anyEvent)
    (CommandExecutor.confirmIdle env fuel windowId tabIndex startTime timeoutSeconds).
Proof.
  unfold CommandExecutor.confirmIdle, CommandExecutor.retrieveTtyPath. keeps_emits.
  apply waitForUserInputReady_trace.
Qed.

End ExecutorTraces.

(** ** The result of a successful [executeCommand] *)

Section ExecutorResult.

Variable env : Env.

Lemma submit_Return (windowId command : string) (tabIndex : option JS.jsnum)
    (st st1 : Machine) (beforeLines : Z) :
  CommandExecutor.submit env windowId command tabIndex st = (Return beforeLines, st1) ->
  exists rawBefore,
    exec_reply env (execs st) (GetContents windowId (TtyOutputReader.sessionTarget tabIndex))
      = Stdout rawBefore /\
    beforeLines = JS.line_count (JS.trim rawBefore) /\
    trace st1 = (trace st ++
      [Exec (GetContents windowId (TtyOutputReader.sessionTarget tabIndex));
       Exec (WriteText windowId (TtyOutputReader.sessionTarget tabIndex) command
               (JS.includes JS.LF command))])%list.
Proof.
  unfold CommandExecutor.submit, TtyOutputReader.retrieveBuffer, bind, exec, ret.
  destruct (exec_reply env (execs st) _) as [rawBefore|e] eqn:E1; [| discriminate].
  cbn [execs advance record].
  destruct (exec_reply env (S (execs st)) _) as [out|e]; [| discriminate].
  intros [= <- <-]. exists rawBefore. split; [reflexivity |]. split; [reflexivity |].
  cbn [trace advance record]. rewrite <- app_assoc. reflexivity.
Qed.

Lemma collect_Return (capture : string -> Z -> outcome string) (windowId : string)
    (tabIndex : option JS.jsnum) (startTime beforeLines returnOutputLines : Z)
    (st st' : Machine) (r : CommandExecutor.Result) :
  CommandExecutor.collect env capture windowId tabIndex startTime beforeLines
    returnOutputLines st = (Return r, st') ->
  exists rawAfter,
    exec_reply env (execs st) (GetContents windowId (TtyOutputReader.sessionTarget tabIndex))
      = Stdout rawAfter /\
    execs st' = S (execs st) /\
    trace st' = (trace st ++
      [Sleep 200;
       Exec (GetContents windowId (TtyOutputReader.sessionTarget tabIndex))])%list /\
    CommandExecutor.newLines r = JS.line_count (JS.trim rawAfter) - beforeLines /\
    CommandExecutor.executionTime r = clock st' - startTime /\
    CommandExecutor.output r =
      if 0 <? returnOutputLines
      then match capture (JS.trim rawAfter) returnOutputLines with
           | Return tail => Some (Some tail)
           | _ => Some None
           end
      else None.
Proof.
  unfold CommandExecutor.collect, TtyOutputReader.retrieveBuffer, bind, exec, ret,
    sleep, now, try_catch, settle.
  cbn [execs advance record].
  destruct (exec_reply env (execs st) _) as [rawAfter|e] eqn:E1; [| discriminate].
  destruct (0 <? returnOutputLines).
  - destruct (capture (JS.trim rawAfter) returnOutputLines) as [tail|e|] eqn:Ec;
      [| | discriminate];
      intros [= <- <-]; exists rawAfter; rewrite Ec; cbn;
      rewrite <- app_assoc; repeat split; reflexivity.
  - intros [= <- <-]. exists rawAfter. cbn.
    rewrite <- app_assoc. repeat split; reflexivity.
Qed.

(** The anatomy of a successful call: the first channel call reads the
    buffer, the command is written, and after whatever the two phases do,
    the settle delay and the last channel call, which reads the buffer
    again. *)
Lemma executeCommandWith_Return (capture : string -> Z -> outcome string) (fuel : nat)
    (windowId command : string) (timeoutSeconds : Q) (returnOutputLines : Z)
    (tabIndex : option JS.jsnum) (st st' : Machine) (r : CommandExecutor.Result) :
  CommandExecutor.executeCommandWith env capture fuel windowId command timeoutSeconds
    returnOutputLines tabIndex st = (Return r, st') ->
  let target := TtyOutputReader.sessionTarget tabIndex in
  exists rawBefore rawAfter between,
    exec_reply env (execs st) (GetContents windowId target) = Stdout rawBefore /\
    exec_reply env (Nat.pred (execs st')) (GetContents windowId target) = Stdout rawAfter /\
    trace st' = (trace st ++
      [Exec (GetContents windowId target);
       Exec (WriteText windowId target command (JS.includes JS.LF command))] ++
      between ++ [Sleep 200; Exec (GetContents windowId target)])%list /\
    CommandExecutor.newLines r
      = JS.line_count (JS.trim rawAfter) - JS.line_count (JS.trim rawBefore) /\
    CommandExecutor.executionTime r = clock st' - clock st /\
    CommandExecutor.output r =
      if 0 <? returnOutputLines
      then match capture (JS.trim rawAfter) returnOutputLines with
           | Return tail => Some (Some tail)
           | _ => Some None
           end
      else None.
Proof.
  intros Hrun target. unfold CommandExecutor.executeCommandWith in Hrun.
  apply bind_Return in Hrun as (startTime & st0 & Hnow & Hrun).
  unfold now in Hnow. injection Hnow as <- <-.
  apply try_catch_Return in Hrun as [Hrun | (e & s & _ & Hthrow)];
    [| discriminate Hthrow].
  apply bind_Return in Hrun as (beforeLines & st1 & Hsubmit & Hrun).
  apply bind_Return in Hrun as ([] & st2 & Hdrain & Hrun).
  apply bind_Return in Hrun as ([] & st3 & Hidle & Hcollect).
  apply submit_Return in Hsubmit as (rawBefore & Hbefore & -> & Ht1).
  apply collect_Return in Hcollect as (rawAfter & Hafter & Hexecs & Ht' & Hn & Ht & Ho).
  pose proof (drainProcessing_trace env fuel windowId tabIndex
                (timeoutSeconds * 1000)%Q st1) as (ev2 & Ht2 & _).
  rewrite Hdrain in Ht2. cbn [snd] in Ht2.
  pose proof (confirmIdle_trace env fuel windowId tabIndex (clock st) timeoutSeconds st2)
    as (ev3 & Ht3 & _).
  rewrite Hidle in Ht3. cbn [snd] in Ht3.
  exists rawBefore, rawAfter, (ev2 ++ ev3)%list.
  split; [exact Hbefore |]. split; [rewrite Hexecs; exact Hafter |].
  split; [| split; [exact Hn | split; [exact Ht | exact Ho]]].
  rewrite Ht', Ht3, Ht2, Ht1. rewrite <- !app_assoc. reflexivity.
Qed.

End ExecutorResult.

(** [l.slice(-k)] is the suffix of [l] with [k] elements, or [l] itself when
    it is shorter. *)
Lemma slice_negative_suffix {A : Type} (k : Z) (l : list A) :
  0 < k ->
  exists earlier,
    l = (earlier ++ JS.slice (- k) l)%list /\
    Z.of_nat (List.length (JS.slice (- k) l)) = Z.min k (Z.of_nat (List.length l)).
Proof.
  intros Hk. unfold JS.slice.
  assert (H : (- k <? 0) = true) by (apply Z.ltb_lt; lia). rewrite H.
  set (n := Z.to_nat (Z.max (Z.of_nat (List.length l) + - k) 0)).
  exists (take n l). split.
  - symmetry. apply take_drop.
  - rewrite length_drop. unfold n. lia.
Qed.

Lemma split_go_nonempty (sep : string) (skip : nat) (s : string) :
  JS.split_go sep skip s <> [].
Proof.
  revert skip. induction s as [|c s IH]; intros skip; cbn [JS.split_go].
  - intros H. discriminate H.
  - destruct skip as [|k]; [| apply IH].
    destruct (String.prefix sep (String c s)); [intros H; discriminate H |].
    destruct (JS.split_go sep 0 s); intros H; discriminate H.
Qed.

Lemma line_count_positive (s : string) : 1 <= JS.line_count s.
Proof.
  unfold JS.line_count, JS.split.
  pose proof (split_go_nonempty JS.LF 0 s) as H.
  destruct (JS.split_go JS.LF 0 s) as [|x l]; [contradiction |].
  cbn [List.length]. lia.
Qed.

Section ExecutorClaims.

Variable env : Env.

(** C3, amended: for every successful call, [newLines] is the line count
    of the buffer read last minus the line count of the buffer read first;
    it is at least [1 - beforeLines], and it is non-negative exactly when
    the buffer after the command has at least as many lines as the buffer
    before it. *)
Theorem newLines_sign (fuel : nat) (windowId command : string) (timeoutSeconds : Q)
    (returnOutputLines : Z) (tabIndex : option JS.jsnum) (st st' : Machine)
    (r : CommandExecutor.Result) :
  CommandExecutor.executeCommand env fuel windowId command timeoutSeconds
    returnOutputLines tabIndex st = (Return r, st') ->
  exists rawBefore rawAfter,
    exec_reply env (execs st)
      (GetContents windowId (TtyOutputReader.sessionTarget tabIndex)) = Stdout rawBefore /\
    exec_reply env (Nat.pred (execs st'))
      (GetContents windowId (TtyOutputReader.sessionTarget tabIndex)) = Stdout rawAfter /\
    CommandExecutor.newLines r
      = JS.line_count (JS.trim rawAfter) - JS.line_count (JS.trim rawBefore) /\
    1 - JS.line_count (JS.trim rawBefore) <= CommandExecutor.newLines r /\
    (0 <= CommandExecutor.newLines r <->
     JS.line_count (JS.trim rawBefore) <= JS.line_count (JS.trim rawAfter)).
Proof.
  intros Hrun. apply executeCommandWith_Return in Hrun.
  destruct Hrun as (rawBefore & rawAfter & between & Hb & Ha & _ & Hn & _).
  exists rawBefore, rawAfter. split; [exact Hb |]. split; [exact Ha |].
  split; [exact Hn |]. rewrite Hn.
  pose proof (line_count_positive (JS.trim rawAfter)). lia.
Qed.

(** C4: for every successful call, [newLines] is the line count of the
    buffer read after the settle delay (the last channel call, preceded by
    the sleep of 200 ms) minus the line count of the buffer read before the
    submission (the first channel call, followed by the write); a 2-line
    buffer before and a 5-line buffer after give 3. *)
Theorem newLines_is_line_count_difference (fuel : nat) (windowId command : string)
    (timeoutSeconds : Q) (returnOutputLines : Z) (tabIndex : option JS.jsnum)
    (st st' : Machine) (r : CommandExecutor.Result) :
  CommandExecutor.executeCommand env fuel windowId command timeoutSeconds
    returnOutputLines tabIndex st = (Return r, st') ->
  let target := TtyOutputReader.sessionTarget tabIndex in
  exists rawBefore rawAfter between,
    exec_reply env (execs st) (GetContents windowId target) = Stdout rawBefore /\
    exec_reply env (Nat.pred (execs st')) (GetContents windowId target) = Stdout rawAfter /\
    trace st' = (trace st ++
      [Exec (GetContents windowId target);
       Exec (WriteText windowId target command (JS.includes JS.LF command))] ++
      between ++ [Sleep 200; Exec (GetContents windowId target)])%list /\
    CommandExecutor.newLines r
      = JS.line_count (JS.trim rawAfter) - JS.line_count (JS.trim rawBefore) /\
    (JS.line_count (JS.trim rawBefore) = 2 -> JS.line_count (JS.trim rawAfter) = 5 ->
     CommandExecutor.newLines r = 3).
Proof.
  intros Hrun target. apply executeCommandWith_Return in Hrun.
  destruct Hrun as (rawBefore & rawAfter & between & Hb & Ha & Ht & Hn & _).
  exists rawBefore, rawAfter, between.
  repeat (split; [assumption |]). intros H2 H5. rewrite Hn, H2, H5. reflexivity.
Qed.

End ExecutorClaims.

(** C3, as stated, fails: when the buffer shrinks from three lines to
    one, the call succeeds with [newLines = -2]. *)
Lemma newLines_negative_after_clear :
  fst clearRun = Return {| CommandExecutor.newLines := -2;
                           CommandExecutor.executionTime := 260;
                           CommandExecutor.output := None |} /\
  -2 < 0.
Proof. split; [vm_compute; reflexivity | lia]. Qed.

Lemma newLines_sign_witness :
  fst clearRun = Return {| CommandExecutor.newLines := -2;
                           CommandExecutor.executionTime := 260;
                           CommandExecutor.output := None |} /\
  exists rawBefore rawAfter,
    exec_reply shrinkingWorld 0 (GetContents "w" None) = Stdout rawBefore /\
    exec_reply shrinkingWorld (Nat.pred (execs (snd clearRun))) (GetContents "w" None)
      = Stdout rawAfter /\
    -2 = JS.line_count (JS.trim rawAfter) - JS.line_count (JS.trim rawBefore) /\
    1 - JS.line_count (JS.trim rawBefore) <= -2 /\
    (0 <= -2 <-> JS.line_count (JS.trim rawBefore) <= JS.line_count (JS.trim rawAfter)).
Proof.
  assert (Hrun : CommandExecutor.executeCommand shrinkingWorld 1 "w" "clear" 30 0 None
                   freshMachine
                 = (Return {| CommandExecutor.newLines := -2;
                              CommandExecutor.executionTime := 260;
                              CommandExecutor.output := None |}, snd clearRun))
    by (vm_compute; reflexivity).
  split; [vm_compute; reflexivity |].
  exact (newLines_sign shrinkingWorld 1 "w" "clear" 30 0 None freshMachine (snd clearRun)
           {| CommandExecutor.newLines := -2;
              CommandExecutor.executionTime := 260;
              CommandExecutor.output := None |} Hrun).
Defined.

Lemma newLines_is_line_count_difference_witness :
  fst (listingRun 0) = Return {| CommandExecutor.newLines := 3;
                                 CommandExecutor.executionTime := 260;
                                 CommandExecutor.output := None |} /\
  exists rawBefore rawAfter between,
    exec_reply listingWorld 0 (GetContents "w" None) = Stdout rawBefore /\
    exec_reply listingWorld (Nat.pred (execs (snd (listingRun 0)))) (GetContents "w" None)
      = Stdout rawAfter /\
    trace (snd (listingRun 0)) =
      ([] ++ [Exec (GetContents "w" None); Exec (WriteText "w" None "ls" false)] ++
       between ++ [Sleep 200; Exec (GetContents "w" None)])%list /\
    3 = JS.line_count (JS.trim rawAfter) - JS.line_count (JS.trim rawBefore) /\
    (JS.line_count (JS.trim rawBefore) = 2 -> JS.line_count (JS.trim rawAfter) = 5 -> 3 = 3).
Proof.
  assert (Hrun : CommandExecutor.executeCommand listingWorld 1 "w" "ls" 30 0 None
                   freshMachine
                 = (Return {| CommandExecutor.newLines := 3;
                              CommandExecutor.executionTime := 260;
                              CommandExecutor.output := None |}, snd (listingRun 0)))
    by (vm_compute; reflexivity).
  split; [vm_compute; reflexivity |].
  exact (newLines_is_line_count_difference listingWorld 1 "w" "ls" 30 0 None freshMachine
           (snd (listingRun 0))
           {| CommandExecutor.newLines := 3;
              CommandExecutor.executionTime := 260;
              CommandExecutor.output := None |} Hrun).
Defined.

Section CapturedOutput.

Variable env : Env.

Lemma collect_throwing_capture (capture : string -> Z -> outcome string)
    (windowId : string) (tabIndex : option JS.jsnum)
    (startTime beforeLines returnOutputLines : Z) (st st' : Machine)
    (r : CommandExecutor.Result) :
  (forall buffer n, exists e, capture buffer n = Throw e) ->
  CommandExecutor.collect env CommandExecutor.tryCaptureTail windowId tabIndex startTime beforeLines
    returnOutputLines st = (Return r, st') ->
  CommandExecutor.collect env capture windowId tabIndex startTime beforeLines
    returnOutputLines st
  = (Return {| CommandExecutor.newLines := CommandExecutor.newLines r;
               CommandExecutor.executionTime := CommandExecutor.executionTime r;
               CommandExecutor.output :=
                 if 0 <? returnOutputLines then Some None else None |}, st').
Proof.
  intros Hthrow.
  unfold CommandExecutor.collect, TtyOutputReader.retrieveBuffer, bind, exec, ret,
    sleep, now, try_catch, settle, CommandExecutor.tryCaptureTail.
  cbn [execs advance record].
  destruct (exec_reply env (execs st) _) as [rawAfter|e] eqn:E1; [| discriminate].
  destruct (0 <? returnOutputLines).
  - destruct (Hthrow (JS.trim rawAfter) returnOutputLines) as [e He]. rewrite He.
    intros [= <- <-]. reflexivity.
  - intros [= <- <-]. reflexivity.
Qed.

Lemma executeCommandWith_throwing_capture (capture : string -> Z -> outcome string)
    (fuel : nat) (windowId command : string) (timeoutSeconds : Q)
    (returnOutputLines : Z) (tabIndex : option JS.jsnum) (st st' : Machine)
    (r : CommandExecutor.Result) :
  (forall buffer n, exists e, capture buffer n = Throw e) ->
  CommandExecutor.executeCommand env fuel windowId command timeoutSeconds
    returnOutputLines tabIndex st = (Return r, st') ->
  CommandExecutor.executeCommandWith env capture fuel windowId command timeoutSeconds
    returnOutputLines tabIndex st
  = (Return {| CommandExecutor.newLines := CommandExecutor.newLines r;
               CommandExecutor.executionTime := CommandExecutor.executionTime r;
               CommandExecutor.output :=
                 if 0 <? returnOutputLines then Some None else None |}, st').
Proof.
  intros Hthrow Hrun.
  unfold CommandExecutor.executeCommand, CommandExecutor.executeCommandWith in *.
  apply bind_Return in Hrun as (startTime & st0 & Hnow & Hrun).
  rewrite (bind_run _ _ _ _ _ Hnow).
  apply try_catch_Return in Hrun as [Hrun | (e & s & _ & Hfail)];
    [| discriminate Hfail].
  apply bind_Return in Hrun as (beforeLines & st1 & Hsubmit & Hrun).
  apply bind_Return in Hrun as ([] & st2 & Hdrain & Hrun).
  apply bind_Return in Hrun as ([] & st3 & Hidle & Hcollect).
  unfold try_catch.
  rewrite (bind_run _ _ _ _ _ Hsubmit), (bind_run _ _ _ _ _ Hdrain),
    (bind_run _ _ _ _ _ Hidle).
  rewrite (collect_throwing_capture capture _ _ _ _ _ _ _ _ Hthrow Hcollect).
  reflexivity.
Qed.

(** C5: for every successful call with [returnOutputLines = N > 0] the
    output is the last [N + 1] lines of the buffer read after the command
    (all its lines when there are fewer), joined by newlines; with [N = 0]
    the output field is absent; and when the slicing step throws, the call
    succeeds all the same, with the same [newLines] and output [null]. *)
Theorem output_is_last_lines (fuel : nat) (windowId command : string)
    (timeoutSeconds : Q) (returnOutputLines : Z) (tabIndex : option JS.jsnum)
    (st st' : Machine) (r : CommandExecutor.Result) :
  CommandExecutor.executeCommand env fuel windowId command timeoutSeconds
    returnOutputLines tabIndex st = (Return r, st') ->
  exists rawAfter,
    exec_reply env (Nat.pred (execs st'))
      (GetContents windowId (TtyOutputReader.sessionTarget tabIndex)) = Stdout rawAfter /\
    (0 < returnOutputLines ->
     exists earlier tail,
       JS.split JS.LF (JS.trim rawAfter) = (earlier ++ tail)%list /\
       Z.of_nat (List.length tail)
         = Z.min (returnOutputLines + 1)
             (Z.of_nat (List.length (JS.split JS.LF (JS.trim rawAfter)))) /\
       CommandExecutor.output r = Some (Some (JS.join JS.LF tail))) /\
    (returnOutputLines = 0 -> CommandExecutor.output r = None) /\
    (forall capture : string -> Z -> outcome string,
       (forall buffer n, exists e, capture buffer n = Throw e) ->
       0 < returnOutputLines ->
       exists r',
         CommandExecutor.executeCommandWith env capture fuel windowId command
           timeoutSeconds returnOutputLines tabIndex st = (Return r', st') /\
         CommandExecutor.newLines r' = CommandExecutor.newLines r /\
         CommandExecutor.output r' = Some None).
Proof.
  intros Hrun.
  pose proof (executeCommandWith_Return _ _ _ _ _ _ _ _ _ _ _ Hrun)
    as (rawBefore & rawAfter & between & _ & Ha & _ & _ & _ & Ho).
  exists rawAfter. split; [exact Ha |]. split; [| split].
  - intros HN.
    assert (E : (0 <? returnOutputLines) = true) by (apply Z.ltb_lt; exact HN).
    rewrite E in Ho. unfold CommandExecutor.captureTail in Ho.
    destruct (slice_negative_suffix (returnOutputLines + 1)
                (JS.split JS.LF (JS.trim rawAfter))) as (earlier & Hsplit & Hlen);
      [lia |].
    replace (- (returnOutputLines + 1)) with (- returnOutputLines - 1) in * by lia.
    exists earlier, (JS.slice (- returnOutputLines - 1) (JS.split JS.LF (JS.trim rawAfter))).
    split; [exact Hsplit |]. split; [exact Hlen | exact Ho].
  - intros ->. exact Ho.
  - intros capture Hthrow HN.
    assert (E : (0 <? returnOutputLines) = true) by (apply Z.ltb_lt; exact HN).
    eexists. split.
    + apply (executeCommandWith_throwing_capture capture _ _ _ _ _ _ _ _ _ Hthrow Hrun).
    + cbn. rewrite E. split; reflexivity.
Qed.

End CapturedOutput.

Lemma output_is_last_lines_witness :
  fst (listingRun 2)
  = Return {| CommandExecutor.newLines := 3;
              CommandExecutor.executionTime := 260;
              CommandExecutor.output := Some (Some (lines ["a"; "b"; "$"])) |} /\
  exists rawAfter,
    exec_reply listingWorld (Nat.pred (execs (snd (listingRun 2)))) (GetContents "w" None)
      = Stdout rawAfter /\
    (0 < 2 ->
     exists earlier tail,
       JS.split JS.LF (JS.trim rawAfter) = (earlier ++ tail)%list /\
       Z.of_nat (List.length tail)
         = Z.min (2 + 1) (Z.of_nat (List.length (JS.split JS.LF (JS.trim rawAfter)))) /\
       Some (Some (lines ["a"; "b"; "$"])) = Some (Some (JS.join JS.LF tail))) /\
    (2 = 0 -> Some (Some (lines ["a"; "b"; "$"])) = None) /\
    (forall capture : string -> Z -> outcome string,
       (forall buffer n, exists e, capture buffer n = Throw e) ->
       0 < 2 ->
       exists r',
         CommandExecutor.executeCommandWith listingWorld capture 1 "w" "ls" 30 2 None
           freshMachine = (Return r', snd (listingRun 2)) /\
         CommandExecutor.newLines r' = 3 /\
         CommandExecutor.output r' = Some None).
Proof.
  assert (Hrun : CommandExecutor.executeCommand listingWorld 1 "w" "ls" 30 2 None
                   freshMachine
                 = (Return {| CommandExecutor.newLines := 3;
                              CommandExecutor.executionTime := 260;
                              CommandExecutor.output :=
                                Some (Some (lines ["a"; "b"; "$"])) |},
                    snd (listingRun 2)))
    by (vm_compute; reflexivity).
  split; [vm_compute; reflexivity |].
  exact (output_is_last_lines listingWorld 1 "w" "ls" 30 2 None freshMachine
           (snd (listingRun 2))
           {| CommandExecutor.newLines := 3;
              CommandExecutor.executionTime := 260;
              CommandExecutor.output := Some (Some (lines ["a"; "b"; "$"])) |} Hrun).
Defined.

(** ** The budget of phase B *)

Lemma remainingTime_floor (timeoutMs : Q) (elapsedTime : Z) :
  (1000 <= CommandExecutor.remainingTime timeoutMs elapsedTime)%Q.
Proof. unfold CommandExecutor.remainingTime. apply Q.le_max_r. Qed.

(** C2, as stated, fails: with a timeout of one second, which is within
    [1, 120], and no time elapsed, the budget that [executeCommand] passes
    to the race of phase B is 700 ms, below 1000 ms. *)
Lemma phaseB_budget_below_one_second :
  (1 <= 1)%Q /\ (1 <= 120)%Q /\
  (CommandExecutor.inputTimeout (1 * 1000) 0 == 700)%Q /\
  (CommandExecutor.inputTimeout (1 * 1000) 0 < 1000)%Q.
Proof.
  split; [vm_compute; discriminate |]. split; [vm_compute; discriminate |].
  split; vm_compute; reflexivity.
Qed.

(** C2, amended: for every timeout of at least one second, the remaining
    time from which the budget of phase B is computed is at least 1000 ms,
    and the budget itself, 93% of the remaining time capped at 70% of the
    timeout, is at least 700 ms, whatever time has elapsed. *)
Theorem phaseB_budget_floor (timeoutSeconds : Q) (elapsedTime : Z) :
  (1 <= timeoutSeconds)%Q ->
  (1000 <= CommandExecutor.remainingTime (timeoutSeconds * 1000) elapsedTime)%Q /\
  (700 <= CommandExecutor.inputTimeout (timeoutSeconds * 1000) elapsedTime)%Q /\
  (CommandExecutor.inputTimeout (timeoutSeconds * 1000) elapsedTime
     <= timeoutSeconds * 1000 * (7 # 10))%Q.
Proof.
  intros HT. split; [apply remainingTime_floor |]. split.
  - unfold CommandExecutor.inputTimeout. apply Q.min_glb.
    + pose proof (remainingTime_floor (timeoutSeconds * 1000) elapsedTime). lra.
    + lra.
  - unfold CommandExecutor.inputTimeout. apply Q.le_min_r.
Qed.

Lemma phaseB_budget_floor_witness :
  (1 <= 1)%Q /\
  (700 <= CommandExecutor.inputTimeout (1 * 1000) 0)%Q.
Proof.
  split; [vm_compute; discriminate |].
  apply (phaseB_budget_floor 1 0). vm_compute; discriminate.
Defined.

(** With a timeout of one second, a phase B that is decided after 800 ms
    is cut off by its budget of 700 ms. *)
Example phaseB_cut_off_before_one_second :
  fst (CommandExecutor.executeCommand (scriptedWorld "" "" NoProcess 800) 1 "w" "ls" 1 0
         None freshMachine)
  = Throw "Failed to execute command: Command timed out waiting for completion (s total timeout exceeded)".
Proof. vm_compute; reflexivity. Qed.

(** ** Phase B: the idleness check *)

Lemma Qltb_true (a b : Q) : Qltb a b = true <-> (a < b)%Q.
Proof.
  unfold Qltb. rewrite negb_true_iff. split.
  - intros H. apply Qnot_le_lt. intros Hle. apply Qle_bool_iff in Hle. congruence.
  - intros H. destruct (Qle_bool b a) eqn:E; [| reflexivity].
    apply Qle_bool_iff in E. exfalso. exact (Qlt_not_le _ _ H E).
Qed.

Section IdleCheck.

Variable env : Env.

(** Whatever the body of a [try] does, a [finally] that ends in
    [return true] makes the function return [true] when it returns. *)
Lemma finally_return_true (m : M bool) (close : M unit) (st st' : Machine) (v : bool) :
  try_finally m (close ;; ret (Some true)) st = (Return v, st') -> v = true.
Proof.
  unfold try_finally, bind, ret.
  destruct (m st) as [[a|e|] st1]; [| | discriminate];
    destruct (close st1) as [[[]|e'|] st2]; intros H; congruence.
Qed.

Lemma isWaitingForUserInput_true (polls : nat) (ttyPath : string) (st st' : Machine)
    (v : bool) :
  CommandExecutor.isWaitingForUserInput env polls ttyPath st = (Return v, st') ->
  v = true.
Proof.
  unfold CommandExecutor.isWaitingForUserInput.
  destruct (openSync env ttyPath st) as [opened st1].
  apply finally_return_true.
Qed.

(** One round of the outer loop is one call of [isWaitingForUserInput]:
    the body of the loop, [await sleep(100)], is not reached. *)
Lemma waitForUserInputReady_single_call (fuel polls : nat) (windowId ttyPath : string)
    (st : Machine) :
  CommandExecutor.waitForUserInputReady env (S fuel) polls windowId ttyPath st
  = match CommandExecutor.isWaitingForUserInput env polls ttyPath st with
    | (Return _, st1) => (Return tt, st1)
    | (Throw e, st1) => (Throw e, st1)
    | (OutOfFuel, st1) => (OutOfFuel, st1)
    end.
Proof.
  cbn [CommandExecutor.waitForUserInputReady]. unfold bind.
  destruct (CommandExecutor.isWaitingForUserInput env polls ttyPath st)
    as [[v|e|] st1] eqn:E; try reflexivity.
  apply isWaitingForUserInput_true in E. subst v. reflexivity.
Qed.

(** C9: whenever [isWaitingForUserInput] returns, it returns [true]; then
    [waitForUserInputReady] returns in the very state in which that single
    call ended, and what it has added to the trace is one opening of the
    terminal followed by polling events only: the [sleep(100)] of the loop
    body has not run and no second call was made. *)
Theorem isWaitingForUserInput_always_true (fuel polls : nat) (windowId ttyPath : string)
    (st st' : Machine) (v : bool) :
  CommandExecutor.isWaitingForUserInput env polls ttyPath st = (Return v, st') ->
  v = true /\
  CommandExecutor.waitForUserInputReady env (S fuel) polls windowId ttyPath st
    = (Return tt, st') /\
  exists evs,
    trace st' = (trace st ++ OpenSync ttyPath :: evs)%list /\
    Forall pollingEvent evs /\
    (Sleep 100 ∉ evs).
Proof.
  intros Hcall. split; [exact (isWaitingForUserInput_true _ _ _ _ _ Hcall) |].
  split; [rewrite waitForUserInputReady_single_call, Hcall; reflexivity |].
  destruct (isWaitingForUserInput_events env polls ttyPath st) as (evs & Ht & HF).
  rewrite Hcall in Ht. cbn [snd] in Ht.
  exists evs. split; [exact Ht |]. split; [exact HF |].
  intros Hin. rewrite Forall_forall in HF. apply HF in Hin. simpl in Hin. discriminate Hin.
Qed.

End IdleCheck.

Lemma isWaitingForUserInput_always_true_witness :
  fst idleCheck = Return true /\
  CommandExecutor.waitForUserInputReady quietProcessWorld 1 3 "w" "/dev/ttys001" freshMachine
    = (Return tt, snd idleCheck) /\
  trace (snd idleCheck)
    = [OpenSync "/dev/ttys001";
       GetActiveProcess "/dev/ttys001"; Sleep 350;
       GetActiveProcess "/dev/ttys001"; Sleep 350;
       GetActiveProcess "/dev/ttys001"; CloseSync 3].
Proof.
  assert (Hrun : CommandExecutor.isWaitingForUserInput quietProcessWorld 3 "/dev/ttys001"
                   freshMachine = (Return true, snd idleCheck))
    by (vm_compute; reflexivity).
  destruct (isWaitingForUserInput_always_true quietProcessWorld 0 3 "w" "/dev/ttys001"
              freshMachine (snd idleCheck) true Hrun) as (_ & Hwait & _).
  split; [vm_compute; reflexivity |]. split; [exact Hwait |].
  vm_compute; reflexivity.
Defined.

Section FailOpen.

Variable env : Env.

Hypothesis inspector_down :
  forall n ttyPath, exists e, inspect_reply env n ttyPath = InspectorError e.

(** With the inspector down the first poll decides: the call returns
    [true], makes no channel call, and takes at most the latency of that
    one inspection. *)
Lemma isWaitingForUserInput_fail_open (polls : nat) (ttyPath : string) (st : Machine) :
  exists st',
    CommandExecutor.isWaitingForUserInput env (S polls) ttyPath st = (Return true, st') /\
    execs st' = execs st /\
    0 <= clock st' - clock st <= Z.of_nat (inspect_latency env (inspections st)).
Proof.
  unfold CommandExecutor.isWaitingForUserInput, openSync.
  destruct (open_error env ttyPath) as [e|].
  - eexists. split; [reflexivity |]. cbn. split; [reflexivity | lia].
  - cbn [CommandExecutor.pollActivity].
    unfold try_finally, try_catch, bind, getActiveProcess.
    cbn [inspections record advance].
    destruct (inspector_down (inspections st) ttyPath) as [e ->].
    unfold ret, closeSync. cbn [open_fds record advance next_fd].
    rewrite bool_decide_eq_true_2 by apply list_elem_of_here.
    eexists. split; [reflexivity |]. cbn. split; [reflexivity | lia].
Qed.

Lemma retrieveTtyPath_run (windowId : string) (tabIndex : option JS.jsnum)
    (st : Machine) (rawTty : string) :
  exec_reply env (execs st) (GetTty windowId (TtyOutputReader.sessionTarget tabIndex))
    = Stdout rawTty ->
  exists st',
    CommandExecutor.retrieveTtyPath env windowId tabIndex st
      = (Return (JS.trim rawTty), st') /\
    execs st' = S (execs st) /\
    inspections st' = inspections st.
Proof.
  intros Hreply. unfold CommandExecutor.retrieveTtyPath, try_catch, bind, exec.
  rewrite Hreply. eexists. split; [reflexivity |]. split; reflexivity.
Qed.

Lemma collect_run (windowId : string) (tabIndex : option JS.jsnum)
    (startTime beforeLines returnOutputLines : Z) (st : Machine) (rawAfter : string) :
  exec_reply env (execs st) (GetContents windowId (TtyOutputReader.sessionTarget tabIndex))
    = Stdout rawAfter ->
  exists r st',
    CommandExecutor.collect env CommandExecutor.tryCaptureTail windowId tabIndex startTime beforeLines
      returnOutputLines st = (Return r, st') /\
    CommandExecutor.newLines r = JS.line_count (JS.trim rawAfter) - beforeLines.
Proof.
  intros Hreply.
  unfold CommandExecutor.collect, TtyOutputReader.retrieveBuffer, bind, exec, ret,
    sleep, now, try_catch, settle, CommandExecutor.tryCaptureTail.
  cbn [execs advance record]. rewrite Hreply.
  destruct (0 <? returnOutputLines); eexists; eexists; split; reflexivity.
Qed.

(** With the inspector down and the terminal device open, the call takes
    the latency of that one inspection. *)
Lemma isWaitingForUserInput_fail_open_time (polls : nat) (ttyPath : string) (st : Machine) :
  open_error env ttyPath = None ->
  exists st',
    CommandExecutor.isWaitingForUserInput env (S polls) ttyPath st = (Return true, st') /\
    clock st' - clock st = Z.of_nat (inspect_latency env (inspections st)).
Proof.
  intros Hopen. unfold CommandExecutor.isWaitingForUserInput, openSync. rewrite Hopen.
  cbn [CommandExecutor.pollActivity].
  unfold try_finally, try_catch, bind, getActiveProcess.
  cbn [inspections record advance].
  destruct (inspector_down (inspections st) ttyPath) as [e ->].
  unfold ret, closeSync. cbn [open_fds record advance next_fd].
  rewrite bool_decide_eq_true_2 by apply list_elem_of_here.
  eexists. split; [reflexivity |]. cbn. lia.
Qed.

(** C1, amended: when every call of the process activity inspector fails,
    [isWaitingForUserInput] returns [true] instead of propagating the
    error, whenever it is called. For a call of [executeCommand] whose
    submission and phase A have succeeded and whose channel answers the
    query for the device path, what is reported depends on when the
    inspector fails: when its error arrives within the budget of phase B
    and the channel returns the buffer, the call completes with a result;
    when the terminal device opens and the error arrives only when the
    budget is used up, the call fails with the message of the timeout of
    phase B. *)
Theorem inspector_errors_fail_open (fuel : nat) (windowId command : string)
    (timeoutSeconds : Q) (returnOutputLines : Z) (tabIndex : option JS.jsnum)
    (st st0 st1 : Machine) (beforeLines : Z) (rawTty rawAfter : string) :
  CommandExecutor.submit env windowId command tabIndex st = (Return beforeLines, st0) ->
  CommandExecutor.drainProcessing env (S fuel) windowId tabIndex (timeoutSeconds * 1000) st0
    = (Return tt, st1) ->
  exec_reply env (execs st1) (GetTty windowId (TtyOutputReader.sessionTarget tabIndex))
    = Stdout rawTty ->
  (forall ttyPath stB,
     fst (CommandExecutor.isWaitingForUserInput env (S fuel) ttyPath stB) = Return true) /\
  (exec_reply env (S (execs st1))
     (GetContents windowId (TtyOutputReader.sessionTarget tabIndex)) = Stdout rawAfter ->
   (inject_Z (Z.of_nat (inspect_latency env (inspections st1)))
    < CommandExecutor.inputTimeout (timeoutSeconds * 1000) (clock st1 - clock st))%Q ->
   exists r st',
     CommandExecutor.executeCommand env (S fuel) windowId command timeoutSeconds
       returnOutputLines tabIndex st = (Return r, st') /\
     CommandExecutor.newLines r = JS.line_count (JS.trim rawAfter) - beforeLines) /\
  (open_error env (JS.trim rawTty) = None ->
   (CommandExecutor.inputTimeout (timeoutSeconds * 1000) (clock st1 - clock st)
    <= inject_Z (Z.of_nat (inspect_latency env (inspections st1))))%Q ->
   exists st',
     CommandExecutor.executeCommand env (S fuel) windowId command timeoutSeconds
       returnOutputLines tabIndex st
     = (Throw ("Failed to execute command: "
                 +:+ "Command timed out waiting for completion ("
                 +:+ number_to_string env timeoutSeconds
                 +:+ "s total timeout exceeded)"), st')).
Proof.
  intros Hsubmit Hdrain Htty. split.
  { intros ttyPath stB.
    destruct (isWaitingForUserInput_fail_open fuel ttyPath stB) as (st' & -> & _).
    reflexivity. }
  destruct (retrieveTtyPath_run windowId tabIndex st1 rawTty Htty)
    as (st2 & Hpath & Hexecs2 & Hinsp2).
  assert (Hrun : forall r3 st3,
            CommandExecutor.confirmIdle env (S fuel) windowId tabIndex (clock st)
              timeoutSeconds st1 = (r3, st3) ->
            CommandExecutor.executeCommand env (S fuel) windowId command timeoutSeconds
              returnOutputLines tabIndex st
            = try_catch
                (fun s => match r3 with
                          | Return _ =>
                              CommandExecutor.collect env CommandExecutor.tryCaptureTail
                                windowId tabIndex (clock st) beforeLines
                                returnOutputLines s
                          | Throw e => (Throw e, s)
                          | OutOfFuel => (OutOfFuel, s)
                          end)
                (fun message => throw ("Failed to execute command: " +:+ message)) st3).
  { intros r3 st3 Hconfirm.
    unfold CommandExecutor.executeCommand, CommandExecutor.executeCommandWith.
    unfold now at 1. unfold bind at 1. unfold try_catch.
    rewrite (bind_run _ _ _ _ _ Hsubmit), (bind_run _ _ _ _ _ Hdrain).
    unfold bind at 1. rewrite Hconfirm. destruct r3; reflexivity. }
  split.
  - intros Hafter Hbudget.
    destruct (isWaitingForUserInput_fail_open fuel (JS.trim rawTty) st2)
      as (st3 & Hidle & Hexecs3 & Hclock3).
    destruct (collect_run windowId tabIndex (clock st) beforeLines returnOutputLines
                st3 rawAfter) as (r & st' & Hcollect & Hlines).
    { rewrite Hexecs3, Hexecs2. exact Hafter. }
    exists r, st'. split; [| exact Hlines].
    assert (Hconfirm : CommandExecutor.confirmIdle env (S fuel) windowId tabIndex (clock st)
                         timeoutSeconds st1 = (Return tt, st3)).
    { unfold CommandExecutor.confirmIdle. unfold now at 1. unfold bind at 1.
      rewrite (bind_run _ _ _ _ _ Hpath).
      unfold CommandExecutor.withTimeout.
      rewrite waitForUserInputReady_single_call, Hidle.
      assert (Hlt : Qltb (inject_Z (clock st3 - clock st2))
                      (CommandExecutor.inputTimeout (timeoutSeconds * 1000)
                         (clock st1 - clock st)) = true).
      { apply Qltb_true. eapply Qle_lt_trans; [| exact Hbudget].
        rewrite <- Zle_Qle. rewrite Hinsp2 in Hclock3. lia. }
      rewrite Hlt. reflexivity. }
    rewrite (Hrun _ _ Hconfirm). unfold try_catch. rewrite Hcollect. reflexivity.
  - intros Hopen Hlate.
    destruct (isWaitingForUserInput_fail_open_time fuel (JS.trim rawTty) st2 Hopen)
      as (st3 & Hidle & Hclock3).
    exists st3.
    assert (Hconfirm : CommandExecutor.confirmIdle env (S fuel) windowId tabIndex (clock st)
                         timeoutSeconds st1
                       = (Throw ("Command timed out waiting for completion ("
                                   +:+ number_to_string env timeoutSeconds
                                   +:+ "s total timeout exceeded)"), st3)).
    { unfold CommandExecutor.confirmIdle. unfold now at 1. unfold bind at 1.
      rewrite (bind_run _ _ _ _ _ Hpath).
      unfold CommandExecutor.withTimeout.
      rewrite waitForUserInputReady_single_call, Hidle.
      assert (Hge : Qltb (inject_Z (clock st3 - clock st2))
                      (CommandExecutor.inputTimeout (timeoutSeconds * 1000)
                         (clock st1 - clock st)) = false).
      { unfold Qltb. apply negb_false_iff. apply Qle_bool_iff.
        rewrite Hclock3, Hinsp2. exact Hlate. }
      rewrite Hge. reflexivity. }
    rewrite (Hrun _ _ Hconfirm). reflexivity.
Qed.

End FailOpen.

(** C1, as stated, fails: the inspector fails on every poll, and
    [isWaitingForUserInput] returns [true]; but with a timeout of one
    second the budget of phase B is 700 ms, the error of the inspector
    arrives after 800 ms, and the command is reported as failed. *)
Lemma inspector_errors_after_the_budget :
  (forall n ttyPath, exists e, inspect_reply inspectorLate n ttyPath = InspectorError e) /\
  fst (CommandExecutor.isWaitingForUserInput inspectorLate 1 "/dev/ttys001" lateDrain)
  = Return true /\
  fst (CommandExecutor.executeCommand inspectorLate 1 "w" "ls" 1 0 None freshMachine)
  = Throw "Failed to execute command: Command timed out waiting for completion (1s total timeout exceeded)".
Proof.
  split; [intros n ttyPath; eexists; reflexivity |].
  split; vm_compute; reflexivity.
Qed.

Lemma inspector_errors_fail_open_witness :
  (forall n ttyPath, exists e, inspect_reply inspectorDown n ttyPath = InspectorError e) /\
  CommandExecutor.submit inspectorDown "w" "ls" None freshMachine = (Return 2, afterSubmit) /\
  CommandExecutor.drainProcessing inspectorDown 1 "w" None (30 * 1000) afterSubmit
    = (Return tt, afterDrain) /\
  exec_reply inspectorDown (execs afterDrain) (GetTty "w" None) = Stdout "/dev/ttys001" /\
  (forall ttyPath stB,
     fst (CommandExecutor.isWaitingForUserInput inspectorDown 1 ttyPath stB) = Return true) /\
  (exists r st',
     CommandExecutor.executeCommand inspectorDown 1 "w" "ls" 30 0 None freshMachine
       = (Return r, st') /\
     CommandExecutor.newLines r
       = JS.line_count (JS.trim (lines ["Last login"; "$ ls"; "a"; "b"; "$"])) - 2) /\
  (exists st',
     CommandExecutor.executeCommand inspectorLate 1 "w" "ls" 1 0 None freshMachine
     = (Throw ("Failed to execute command: "
                 +:+ "Command timed out waiting for completion ("
                 +:+ number_to_string inspectorLate 1
                 +:+ "s total timeout exceeded)"), st')).
Proof.
  assert (Hdown : forall n ttyPath,
             exists e, inspect_reply inspectorDown n ttyPath = InspectorError e)
    by (intros n ttyPath; eexists; reflexivity).
  assert (Hlate : forall n ttyPath,
             exists e, inspect_reply inspectorLate n ttyPath = InspectorError e)
    by (intros n ttyPath; eexists; reflexivity).
  assert (Hsubmit : CommandExecutor.submit inspectorDown "w" "ls" None freshMachine
                    = (Return 2, afterSubmit)) by (vm_compute; reflexivity).
  assert (Hdrain : CommandExecutor.drainProcessing inspectorDown 1 "w" None (30 * 1000)
                     afterSubmit = (Return tt, afterDrain)) by (vm_compute; reflexivity).
  assert (Htty : exec_reply inspectorDown (execs afterDrain) (GetTty "w" None)
                 = Stdout "/dev/ttys001") by (vm_compute; reflexivity).
  assert (Hsubmit' : CommandExecutor.submit inspectorLate "w" "ls" None freshMachine
                     = (Return 2, lateSubmit)) by (vm_compute; reflexivity).
  assert (Hdrain' : CommandExecutor.drainProcessing inspectorLate 1 "w" None (1 * 1000)
                      lateSubmit = (Return tt, lateDrain)) by (vm_compute; reflexivity).
  assert (Htty' : exec_reply inspectorLate (execs lateDrain) (GetTty "w" None)
                  = Stdout "/dev/ttys001") by (vm_compute; reflexivity).
  split; [exact Hdown |]. split; [exact Hsubmit |]. split; [exact Hdrain |].
  split; [exact Htty |].
  destruct (inspector_errors_fail_open inspectorDown Hdown 0 "w" "ls" 30 0 None
              freshMachine afterSubmit afterDrain 2 "/dev/ttys001"
              (lines ["Last login"; "$ ls"; "a"; "b"; "$"]) Hsubmit Hdrain Htty)
    as (Htrue & Hreturns & _).
  destruct (inspector_errors_fail_open inspectorLate Hlate 0 "w" "ls" 1 0 None
              freshMachine lateSubmit lateDrain 2 "/dev/ttys001" "" Hsubmit' Hdrain' Htty')
    as (_ & _ & Hthrows).
  split; [exact Htrue |]. split.
  - apply Hreturns; vm_compute; reflexivity.
  - apply Hthrows; [reflexivity |]. vm_compute. discriminate.
Defined.

(** ** Fuel *)

Lemma out_of_fuel_not_settled {A : Type} : ~ settled (@OutOfFuel A).
Proof. intros H. apply H. reflexivity. Qed.

Lemma Return_settled {A : Type} (a : A) : settled (Return a).
Proof. intros H. discriminate H. Qed.

Lemma Throw_settled {A : Type} (e : string) : settled (@Throw A e).
Proof. intros H. discriminate H. Qed.

Lemma bind_settled {A B : Type} (m : M A) (k : A -> M B) st r st' :
  bind m k st = (r, st') -> settled r ->
  (exists e, m st = (Throw e, st') /\ r = Throw e) \/
  (exists a st1, m st = (Return a, st1) /\ k a st1 = (r, st')).
Proof.
  unfold bind. destruct (m st) as [[a|e|] st1]; intros H Hr.
  - right. exists a, st1. split; [reflexivity | exact H].
  - left. exists e. injection H as <- <-. split; reflexivity.
  - injection H as <- <-. destruct (out_of_fuel_not_settled Hr).
Qed.

Lemma extends_refl {A : Type} (m : M A) : extends m m.
Proof. intros st r st' H _. exact H. Qed.

Lemma extends_bind {A B : Type} (m m' : M A) (k k' : A -> M B) :
  extends m m' -> (forall a, extends (k a) (k' a)) -> extends (bind m k) (bind m' k').
Proof.
  intros Hm Hk st r st' Hrun Hr.
  destruct (bind_settled _ _ _ _ _ Hrun Hr) as [(e & Hm1 & ->)|(a & st1 & Hm1 & Hk1)].
  - apply bind_throws. exact (Hm _ _ _ Hm1 (Throw_settled e)).
  - rewrite (bind_run _ _ _ _ _ (Hm _ _ _ Hm1 (Return_settled a))).
    apply Hk; assumption.
Qed.

Lemma extends_try_catch {A : Type} (m m' : M A) (h h' : string -> M A) :
  extends m m' -> (forall e, extends (h e) (h' e)) ->
  extends (try_catch m h) (try_catch m' h').
Proof.
  intros Hm Hh st r st'. unfold try_catch.
  destruct (m st) as [[a|e|] st1] eqn:E; intros Hrun Hr.
  - rewrite (Hm _ _ _ E (Return_settled a)). exact Hrun.
  - rewrite (Hm _ _ _ E (Throw_settled e)). apply Hh; assumption.
  - injection Hrun as <- <-. destruct (out_of_fuel_not_settled Hr).
Qed.

Lemma extends_try_finally {A : Type} (m m' : M A) (f : M (option A)) :
  extends m m' -> extends (try_finally m f) (try_finally m' f).
Proof.
  intros Hm st r st'. unfold try_finally.
  destruct (m st) as [[a|e|] st1] eqn:E; intros Hrun Hr.
  - rewrite (Hm _ _ _ E (Return_settled a)). exact Hrun.
  - rewrite (Hm _ _ _ E (Throw_settled e)). exact Hrun.
  - injection Hrun as <- <-. destruct (out_of_fuel_not_settled Hr).
Qed.

Lemma extends_withTimeout {A : Type} (promise promise' : M A) (timeoutMs : Q)
    (errorMessage : string) :
  extends promise promise' ->
  extends (CommandExecutor.withTimeout promise timeoutMs errorMessage)
          (CommandExecutor.withTimeout promise' timeoutMs errorMessage).
Proof.
  intros Hp st r st'. unfold CommandExecutor.withTimeout.
  destruct (promise st) as [[a|e|] st1] eqn:E; intros Hrun Hr.
  - rewrite (Hp _ _ _ E (Return_settled a)). exact Hrun.
  - rewrite (Hp _ _ _ E (Throw_settled e)). exact Hrun.
  - injection Hrun as <- <-. destruct (out_of_fuel_not_settled Hr).
Qed.

Lemma extends_out_of_fuel {A : Type} (m : M A) : extends (settle OutOfFuel) m.
Proof.
  intros st r st' H Hr. injection H as <- <-. destruct (out_of_fuel_not_settled Hr).
Qed.

Section Fuel.

Variable env : Env.

Lemma waitForProcessingComplete_more_fuel (fuel fuel' : nat) (windowId : string)
    (tabIndex : option JS.jsnum) :
  (fuel <= fuel')%nat ->
  extends (CommandExecutor.waitForProcessingComplete env fuel windowId tabIndex)
          (CommandExecutor.waitForProcessingComplete env fuel' windowId tabIndex).
Proof.
  revert fuel'. induction fuel as [|fuel IH]; intros fuel' Hle.
  - apply extends_out_of_fuel.
  - destruct fuel' as [|fuel']; [lia |].
    cbn [CommandExecutor.waitForProcessingComplete].
    apply extends_bind; [apply extends_refl |]. intros [|]; [| apply extends_refl].
    apply extends_bind; [apply extends_refl |]. intros _. apply IH. lia.
Qed.

Lemma pollActivity_more_fuel (fuel fuel' : nat) (ttyPath : string) (below : Z) :
  (fuel <= fuel')%nat ->
  extends (CommandExecutor.pollActivity env fuel ttyPath below)
          (CommandExecutor.pollActivity env fuel' ttyPath below).
Proof.
  revert fuel' below. induction fuel as [|fuel IH]; intros fuel' below Hle.
  - apply extends_out_of_fuel.
  - destruct fuel' as [|fuel']; [lia |].
    cbn [CommandExecutor.pollActivity].
    apply extends_bind; [apply extends_refl |]. intros [answer|below']; [apply extends_refl |].
    apply extends_bind; [apply extends_refl |]. intros _. apply IH. lia.
Qed.

Lemma isWaitingForUserInput_more_fuel (polls polls' : nat) (ttyPath : string) :
  (polls <= polls')%nat ->
  extends (CommandExecutor.isWaitingForUserInput env polls ttyPath)
          (CommandExecutor.isWaitingForUserInput env polls' ttyPath).
Proof.
  intros Hle st. unfold CommandExecutor.isWaitingForUserInput.
  destruct (openSync env ttyPath st) as [[fd|e|] st1]; try (intros r st' H _; exact H).
  apply extends_try_finally. apply extends_try_catch; [| intros e; apply extends_refl].
  apply pollActivity_more_fuel. exact Hle.
Qed.

Lemma waitForUserInputReady_more_fuel (fuel fuel' polls polls' : nat)
    (windowId ttyPath : string) :
  (fuel <= fuel')%nat -> (polls <= polls')%nat ->
  extends (CommandExecutor.waitForUserInputReady env fuel polls windowId ttyPath)
          (CommandExecutor.waitForUserInputReady env fuel' polls' windowId ttyPath).
Proof.
  revert fuel'. induction fuel as [|fuel IH]; intros fuel' Hf Hp.
  - apply extends_out_of_fuel.
  - destruct fuel' as [|fuel']; [lia |].
    cbn [CommandExecutor.waitForUserInputReady].
    apply extends_bind; [apply isWaitingForUserInput_more_fuel; exact Hp |].
    intros [|]; [apply extends_refl |].
    apply extends_bind; [apply extends_refl |]. intros _. apply IH; [lia | exact Hp].
Qed.

(** A call of [executeCommand] that has settled, with a result or with an
    error, settles in the same way when its loops are allowed more
    iterations. *)
Lemma executeCommandWith_more_fuel (capture : string -> Z -> outcome string)
    (fuel fuel' : nat) (windowId command : string) (timeoutSeconds : Q)
    (returnOutputLines : Z) (tabIndex : option JS.jsnum) :
  (fuel <= fuel')%nat ->
  extends (CommandExecutor.executeCommandWith env capture fuel windowId command
             timeoutSeconds returnOutputLines tabIndex)
          (CommandExecutor.executeCommandWith env capture fuel' windowId command
             timeoutSeconds returnOutputLines tabIndex).
Proof.
  intros Hle. unfold CommandExecutor.executeCommandWith.
  apply extends_bind; [apply extends_refl |]. intros startTime.
  apply extends_try_catch; [| intros e; apply extends_refl].
  apply extends_bind; [apply extends_refl |]. intros beforeLines.
  apply extends_bind.
  { unfold CommandExecutor.drainProcessing. apply extends_withTimeout.
    apply waitForProcessingComplete_more_fuel. exact Hle. }
  intros _. apply extends_bind; [| intros _; apply extends_refl].
  unfold CommandExecutor.confirmIdle.
  apply extends_bind; [apply extends_refl |]. intros t.
  apply extends_bind; [apply extends_refl |]. intros ttyPath.
  apply extends_withTimeout. apply waitForUserInputReady_more_fuel; exact Hle.
Qed.

Lemma isProcessing_later (windowId : string) (tabIndex : option JS.jsnum) :
  keeps later (CommandExecutor.isProcessing env windowId tabIndex).
Proof.
  intros st. unfold CommandExecutor.isProcessing, try_catch, bind, exec, later.
  destruct (exec_reply env (execs st) _); cbn; lia.
Qed.

Lemma isProcessing_settled (windowId : string) (tabIndex : option JS.jsnum)
    (st : Machine) :
  settled (fst (CommandExecutor.isProcessing env windowId tabIndex st)).
Proof.
  unfold CommandExecutor.isProcessing, try_catch, bind, exec.
  destruct (exec_reply env (execs st) _); cbn;
    [apply Return_settled | apply Throw_settled].
Qed.

(** A phase A that is out of fuel has slept 100 ms for every iteration
    allowed: with [fuel] at least a hundredth of its budget in ms, the
    timeout has won the race by then. *)
Lemma waitForProcessingComplete_out_of_fuel (fuel : nat) (windowId : string)
    (tabIndex : option JS.jsnum) (st st' : Machine) :
  CommandExecutor.waitForProcessingComplete env fuel windowId tabIndex st
    = (OutOfFuel, st') ->
  100 * Z.of_nat fuel <= clock st' - clock st.
Proof.
  revert st. induction fuel as [|fuel IH]; intros st Hrun.
  - injection Hrun as <-. lia.
  - cbn [CommandExecutor.waitForProcessingComplete] in Hrun. unfold bind at 1 in Hrun.
    pose proof (isProcessing_later windowId tabIndex st) as Hlater. unfold later in Hlater.
    pose proof (isProcessing_settled windowId tabIndex st) as Hsettled.
    destruct (CommandExecutor.isProcessing env windowId tabIndex st) as [[[|]|e|] st1];
      cbn [fst snd] in Hlater, Hsettled.
    + unfold bind, sleep in Hrun. apply IH in Hrun. cbn in Hrun. lia.
    + discriminate Hrun.
    + discriminate Hrun.
    + destruct (out_of_fuel_not_settled Hsettled).
Qed.

Lemma drainProcessing_out_of_fuel (fuel : nat) (windowId : string)
    (tabIndex : option JS.jsnum) (timeoutMs : Q) (st st' : Machine) :
  (CommandExecutor.processingTimeout timeoutMs <= inject_Z (100 * Z.of_nat fuel))%Q ->
  CommandExecutor.drainProcessing env fuel windowId tabIndex timeoutMs st
    = (OutOfFuel, st') ->
  (CommandExecutor.processingTimeout timeoutMs <= inject_Z (clock st' - clock st))%Q.
Proof.
  intros Hfuel. unfold CommandExecutor.drainProcessing, CommandExecutor.withTimeout.
  destruct (CommandExecutor.waitForProcessingComplete env fuel windowId tabIndex st)
    as [[[]|e|] st1] eqn:E.
  - destruct (Qltb _ _); discriminate.
  - destruct (Qltb _ _); discriminate.
  - intros [= <-]. apply waitForProcessingComplete_out_of_fuel in E.
    eapply Qle_trans; [exact Hfuel |]. rewrite <- Zle_Qle. exact E.
Qed.

(** The polling loop of phase B that is out of fuel has slept 350 ms for
    every poll allowed. *)
Lemma pollActivity_out_of_fuel (fuel : nat) (ttyPath : string) (below : Z)
    (st st' : Machine) :
  CommandExecutor.pollActivity env fuel ttyPath below st = (OutOfFuel, st') ->
  350 * Z.of_nat fuel <= clock st' - clock st.
Proof.
  revert below st. induction fuel as [|fuel IH]; intros below st Hrun.
  - injection Hrun as <-. lia.
  - cbn [CommandExecutor.pollActivity] in Hrun.
    unfold bind at 1, try_catch, getActiveProcess in Hrun. unfold bind at 1 in Hrun.
    destruct (inspect_reply env (inspections st) ttyPath) as [e| |cpu].
    + discriminate Hrun.
    + discriminate Hrun.
    + destruct (Qltb cpu 1); [destruct (1000 <=? below + 350) |];
        try discriminate Hrun;
        unfold ret, bind, sleep in Hrun; apply IH in Hrun; cbn in Hrun; lia.
Qed.

Lemma isWaitingForUserInput_out_of_fuel (polls : nat) (ttyPath : string)
    (st st' : Machine) :
  CommandExecutor.isWaitingForUserInput env polls ttyPath st = (OutOfFuel, st') ->
  350 * Z.of_nat polls <= clock st' - clock st.
Proof.
  unfold CommandExecutor.isWaitingForUserInput, openSync.
  destruct (open_error env ttyPath) as [e|].
  - unfold try_finally, try_catch, throw, ret, bind. discriminate.
  - unfold try_finally, try_catch.
    destruct (CommandExecutor.pollActivity env polls ttyPath 0 _) as [[v|e|] st1] eqn:E.
    + unfold bind, ret, closeSync. case_bool_decide; discriminate.
    + unfold bind, ret, closeSync. case_bool_decide; discriminate.
    + intros [= <-]. apply pollActivity_out_of_fuel in E. cbn in E. exact E.
Qed.

End Fuel.

(** ** Resolution of a tab identifier *)

Section Resolution.

Variable env : Env.

(** C6: [resolveTabIndex] tries the numeric literal, then the alias, then
    the name. A number is returned as it is; a string that [parseInt]
    reads as an integer resolves to that integer and nothing is looked up
    (the machine, and with it the trace of channel calls, is unchanged);
    otherwise an alias of the window resolves to its tab, again without a
    channel call, whatever the names of the tabs are; otherwise the tabs
    are listed and the string resolves to the index of the first listed
    tab that has it as its name; and the call throws only when the string
    is not numeric, is not an alias and the lookup by name finds no tab or
    fails. *)
Theorem resolveTabIndex_order (windowId s : string) (st : Machine) :
  (forall n, TabManager.resolveTabIndex env windowId (TabManager.ByNumber n) st
             = (Return n, st)) /\
  (forall z, JS.parseInt s = JS.Num z ->
     TabManager.resolveTabIndex env windowId (TabManager.ByString s) st
     = (Return (JS.Num z), st)) /\
  (forall i, JS.parseInt s = JS.NaN ->
     fst (TabManager.getTabIndexByAlias windowId s st) = Return (Some i) ->
     TabManager.resolveTabIndex env windowId (TabManager.ByString s) st = (Return i, st)) /\
  (forall e st',
     TabManager.resolveTabIndex env windowId (TabManager.ByString s) st = (Throw e, st') ->
     JS.parseInt s = JS.NaN /\
     fst (TabManager.getTabIndexByAlias windowId s st) = Return None /\
     forall i, fst (TabManager.getTabIndex env windowId s st) <> Return (Some i)) /\
  (JS.parseInt s = JS.NaN ->
   fst (TabManager.getTabIndexByAlias windowId s st) = Return None ->
   fst (TabManager.getTabIndex env windowId s st) = Return None ->
   fst (TabManager.resolveTabIndex env windowId (TabManager.ByString s) st)
   = Throw ("Tab not found: " +:+ s)) /\
  (JS.parseInt s = JS.NaN ->
   fst (TabManager.getTabIndexByAlias windowId s st) = Return None ->
   TabManager.resolveTabIndex env windowId (TabManager.ByString s) st
   = match TabManager.listTabs env windowId st with
     | (Return tabs, st1) =>
         (match List.find (fun tab => String.eqb (TabManager.name tab) s) tabs with
          | Some tab => Return (TabManager.index tab)
          | None => Throw ("Tab not found: " +:+ s)
          end, st1)
     | (Throw e, st1) => (Throw e, st1)
     | (OutOfFuel, st1) => (OutOfFuel, st1)
     end).
Proof.
  split; [reflexivity |].
  unfold TabManager.resolveTabIndex.
  split; [intros z ->; reflexivity |].
  split.
  { intros i -> Halias. unfold bind.
    unfold TabManager.getTabIndexByAlias, gets in *. cbn [fst] in Halias.
    injection Halias as ->. reflexivity. }
  split.
  { intros e st'. destruct (JS.parseInt s) as [|z]; [| discriminate].
    unfold bind. unfold TabManager.getTabIndexByAlias at 1, gets at 1.
    unfold TabManager.getTabIndexByAlias, gets. cbn [fst].
    destruct (match tabAliases st !! windowId with
              | Some windowAliases => TabManager.first_with_alias s windowAliases
              | None => None
              end) as [i|]; [discriminate |].
    intros Hrun. split; [reflexivity |]. split; [reflexivity |].
    intros i Hname.
    destruct (TabManager.getTabIndex env windowId s st) as [[[j|]|e'|] st1];
      cbn [fst] in Hname; try discriminate Hname. discriminate Hrun. }
  split.
  { intros -> Halias Hname. unfold bind.
    unfold TabManager.getTabIndexByAlias, gets in *. cbn [fst] in Halias.
    injection Halias as ->.
    destruct (TabManager.getTabIndex env windowId s st) as [[[j|]|e'|] st1];
      cbn [fst] in Hname; try discriminate Hname. reflexivity. }
  intros -> Halias. unfold bind.
  unfold TabManager.getTabIndexByAlias, gets in *. cbn [fst] in Halias.
  injection Halias as ->.
  unfold TabManager.getTabIndex, bind, ret.
  destruct (TabManager.listTabs env windowId st) as [[tabs|e'|] st1]; [| reflexivity ..].
  destruct (List.find (fun tab => String.eqb (TabManager.name tab) s) tabs);
    reflexivity.
Qed.

End Resolution.

Lemma resolveTabIndex_order_witness :
  TabManager.resolveTabIndex threeTabs "w" (TabManager.ByString "x") aliasedMachine
    = (Return (JS.Num 2), aliasedMachine) /\
  fst (TabManager.getTabIndex threeTabs "w" "x" aliasedMachine) = Return (Some (JS.Num 0)) /\
  TabManager.resolveTabIndex threeTabs "w" (TabManager.ByString "0") aliasedMachine
    = (Return (JS.Num 0), aliasedMachine) /\
  fst (TabManager.resolveTabIndex threeTabs "w" (TabManager.ByString "y") aliasedMachine)
    = Return (JS.Num 1) /\
  fst (TabManager.resolveTabIndex threeTabs "w" (TabManager.ByString "v") aliasedMachine)
    = Throw "Tab not found: v".
Proof.
  split; [| split; [| split; [| split]]].
  - apply (proj1 (proj2 (proj2 (resolveTabIndex_order threeTabs "w" "x" aliasedMachine))));
      vm_compute; reflexivity.
  - vm_compute; reflexivity.
  - apply (proj1 (proj2 (resolveTabIndex_order threeTabs "w" "0" aliasedMachine)));
      vm_compute; reflexivity.
  - rewrite (proj2 (proj2 (proj2 (proj2 (proj2
               (resolveTabIndex_order threeTabs "w" "y" aliasedMachine))))));
      vm_compute; reflexivity.
  - rewrite (proj2 (proj2 (proj2 (proj2 (proj2
               (resolveTabIndex_order threeTabs "w" "v" aliasedMachine))))));
      vm_compute; reflexivity.
Defined.

(** ** The alias tables *)

Lemma same_value_zero_true (a b : JS.jsnum) : JS.same_value_zero a b = true <-> a = b.
Proof. unfold JS.same_value_zero. apply bool_decide_eq_true. Qed.

Lemma same_value_zero_false (a b : JS.jsnum) : JS.same_value_zero a b = false <-> a <> b.
Proof. unfold JS.same_value_zero. apply bool_decide_eq_false. Qed.

Lemma map_set_keys (k : JS.jsnum) (v : string) (m : list (JS.jsnum * string)) :
  (TabManager.map_set k v m).*1
  = if bool_decide (k ∈ m.*1) then m.*1 else (m.*1 ++ [k])%list.
Proof.
  induction m as [|[k' v'] m IH]; [reflexivity |].
  cbn [TabManager.map_set].
  destruct (JS.same_value_zero k' k) eqn:E.
  - apply same_value_zero_true in E. subst k'. rewrite !fmap_cons. cbn [fst].
    rewrite bool_decide_eq_true_2 by apply list_elem_of_here. reflexivity.
  - apply same_value_zero_false in E. rewrite !fmap_cons. cbn [fst]. rewrite IH.
    destruct (bool_decide (k ∈ m.*1)) eqn:Hin.
    + apply bool_decide_eq_true in Hin.
      rewrite bool_decide_eq_true_2 by (apply list_elem_of_further; exact Hin).
      reflexivity.
    + apply bool_decide_eq_false in Hin.
      rewrite bool_decide_eq_false_2; [reflexivity |].
      rewrite not_elem_of_cons. split; [congruence | exact Hin].
Qed.

Lemma map_set_NoDup (k : JS.jsnum) (v : string) (m : list (JS.jsnum * string)) :
  NoDup m.*1 -> NoDup (TabManager.map_set k v m).*1.
Proof.
  intros H. rewrite map_set_keys. case_bool_decide as Hin; [exact H |].
  apply NoDup_app. split; [exact H |]. split.
  - intros x Hx Hk. apply list_elem_of_singleton in Hk. subst x. contradiction.
  - apply NoDup_singleton.
Qed.

Lemma map_delete_keys (k : JS.jsnum) (m : list (JS.jsnum * string)) :
  (TabManager.map_delete k m).*1 = filter (fun x => x <> k) m.*1.
Proof.
  induction m as [|[k' v'] m IH]; [reflexivity |].
  cbn [TabManager.map_delete]. rewrite fmap_cons. cbn [fst].
  destruct (JS.same_value_zero k' k) eqn:E.
  - apply same_value_zero_true in E. subst k'.
    rewrite filter_cons_False by (intros H; apply H; reflexivity). exact IH.
  - apply same_value_zero_false in E.
    rewrite filter_cons_True by exact E. rewrite fmap_cons. cbn [fst].
    rewrite IH. reflexivity.
Qed.

Lemma map_delete_NoDup (k : JS.jsnum) (m : list (JS.jsnum * string)) :
  NoDup m.*1 -> NoDup (TabManager.map_delete k m).*1.
Proof. intros H. rewrite map_delete_keys. apply NoDup_filter. exact H. Qed.

Lemma runAliasOperation_indexedOnce (op : AliasOperation) (st : Machine) (w : string) :
  indexedOnce st w -> indexedOnce (snd (runAliasOperation op st)) w.
Proof.
  intros Hst l. destruct op as [w' i a|w' i|w']; simpl.
  - destruct (tabAliases st !! w') as [l'|] eqn:Hw'.
    + rewrite lookup_alter. case_decide as Hww.
      * subst w'. rewrite Hw'. simpl. intros [= <-].
        apply map_set_NoDup. apply Hst. exact Hw'.
      * apply Hst.
    + rewrite lookup_alter. case_decide as Hww.
      * subst w'. rewrite lookup_insert_eq. simpl. intros [= <-].
        simpl. apply NoDup_singleton.
      * rewrite lookup_insert_ne by exact Hww. apply Hst.
  - rewrite lookup_alter. case_decide as Hww.
    + subst w'. destruct (tabAliases st !! w) as [l'|] eqn:Hw; simpl; [| discriminate].
      intros [= <-]. apply map_delete_NoDup. apply Hst. exact Hw.
    + apply Hst.
  - destruct (decide (w' = w)) as [->|Hww].
    + rewrite lookup_delete_eq. discriminate.
    + rewrite lookup_delete_ne by exact Hww. apply Hst.
Qed.

Lemma runAliasOperation_other_window (op : AliasOperation) (st : Machine) (w : string) :
  operationWindow op <> w ->
  tabAliases (snd (runAliasOperation op st)) !! w = tabAliases st !! w.
Proof.
  intros Hw. destruct op as [w' i a|w' i|w']; simpl in *.
  - rewrite lookup_alter_ne by exact Hw.
    destruct (tabAliases st !! w'); [reflexivity |].
    rewrite lookup_insert_ne by exact Hw. reflexivity.
  - rewrite lookup_alter_ne by exact Hw. reflexivity.
  - rewrite lookup_delete_ne by exact Hw. reflexivity.
Qed.

Lemma runAliasOperations_cons (op : AliasOperation) (ops : list AliasOperation) (st : Machine) :
  snd (runAliasOperations (op :: ops) st)
  = snd (runAliasOperations ops (snd (runAliasOperation op st))).
Proof.
  simpl. unfold bind.
  destruct op; reflexivity.
Qed.

(** C7, as stated, fails: after two [setTabAlias] calls on one window,
    the tabs 0 and 1 of that window hold the same alias. *)
Lemma alias_shared_by_two_tabs :
  holdsAlias sharedAlias "w" (JS.Num 0) "x" /\
  holdsAlias sharedAlias "w" (JS.Num 1) "x" /\
  JS.Num 0 <> JS.Num 1.
Proof.
  split; [vm_compute; reflexivity |]. split; [vm_compute; reflexivity |].
  intros H. discriminate H.
Qed.

(** The same alias in two windows: each window has its own table. *)
Example same_alias_in_two_windows :
  holdsAlias
    (snd (runAliasOperations
            [SetTabAlias "w" (JS.Num 0) "x"; SetTabAlias "v" (JS.Num 3) "x"] freshMachine))
    "w" (JS.Num 0) "x" /\
  holdsAlias
    (snd (runAliasOperations
            [SetTabAlias "w" (JS.Num 0) "x"; SetTabAlias "v" (JS.Num 3) "x"] freshMachine))
    "v" (JS.Num 3) "x".
Proof. split; vm_compute; reflexivity. Qed.

(** C7, amended: the alias table of a window is keyed by tab index. After
    any sequence of [setTabAlias], [removeTabAlias] and
    [clearWindowAliases], every tab index occurs at most once in the table
    of a window (so a tab holds at most one alias, while one alias may be
    held by several tabs), and the table of a window that none of the
    operations named is unchanged (tables are scoped per window). *)
Theorem alias_table_keyed_by_tab_index (ops : list AliasOperation)
    (st : Machine) (w : string) :
  indexedOnce st w ->
  indexedOnce (snd (runAliasOperations ops st)) w /\
  (Forall (fun op => operationWindow op <> w) ops ->
   tabAliases (snd (runAliasOperations ops st)) !! w = tabAliases st !! w).
Proof.
  revert st. induction ops as [|op ops IH]; intros st Hst.
  - split; [exact Hst | reflexivity].
  - rewrite runAliasOperations_cons.
    destruct (IH (snd (runAliasOperation op st))) as [IH1 IH2].
    { apply runAliasOperation_indexedOnce. exact Hst. }
    split; [exact IH1 |].
    intros Hall. apply Forall_cons in Hall as [Hop Hall].
    rewrite IH2 by exact Hall. apply runAliasOperation_other_window. exact Hop.
Qed.

Lemma alias_table_keyed_by_tab_index_witness :
  indexedOnce freshMachine "w" /\
  indexedOnce
    (snd (runAliasOperations
            [SetTabAlias "w" (JS.Num 0) "x"; SetTabAlias "w" (JS.Num 1) "x";
             SetTabAlias "v" (JS.Num 0) "x"; RemoveTabAlias "w" (JS.Num 0)] freshMachine)) "w".
Proof.
  assert (H0 : indexedOnce freshMachine "w") by (intros l; vm_compute; discriminate).
  split; [exact H0 |].
  exact (proj1 (alias_table_keyed_by_tab_index _ freshMachine "w" H0)).
Defined.

(** ** Ending a session *)

Section EndSession.

Variable env : Env.

(** Window identifiers are registered by [createSession] only, which
    refuses the empty string. *)
Lemma createSession_registers_nonempty (clientId : string) (workingDir : option string)
    (st st' : Machine) (windowId : string) :
  SessionManager.createSession env clientId workingDir st = (Return windowId, st') ->
  windowId <> "" /\ sessionWindowMap st' !! clientId = Some windowId.
Proof.
  unfold SessionManager.createSession, try_catch, bind, exec.
  destruct (exec_reply env (execs st) CreateWindow) as [out|e]; [| discriminate].
  destruct (String.eqb (JS.trim out) "") eqn:E; [discriminate |].
  intros [= <- <-]. split.
  - intros H. rewrite H in E. discriminate E.
  - cbn. apply lookup_insert_eq.
Qed.

Lemma getWindowId_nonempty (clientId w : string) (st : Machine) :
  sessionWindowMap st !! clientId = Some w -> w <> "" ->
  SessionManager.getWindowId clientId st = (Return (Some w), st).
Proof.
  intros Hw Hne. unfold SessionManager.getWindowId, gets. rewrite Hw.
  destruct w as [|c rest]; [contradiction | reflexivity].
Qed.

Lemma getWindowId_absent (clientId : string) (st : Machine) :
  sessionWindowMap st !! clientId = None ->
  SessionManager.getWindowId clientId st = (Return None, st).
Proof. intros Hw. unfold SessionManager.getWindowId, gets. rewrite Hw. reflexivity. Qed.

Lemma endSession_outcome (clientId : string) (st : Machine) :
  fst (SessionManager.endSession env clientId st) = Return tt /\
  (sessionWindowMap st !! clientId = None ->
   snd (SessionManager.endSession env clientId st) = st) /\
  (forall w, sessionWindowMap st !! clientId = Some w -> w <> "" ->
     let st' := snd (SessionManager.endSession env clientId st) in
     trace st' = (trace st ++ [Exec (CloseWindow w)])%list /\
     sessionWindowMap st' !! clientId = None /\
     sessionPathMap st' !! clientId = None /\
     sessionTabMap st' !! clientId = None).
Proof.
  split; [| split].
  - unfold SessionManager.endSession, bind, SessionManager.getWindowId, gets.
    destruct (sessionWindowMap st !! clientId) as [[|c rest]|]; try reflexivity.
    unfold try_catch, exec.
    destruct (exec_reply env (execs st) (CloseWindow (String c rest))); reflexivity.
  - intros Hw. unfold SessionManager.endSession.
    rewrite (bind_run _ _ _ _ _ (getWindowId_absent _ _ Hw)). reflexivity.
  - intros w Hw Hne st'. subst st'. unfold SessionManager.endSession.
    rewrite (bind_run _ _ _ _ _ (getWindowId_nonempty _ _ _ Hw Hne)).
    unfold try_catch, bind, exec.
    destruct (exec_reply env (execs st) (CloseWindow w)); cbn;
      rewrite !lookup_delete_eq; repeat split; reflexivity.
Qed.

(** C8: [endSession] never throws. For a client without a session it
    changes nothing and calls nothing; for a client with a session it asks
    the channel once to close the window, and whether that call succeeds
    or fails, the client is gone from the window map, the path map and the
    tab map. *)
Theorem endSession_never_throws (clientId : string) (st : Machine) :
  fst (SessionManager.endSession env clientId st) = Return tt /\
  (sessionWindowMap st !! clientId = None ->
   snd (SessionManager.endSession env clientId st) = st) /\
  (forall w, sessionWindowMap st !! clientId = Some w -> w <> "" ->
     let st' := snd (SessionManager.endSession env clientId st) in
     trace st' = (trace st ++ [Exec (CloseWindow w)])%list /\
     sessionWindowMap st' !! clientId = None /\
     sessionPathMap st' !! clientId = None /\
     sessionTabMap st' !! clientId = None).
Proof. exact (endSession_outcome clientId st). Qed.

End EndSession.

Lemma endSession_never_throws_witness :
  sessionWindowMap (oneSession closedByHand) !! "c1" = Some "12345" /\
  sessionPathMap (oneSession closedByHand) !! "c1" = Some "/p" /\
  trace (snd (SessionManager.endSession closedByHand "c1" (oneSession closedByHand)))
    = [Exec CreateWindow; Exec (CloseWindow "12345")] /\
  sessionWindowMap (snd (SessionManager.endSession closedByHand "c1" (oneSession closedByHand)))
    !! "c1" = None /\
  sessionPathMap (snd (SessionManager.endSession closedByHand "c1" (oneSession closedByHand)))
    !! "c1" = None /\
  sessionTabMap (snd (SessionManager.endSession closedByHand "c1" (oneSession closedByHand)))
    !! "c1" = None.
Proof.
  split; [vm_compute; reflexivity |]. split; [vm_compute; reflexivity |].
  apply (proj2 (proj2 (endSession_never_throws closedByHand "c1" (oneSession closedByHand)))
           "12345").
  - vm_compute; reflexivity.
  - intros H. discriminate H.
Defined.

(** ** Closing tabs *)

Lemma windowKept_refl (st : Machine) : windowKept st st.
Proof. split; [apply emits_refl | reflexivity]. Qed.

Lemma windowKept_trans (a b c : Machine) :
  windowKept a b -> windowKept b c -> windowKept a c.
Proof.
  intros [E1 W1] [E2 W2]. split; [eapply emits_trans; eassumption | congruence].
Qed.

Section WindowKept.

Variable env : Env.

Lemma windowKept_exec (c : Command) :
  notCloseWindow (Exec c) -> keeps windowKept (exec env c).
Proof.
  intros Hc st. split; [apply (keeps_exec env notCloseWindow c Hc) |].
  unfold exec. destruct (exec_reply env (execs st) c); reflexivity.
Qed.

Lemma windowKept_modify (f : Machine -> Machine) :
  (forall st, trace (f st) = trace st) ->
  (forall st, sessionWindowMap (f st) = sessionWindowMap st) ->
  keeps windowKept (modify f).
Proof.
  intros Ht Hw st. split; [apply keeps_modify; exact Ht | apply Hw].
Qed.

End WindowKept.

Ltac keeps_window :=
  repeat match goal with
  | |- keeps windowKept (ret _) => apply keeps_ret, windowKept_refl
  | |- keeps windowKept (throw _) => apply keeps_throw, windowKept_refl
  | |- keeps windowKept (gets _) => apply keeps_gets, windowKept_refl
  | |- keeps windowKept (bind _ _) =>
      apply keeps_bind; [apply windowKept_trans | | intros ?]
  | |- keeps windowKept (try_catch _ _) =>
      apply keeps_try_catch; [apply windowKept_trans | | intros ?]
  | |- keeps windowKept (exec _ _) => apply windowKept_exec; exact I
  | |- keeps windowKept (modify _) =>
      apply windowKept_modify; intros ?; reflexivity
  | |- keeps windowKept (match ?x with _ => _ end) => destruct x
  | |- _ => assumption
  end.

Section CloseTabs.

Variable env : Env.

Lemma parseTabs_windowKept (windowId : string) (tabStrings : list string) :
  keeps windowKept (TabManager.parseTabs windowId tabStrings).
Proof.
  induction tabStrings as [|tabString rest IH]; cbn [TabManager.parseTabs].
  - keeps_window.
  - unfold TabManager.parseTab, TabManager.getTabAlias. keeps_window.
Qed.

Lemma listTabs_windowKept (windowId : string) :
  keeps windowKept (TabManager.listTabs env windowId).
Proof.
  unfold TabManager.listTabs. keeps_window. apply parseTabs_windowKept.
Qed.

Lemma resolveTabIndex_windowKept (windowId : string)
    (tabIdentifier : TabManager.TabIdentifier) :
  keeps windowKept (TabManager.resolveTabIndex env windowId tabIdentifier).
Proof.
  unfold TabManager.resolveTabIndex, TabManager.getTabIndexByAlias,
    TabManager.getTabIndex.
  keeps_window; apply listTabs_windowKept.
Qed.

Lemma closeSessionTab_windowKept (clientId : string)
    (tabIdentifier : TabManager.TabIdentifier) :
  keeps windowKept (SessionManager.closeSessionTab env clientId tabIdentifier).
Proof.
  unfold SessionManager.closeSessionTab, SessionManager.getWindowId,
    TabManager.closeTab, SessionManager.setSessionTab, SessionManager.deleteSessionTab.
  keeps_window;
    first [apply resolveTabIndex_windowKept | apply listTabs_windowKept].
Qed.





End CloseTabs.


(** * Further properties of the sources *)

(** ** Strings: splitting, joining and replacing *)

Lemma app_cons (a : ascii) (x y : string) : String a x +:+ y = String a (x +:+ y).
Proof. reflexivity. Qed.

Lemma chars_app (x y : string) : chars (x +:+ y) = (chars x ++ chars y)%list.
Proof.
  unfold chars. induction x as [|a x IH]; [reflexivity |].
  rewrite app_cons. cbn [list_ascii_of_string]. rewrite IH. reflexivity.
Qed.

Lemma app_empty_r (x : string) : x +:+ "" = x.
Proof.
  induction x as [|a x IH]; [reflexivity | rewrite app_cons, IH; reflexivity].
Qed.

Lemma app_assoc_string (x y z : string) : (x +:+ y) +:+ z = x +:+ (y +:+ z).
Proof.
  induction x as [|a x IH]; [reflexivity | rewrite !app_cons, IH; reflexivity].
Qed.

Lemma join_cons (sep x y : string) (l : list string) :
  JS.join sep (x :: y :: l) = x +:+ sep +:+ JS.join sep (y :: l).
Proof. reflexivity. Qed.

Lemma split_go_skip (sep x t : string) :
  JS.split_go sep (String.length x) (x +:+ t) = JS.split_go sep 0 t.
Proof. induction x as [|a x IH]; [reflexivity | exact IH]. Qed.

Lemma prefix_app (x t : string) : String.prefix x (x +:+ t) = true.
Proof.
  induction x as [|a x IH]; [destruct t; reflexivity |].
  rewrite app_cons. cbn [String.prefix].
  destruct (ascii_dec a a) as [_|N]; [exact IH | contradiction].
Qed.

(** A piece without the first character of the separator is split off
    whole. *)
Lemma split_go_piece (c : ascii) (sep' piece t : string) :
  c ∉ chars piece ->
  JS.split_go (String c sep') 0 (piece +:+ String c sep' +:+ t)
  = piece :: JS.split_go (String c sep') 0 t.
Proof.
  intros Hc. induction piece as [|a piece IH].
  - change ("" +:+ String c sep' +:+ t) with (String c (sep' +:+ t)).
    cbn [JS.split_go].
    rewrite (prefix_app (String c sep') t : String.prefix _ (String c (sep' +:+ t)) = true).
    cbn [String.length Nat.sub]. rewrite Nat.sub_0_r, split_go_skip. reflexivity.
  - apply not_elem_of_cons in Hc as [Hac Hc].
    change (String a piece +:+ String c sep' +:+ t)
      with (String a (piece +:+ String c sep' +:+ t)).
    cbn [JS.split_go]. rewrite (IH Hc).
    cbn [String.prefix]. destruct (ascii_dec c a) as [->|_]; [contradiction | reflexivity].
Qed.

Lemma split_go_last (c : ascii) (sep' piece : string) :
  c ∉ chars piece -> JS.split_go (String c sep') 0 piece = [piece].
Proof.
  intros Hc. induction piece as [|a piece IH]; [reflexivity |].
  apply not_elem_of_cons in Hc as [Hac Hc].
  cbn [JS.split_go]. rewrite (IH Hc).
  cbn [String.prefix]. destruct (ascii_dec c a) as [->|_]; [contradiction | reflexivity].
Qed.

(** Joining and splitting again gives the pieces back. *)
Lemma split_join (c : ascii) (sep' : string) (pieces : list string) :
  pieces <> [] ->
  Forall (fun piece => c ∉ chars piece) pieces ->
  JS.split (String c sep') (JS.join (String c sep') pieces) = pieces.
Proof.
  unfold JS.split. intros Hne Hall.
  induction Hall as [|piece rest Hpiece Hrest IH]; [contradiction |].
  destruct rest as [|next rest].
  - apply split_go_last, Hpiece.
  - rewrite join_cons, (split_go_piece _ _ _ _ Hpiece), IH; [reflexivity |].
    intros H; discriminate H.
Qed.

(** Splitting at a character and joining again gives the string back. *)
Lemma join_split (c : ascii) (s : string) :
  JS.join (String c "") (JS.split (String c "") s) = s.
Proof.
  unfold JS.split. induction s as [|a s IH]; [reflexivity |].
  cbn [JS.split_go String.prefix String.length].
  pose proof (split_go_nonempty (String c "") 0 s) as Hne.
  destruct (ascii_dec c a) as [->|Hca].
  - replace (String.prefix "" s) with true by (destruct s; reflexivity).
    cbn [Nat.sub].
    destruct (JS.split_go (String a "") 0 s) as [|piece rest] eqn:E; [contradiction |].
    rewrite join_cons, IH. reflexivity.
  - destruct (JS.split_go (String c "") 0 s) as [|piece rest] eqn:E; [contradiction |].
    destruct rest as [|next rest].
    + cbn in IH |- *. rewrite IH. reflexivity.
    + rewrite join_cons in IH |- *. rewrite app_cons, IH. reflexivity.
Qed.

(** No piece of a split at a character holds that character. *)
Lemma split_pieces (c : ascii) (s : string) :
  Forall (fun piece => c ∉ chars piece) (JS.split (String c "") s).
Proof.
  unfold JS.split. induction s as [|a s IH].
  - constructor; [apply not_elem_of_nil | constructor].
  - cbn [JS.split_go String.prefix String.length].
    destruct (ascii_dec c a) as [->|Hca].
    + replace (String.prefix "" s) with true by (destruct s; reflexivity).
      constructor; [apply not_elem_of_nil | exact IH].
    + destruct (JS.split_go (String c "") 0 s) as [|piece rest].
      * constructor; [| constructor].
        apply not_elem_of_cons. split; [exact Hca | apply not_elem_of_nil].
      * inversion IH as [|? ? Hp Hr]; subst. constructor; [| exact Hr].
        apply not_elem_of_cons. split; [exact Hca | exact Hp].
Qed.

Lemma join_absent (c : ascii) (sep : string) (pieces : list string) :
  c ∉ chars sep ->
  Forall (fun piece => c ∉ chars piece) pieces ->
  c ∉ chars (JS.join sep pieces).
Proof.
  intros Hsep Hall. induction Hall as [|piece rest Hpiece Hrest IH].
  - apply not_elem_of_nil.
  - destruct rest as [|next rest]; [exact Hpiece |].
    rewrite join_cons, !chars_app, !not_elem_of_app. auto.
Qed.

Lemma replaceAll_distributes (c : ascii) (replacement : string) :
  distributes (JS.replaceAll c replacement).
Proof.
  split; [reflexivity |]. intros x y.
  induction x as [|a x IH]; [reflexivity |].
  rewrite app_cons. cbn [JS.replaceAll].
  destruct (Ascii.eqb a c); rewrite IH;
    [rewrite app_assoc_string | rewrite app_cons]; reflexivity.
Qed.

Lemma replaceClass_distributes (class : ascii -> bool) (replacer : ascii -> string) :
  distributes (JS.replaceClass class replacer).
Proof.
  split; [reflexivity |]. intros x y.
  induction x as [|a x IH]; [reflexivity |].
  rewrite app_cons. cbn [JS.replaceClass].
  destruct (class a); rewrite IH;
    [rewrite app_assoc_string | rewrite app_cons]; reflexivity.
Qed.

Lemma distributes_compose (f g : string -> string) :
  distributes f -> distributes g -> distributes (fun s => g (f s)).
Proof.
  intros [Hf0 Hf] [Hg0 Hg]. split.
  - rewrite Hf0. exact Hg0.
  - intros x y. rewrite Hf, Hg. reflexivity.
Qed.

Section PerCharacter.

Variable f : string -> string.
Hypothesis Hf : distributes f.

Lemma distributes_cons (a : ascii) (s : string) :
  f (String a s) = f (String a "") +:+ f s.
Proof. exact (proj2 Hf (String a "") s). Qed.

Lemma distributes_Forall (Q : ascii -> Prop) :
  (forall a, Forall Q (chars (f (String a "")))) ->
  forall s, Forall Q (chars (f s)).
Proof.
  intros Hone s. induction s as [|a s IH].
  - rewrite (proj1 Hf). constructor.
  - rewrite distributes_cons, chars_app. apply Forall_app. split; [apply Hone | exact IH].
Qed.

Lemma distributes_never (c : ascii) :
  (forall a, c ∉ chars (f (String a ""))) ->
  forall s, c ∉ chars (f s).
Proof.
  intros Hone s. induction s as [|a s IH].
  - rewrite (proj1 Hf). apply not_elem_of_nil.
  - rewrite distributes_cons, chars_app, not_elem_of_app. split; [apply Hone | exact IH].
Qed.

Lemma distributes_absent (c : ascii) :
  (forall a, a <> c -> c ∉ chars (f (String a ""))) ->
  forall s, c ∉ chars s -> c ∉ chars (f s).
Proof.
  intros Hone s. induction s as [|a s IH]; intros Hs.
  - rewrite (proj1 Hf). apply not_elem_of_nil.
  - apply not_elem_of_cons in Hs as [Hac Hs].
    rewrite distributes_cons, chars_app, not_elem_of_app.
    split; [apply Hone; congruence | exact (IH Hs)].
Qed.

Lemma distributes_staysQuoted :
  (forall a rest, staysQuoted (f (String a "") +:+ rest) = staysQuoted rest) ->
  forall s, staysQuoted (f s) = true.
Proof.
  intros Hone s. induction s as [|a s IH].
  - rewrite (proj1 Hf). reflexivity.
  - rewrite distributes_cons, Hone. exact IH.
Qed.

Lemma distributes_identity (s : string) :
  Forall (fun a => f (String a "") = String a "") (chars s) -> f s = s.
Proof.
  induction s as [|a s IH]; intros Hs.
  - exact (proj1 Hf).
  - inversion Hs as [|? ? Ha Hs']; subst.
    rewrite distributes_cons, Ha, (IH Hs'). reflexivity.
Qed.

End PerCharacter.

Lemma absent_forallb (c : ascii) (l : list ascii) :
  forallb (fun x => negb (Ascii.eqb x c)) l = true -> c ∉ l.
Proof.
  induction l as [|a l IH]; intros H; [apply not_elem_of_nil |].
  cbn in H. apply andb_true_iff in H as [Ha Hl].
  apply not_elem_of_cons. split; [| exact (IH Hl)].
  intros ->. rewrite Ascii.eqb_refl in Ha. discriminate Ha.
Qed.

Lemma Forall_forallb (p : ascii -> bool) (l : list ascii) :
  forallb p l = true -> Forall (fun c => p c = true) l.
Proof.
  induction l as [|a l IH]; intros H; [constructor |].
  cbn in H. apply andb_true_iff in H as [Ha Hl].
  constructor; [exact Ha | exact (IH Hl)].
Qed.

Ltac each_char a := destruct a as [[] [] [] [] [] [] [] []].

(** ** [CommandExecutor]: escaping the command *)

Lemma escapeAppleScriptString_distributes :
  distributes CommandExecutor.escapeAppleScriptString.
Proof.
  unfold CommandExecutor.escapeAppleScriptString.
  apply (distributes_compose (fun s => JS.replaceAll _ _ (JS.replaceAll _ _ s))
           (JS.replaceAll _ _)); [| apply replaceAll_distributes].
  apply (distributes_compose (JS.replaceAll _ _) (JS.replaceAll _ _));
    apply replaceAll_distributes.
Qed.

(** X1: whatever the line, its escaped form stays inside the double quotes
    put around it, and holds no tab character. *)
Theorem escapeAppleScriptString_stays_quoted (str : string) :
  staysQuoted (CommandExecutor.escapeAppleScriptString str) = true /\
  JS.TAB ∉ chars (CommandExecutor.escapeAppleScriptString str).
Proof.
  split.
  - apply (distributes_staysQuoted _ escapeAppleScriptString_distributes).
    intros a rest. each_char a; reflexivity.
  - apply (distributes_never _ escapeAppleScriptString_distributes).
    intros a. apply absent_forallb. each_char a; reflexivity.
Qed.

Lemma quoted_absent (c : ascii) (line : string) :
  c <> JS.dquote ->
  c ∉ chars (CommandExecutor.escapeAppleScriptString line) ->
  c ∉ chars (CommandExecutor.quoted line).
Proof.
  intros Hc Hline. unfold CommandExecutor.quoted.
  change (chars (String ?a ?s)) with (a :: chars s).
  rewrite chars_app. apply not_elem_of_cons. split; [exact Hc |].
  apply not_elem_of_app. split; [exact Hline |].
  apply not_elem_of_cons. split; [exact Hc | apply not_elem_of_nil].
Qed.

Lemma fold_left_join (sep : string) (q : string -> string) (others : list string) :
  forall first acc,
    fold_left (fun applescriptString line => applescriptString +:+ sep +:+ q line)
      others (acc +:+ q first)
    = acc +:+ JS.join sep (map q (first :: others)).
Proof.
  induction others as [|o os IH]; intros first acc; [reflexivity |].
  cbn [fold_left].
  replace ((acc +:+ q first) +:+ sep +:+ q o) with ((acc +:+ q first +:+ sep) +:+ q o)
    by (rewrite !app_assoc_string; reflexivity).
  rewrite IH. cbn [map]. rewrite (join_cons sep (q first)), !app_assoc_string.
  reflexivity.
Qed.

Lemma prepareMultilineCommand_join (str : string) :
  CommandExecutor.prepareMultilineCommand str
  = JS.join " & return & " (map CommandExecutor.quoted (JS.split JS.LF str)).
Proof.
  unfold CommandExecutor.prepareMultilineCommand.
  pose proof (split_go_nonempty JS.LF 0 str) as Hne. fold (JS.split JS.LF str) in Hne.
  destruct (JS.split JS.LF str) as [|first others]; [contradiction |].
  exact (fold_left_join " & return & " CommandExecutor.quoted others first "").
Qed.

Lemma prepareMultilineCommand_no_line_feed (str : string) :
  JS.LFchar ∉ chars (CommandExecutor.prepareMultilineCommand str).
Proof.
  rewrite prepareMultilineCommand_join.
  apply join_absent; [apply absent_forallb; reflexivity |].
  apply Forall_map.
  eapply Forall_impl; [exact (split_pieces JS.LFchar str) |].
  intros line Hline. apply quoted_absent; [intros H; discriminate H |].
  revert Hline. apply (distributes_absent _ escapeAppleScriptString_distributes).
  intros a Ha. apply absent_forallb.
  each_char a; first [reflexivity | exfalso; apply Ha; reflexivity].
Qed.

Lemma escapeSingleLine_distributes : distributes CommandExecutor.escapeSingleLine.
Proof.
  unfold CommandExecutor.escapeSingleLine.
  apply (distributes_compose
           (fun s => JS.replaceAll _ _ (JS.replaceAll _ _ (JS.replaceAll _ _ s)))
           (JS.replaceClass _ _)); [| apply replaceClass_distributes].
  apply (distributes_compose (fun s => JS.replaceAll _ _ (JS.replaceAll _ _ s))
           (JS.replaceAll _ _)); [| apply replaceAll_distributes].
  apply (distributes_compose (JS.replaceAll _ _) (JS.replaceAll _ _));
    apply replaceAll_distributes.
Qed.

Lemma escapeSingleLine_printable (str : string) :
  Forall (fun c => JS.printable c = true) (chars (CommandExecutor.escapeSingleLine str)).
Proof.
  apply (distributes_Forall _ escapeSingleLine_distributes).
  intros a. apply Forall_forallb. each_char a; reflexivity.
Qed.

Lemma escapeSingleLine_staysQuoted (str : string) :
  staysQuoted (CommandExecutor.escapeSingleLine str) = true.
Proof.
  apply (distributes_staysQuoted _ escapeSingleLine_distributes).
  intros a rest. each_char a; reflexivity.
Qed.

(** X2: a command on one line is sent as printable ASCII only, and its
    escaped form stays inside the double quotes that the script puts
    around it. *)
Theorem escapeForAppleScript_single_line (str : string) :
  JS.includes JS.LF str = false ->
  Forall (fun c => JS.printable c = true)
    (chars (CommandExecutor.escapeForAppleScript str)) /\
  staysQuoted (CommandExecutor.escapeForAppleScript str) = true.
Proof.
  intros Hline. unfold CommandExecutor.escapeForAppleScript. rewrite Hline.
  split; [apply escapeSingleLine_printable | apply escapeSingleLine_staysQuoted].
Qed.

Lemma escapeForAppleScript_single_line_witness :
  JS.includes JS.LF (String JS.squote ("a" +:+ String JS.TAB (String JS.dquote ""))) = false /\
  CommandExecutor.escapeForAppleScript
    (String JS.squote ("a" +:+ String JS.TAB (String JS.dquote "")))
  = String JS.squote (String JS.backslash (String JS.squote (String JS.squote
      ("a" +:+ String JS.backslash ("u0009" +:+ String JS.backslash (String JS.dquote ""))))))
  /\
  (Forall (fun c => JS.printable c = true)
     (chars (CommandExecutor.escapeForAppleScript
               (String JS.squote ("a" +:+ String JS.TAB (String JS.dquote ""))))) /\
   staysQuoted (CommandExecutor.escapeForAppleScript
                  (String JS.squote ("a" +:+ String JS.TAB (String JS.dquote "")))) = true).
Proof.
  split; [reflexivity |]. split; [reflexivity |].
  apply escapeForAppleScript_single_line. reflexivity.
Defined.

Lemma plain_no_line_feed (str : string) :
  Forall (fun c => plain c = true) (chars str) -> JS.includes JS.LF str = false.
Proof.
  induction str as [|a str IH]; intros Hs; [reflexivity |].
  inversion Hs as [|? ? Ha Hs']; subst.
  cbn [JS.includes]. rewrite (IH Hs'), orb_false_r.
  unfold JS.LF. cbn [String.prefix].
  destruct (ascii_dec "010" a) as [<-|_]; [discriminate Ha | reflexivity].
Qed.

(** X3: a command of printable characters without backslash, double quote
    and single quote is sent as it is. *)
Theorem escapeForAppleScript_plain (str : string) :
  Forall (fun c => plain c = true) (chars str) ->
  CommandExecutor.escapeForAppleScript str = str.
Proof.
  intros Hplain. unfold CommandExecutor.escapeForAppleScript.
  rewrite (plain_no_line_feed _ Hplain).
  apply (distributes_identity _ escapeSingleLine_distributes).
  eapply Forall_impl; [exact Hplain |].
  intros a Ha. cbv beta in Ha |- *.
  each_char a; first [discriminate Ha | reflexivity].
Qed.

Lemma escapeForAppleScript_plain_witness :
  Forall (fun c => plain c = true) (chars "ls -la | wc") /\
  CommandExecutor.escapeForAppleScript "ls -la | wc" = "ls -la | wc".
Proof.
  assert (H : Forall (fun c => plain c = true) (chars "ls -la | wc"))
    by (apply Forall_forallb; reflexivity).
  split; [exact H | exact (escapeForAppleScript_plain "ls -la | wc" H)].
Defined.

(** X4: the loop of [prepareMultilineCommand] builds the quoted lines of
    the command joined by [ & return & ], one quoted piece for each line,
    and the expression it returns holds no line feed; so, whatever the
    command, on one line or on several, no line feed is left in what
    [escapeForAppleScript] returns. *)
Theorem prepareMultilineCommand_joins_quoted_lines (str : string) :
  CommandExecutor.prepareMultilineCommand str
  = JS.join " & return & " (map CommandExecutor.quoted (JS.split JS.LF str)) /\
  (JS.LFchar ∉ chars (CommandExecutor.prepareMultilineCommand str)) /\
  (JS.LFchar ∉ chars (CommandExecutor.escapeForAppleScript str)).
Proof.
  split; [apply prepareMultilineCommand_join |].
  split; [apply prepareMultilineCommand_no_line_feed |].
  unfold CommandExecutor.escapeForAppleScript.
  destruct (JS.includes JS.LF str).
  - apply prepareMultilineCommand_no_line_feed.
  - pose proof (escapeSingleLine_printable str) as Hprintable.
    intros Hin. rewrite Forall_forall in Hprintable.
    specialize (Hprintable _ Hin). discriminate Hprintable.
Qed.

(** ** [TtyOutputReader.call] *)

Lemma slice_whole {A : Type} (k : Z) (l : list A) :
  Z.of_nat (List.length l) <= k -> JS.slice (- k) l = l.
Proof.
  intros Hk. unfold JS.slice.
  destruct (- k <? 0) eqn:E.
  - replace (Z.max (Z.of_nat (List.length l) + - k) 0) with 0 by lia. reflexivity.
  - apply Z.ltb_ge in E.
    assert (List.length l = 0%nat) as Hl by lia.
    destruct l; [| discriminate Hl]. apply drop_nil.
Qed.

(** The lines of a tail that was joined again are the lines that were cut
    off the buffer. *)
Lemma captureTail_lines (buffer : string) (n : Z) :
  0 <= n ->
  JS.split JS.LF (CommandExecutor.captureTail buffer n)
  = JS.slice (- n - 1) (JS.split JS.LF buffer).
Proof.
  intros Hn. unfold CommandExecutor.captureTail.
  destruct (slice_negative_suffix (n + 1) (JS.split JS.LF buffer))
    as (earlier & Hsplit & Hlen); [lia |].
  replace (- (n + 1)) with (- n - 1) in * by lia.
  apply (split_join JS.LFchar "").
  - pose proof (line_count_positive buffer) as Hpos. unfold JS.line_count in Hpos.
    intros E. rewrite E in Hlen. cbn [List.length] in Hlen. lia.
  - pose proof (split_pieces JS.LFchar buffer) as Hall.
    change (String JS.LFchar "") with JS.LF in Hall.
    rewrite Hsplit in Hall. apply Forall_app in Hall. apply Hall.
Qed.

Section ReaderCall.

Variable env : Env.

(** X5: when the channel returns the buffer, [call] with [N > 0] returns
    the last [N + 1] lines of the trimmed buffer, which is the whole of it
    when it has no more lines than that; without [linesOfOutput], or with
    [NaN] or [0], it returns the whole trimmed buffer. *)
Theorem call_returns_last_lines (windowId : string) (linesOfOutput tabIndex : option JS.jsnum)
    (st : Machine) (raw : string) :
  exec_reply env (execs st) (GetContents windowId (TtyOutputReader.sessionTarget tabIndex))
    = Stdout raw ->
  exists out,
    fst (TtyOutputReader.call env windowId linesOfOutput tabIndex st) = Return out /\
    (forall n, linesOfOutput = Some (JS.Num n) -> 0 < n ->
       JS.split JS.LF out = JS.slice (- n - 1) (JS.split JS.LF (JS.trim raw)) /\
       JS.line_count out = Z.min (n + 1) (JS.line_count (JS.trim raw)) /\
       (JS.line_count (JS.trim raw) <= n + 1 -> out = JS.trim raw)) /\
    (linesOfOutput = None \/ linesOfOutput = Some JS.NaN
       \/ linesOfOutput = Some (JS.Num 0) -> out = JS.trim raw).
Proof.
  intros Hreply.
  unfold TtyOutputReader.call, TtyOutputReader.retrieveBuffer, bind, exec, ret.
  rewrite Hreply.
  destruct linesOfOutput as [[|n]|].
  - eexists. split; [reflexivity |]. split; [intros n H; discriminate H | reflexivity].
  - destruct (n =? 0) eqn:E.
    + eexists. split; [reflexivity |]. split; [| reflexivity].
      intros n' [= <-] Hn'. apply Z.eqb_eq in E. lia.
    + eexists. split; [reflexivity |]. split.
      * intros n' [= <-] Hn.
        fold (CommandExecutor.captureTail (JS.trim raw) n).
        rewrite captureTail_lines by lia.
        destruct (slice_negative_suffix (n + 1) (JS.split JS.LF (JS.trim raw)))
          as (earlier & Hsplit & Hlen); [lia |].
        replace (- (n + 1)) with (- n - 1) in * by lia.
        split; [reflexivity |]. split.
        -- unfold JS.line_count. rewrite captureTail_lines by lia. exact Hlen.
        -- intros Hfew. unfold CommandExecutor.captureTail, JS.line_count in *.
           replace (- n - 1) with (- (n + 1)) by lia.
           rewrite slice_whole by exact Hfew.
           apply (join_split JS.LFchar).
      * intros [H | [H | H]]; [discriminate H | discriminate H |].
        injection H as ->. discriminate E.
  - eexists. split; [reflexivity |]. split; [intros n H; discriminate H | reflexivity].
Qed.

End ReaderCall.

Lemma call_returns_last_lines_witness :
  fst (TtyOutputReader.call fourLines "w" (Some (JS.Num 1)) None freshMachine)
  = Return (lines ["c"; "$"]) /\
  exists out,
    fst (TtyOutputReader.call fourLines "w" (Some (JS.Num 1)) None freshMachine)
    = Return out /\
    (forall n, Some (JS.Num 1) = Some (JS.Num n) -> 0 < n ->
       JS.split JS.LF out
       = JS.slice (- n - 1) (JS.split JS.LF (JS.trim (lines ["a"; "b"; "c"; "$"]))) /\
       JS.line_count out
       = Z.min (n + 1) (JS.line_count (JS.trim (lines ["a"; "b"; "c"; "$"]))) /\
       (JS.line_count (JS.trim (lines ["a"; "b"; "c"; "$"])) <= n + 1 ->
        out = JS.trim (lines ["a"; "b"; "c"; "$"]))) /\
    (Some (JS.Num 1) = None \/ Some (JS.Num 1) = Some JS.NaN
       \/ Some (JS.Num 1) = Some (JS.Num 0) ->
     out = JS.trim (lines ["a"; "b"; "c"; "$"])).
Proof.
  split; [vm_compute; reflexivity |].
  apply (call_returns_last_lines fourLines "w" (Some (JS.Num 1)) None freshMachine
           (lines ["a"; "b"; "c"; "$"])).
  reflexivity.
Defined.

(** ** The alias table: reading back what was written *)

Lemma map_get_set_eq (k : JS.jsnum) (v : string) (m : list (JS.jsnum * string)) :
  TabManager.map_get k (TabManager.map_set k v m) = Some v.
Proof.
  induction m as [|[k' v'] m IH]; cbn [TabManager.map_set TabManager.map_get].
  - rewrite (proj2 (same_value_zero_true k k) eq_refl). reflexivity.
  - destruct (JS.same_value_zero k' k) eqn:E; cbn [TabManager.map_get]; rewrite E;
      [reflexivity | exact IH].
Qed.

Lemma map_get_set_ne (k k' : JS.jsnum) (v : string) (m : list (JS.jsnum * string)) :
  k <> k' ->
  TabManager.map_get k' (TabManager.map_set k v m) = TabManager.map_get k' m.
Proof.
  intros Hk. induction m as [|[k0 v0] m IH]; cbn [TabManager.map_set TabManager.map_get].
  - rewrite (proj2 (same_value_zero_false k k') Hk). reflexivity.
  - destruct (JS.same_value_zero k0 k) eqn:E; cbn [TabManager.map_get].
    + apply same_value_zero_true in E. subst k0.
      rewrite (proj2 (same_value_zero_false k k') Hk). reflexivity.
    + rewrite IH. reflexivity.
Qed.

Lemma map_get_delete_eq (k : JS.jsnum) (m : list (JS.jsnum * string)) :
  TabManager.map_get k (TabManager.map_delete k m) = None.
Proof.
  induction m as [|[k' v'] m IH]; [reflexivity |].
  cbn [TabManager.map_delete].
  destruct (JS.same_value_zero k' k) eqn:E; [exact IH |].
  cbn [TabManager.map_get]. rewrite E. exact IH.
Qed.

Lemma map_get_delete_ne (k k' : JS.jsnum) (m : list (JS.jsnum * string)) :
  k <> k' ->
  TabManager.map_get k' (TabManager.map_delete k m) = TabManager.map_get k' m.
Proof.
  intros Hk. induction m as [|[k0 v0] m IH]; [reflexivity |].
  cbn [TabManager.map_delete TabManager.map_get].
  destruct (JS.same_value_zero k0 k) eqn:E.
  - apply same_value_zero_true in E. subst k0.
    rewrite (proj2 (same_value_zero_false k k') Hk). exact IH.
  - cbn [TabManager.map_get]. rewrite IH. reflexivity.
Qed.

Lemma getTabAlias_after_setTabAlias (w : string) (i : JS.jsnum) (a : string)
    (st : Machine) :
  holdsAlias (snd (TabManager.setTabAlias w i a st)) w i a /\
  forall w' j, w' <> w \/ j <> i ->
    fst (TabManager.getTabAlias w' j (snd (TabManager.setTabAlias w i a st)))
    = fst (TabManager.getTabAlias w' j st).
Proof.
  unfold holdsAlias, TabManager.setTabAlias, TabManager.getTabAlias, modify, gets.
  cbn [fst snd with_tabAliases tabAliases]. split.
  - rewrite lookup_alter_eq.
    destruct (tabAliases st !! w) as [l|] eqn:Hw.
    + rewrite Hw. cbn. rewrite map_get_set_eq. reflexivity.
    + rewrite lookup_insert_eq. cbn.
      rewrite (proj2 (same_value_zero_true i i) eq_refl). reflexivity.
  - intros w' j Hne. destruct (decide (w' = w)) as [->|Hw'].
    + destruct Hne as [Hne | Hne]; [contradiction |].
      rewrite lookup_alter_eq.
      destruct (tabAliases st !! w) as [l|] eqn:Hw.
      * rewrite Hw. cbn. rewrite map_get_set_ne by congruence. reflexivity.
      * rewrite lookup_insert_eq. cbn.
        rewrite (proj2 (same_value_zero_false i j)) by congruence. reflexivity.
    + rewrite lookup_alter_ne by congruence.
      destruct (tabAliases st !! w); [reflexivity |].
      rewrite lookup_insert_ne by congruence. reflexivity.
Qed.

Lemma getTabAlias_after_removal (w : string) (i : JS.jsnum) (st : Machine) :
  fst (TabManager.getTabAlias w i (snd (TabManager.removeTabAlias w i st))) = Return None /\
  (forall w' j, w' <> w \/ j <> i ->
     fst (TabManager.getTabAlias w' j (snd (TabManager.removeTabAlias w i st)))
     = fst (TabManager.getTabAlias w' j st)) /\
  (forall j,
     fst (TabManager.getTabAlias w j (snd (TabManager.clearWindowAliases w st)))
     = Return None) /\
  (forall w' j, w' <> w ->
     fst (TabManager.getTabAlias w' j (snd (TabManager.clearWindowAliases w st)))
     = fst (TabManager.getTabAlias w' j st)).
Proof.
  unfold TabManager.removeTabAlias, TabManager.clearWindowAliases,
    TabManager.getTabAlias, modify, gets.
  cbn [fst snd with_tabAliases tabAliases].
  split; [| split; [| split]].
  - rewrite lookup_alter_eq.
    destruct (tabAliases st !! w) as [l|]; [| reflexivity].
    cbn. rewrite map_get_delete_eq. reflexivity.
  - intros w' j Hne. destruct (decide (w' = w)) as [->|Hw'].
    + destruct Hne as [Hne | Hne]; [contradiction |].
      rewrite lookup_alter_eq.
      destruct (tabAliases st !! w) as [l|]; [| reflexivity].
      cbn. rewrite map_get_delete_ne by congruence. reflexivity.
    + rewrite lookup_alter_ne by congruence. reflexivity.
  - intros j. rewrite lookup_delete_eq. reflexivity.
  - intros w' j Hw'. rewrite lookup_delete_ne by congruence. reflexivity.
Qed.

(** X6: the alias table answers as a table should. A tab holds the alias
    it was given last, whatever its index (an index that is [NaN] is a
    key like the others); a tab whose alias was removed holds none, and
    neither does any tab of a window whose aliases were cleared. Each of
    the three changes leaves the aliases of the other tabs, and of the
    other windows, as they were. *)
Theorem alias_table_answers (w : string) (i : JS.jsnum) (a : string) (st : Machine) :
  holdsAlias (snd (TabManager.setTabAlias w i a st)) w i a /\
  fst (TabManager.getTabAlias w i (snd (TabManager.removeTabAlias w i st))) = Return None /\
  (forall j,
     fst (TabManager.getTabAlias w j (snd (TabManager.clearWindowAliases w st)))
     = Return None) /\
  (forall w' j, w' <> w \/ j <> i ->
     fst (TabManager.getTabAlias w' j (snd (TabManager.setTabAlias w i a st)))
     = fst (TabManager.getTabAlias w' j st) /\
     fst (TabManager.getTabAlias w' j (snd (TabManager.removeTabAlias w i st)))
     = fst (TabManager.getTabAlias w' j st)) /\
  (forall w' j, w' <> w ->
     fst (TabManager.getTabAlias w' j (snd (TabManager.clearWindowAliases w st)))
     = fst (TabManager.getTabAlias w' j st)).
Proof.
  destruct (getTabAlias_after_setTabAlias w i a st) as [Hset Hset'].
  destruct (getTabAlias_after_removal w i st) as (Hrem & Hrem' & Hclear & Hclear').
  split; [exact Hset |]. split; [exact Hrem |]. split; [exact Hclear |].
  split; [| exact Hclear'].
  intros w' j Hne. split; [apply Hset' | apply Hrem']; exact Hne.
Qed.

Lemma first_with_alias_Some (a : string) (l : list (JS.jsnum * string)) (i : JS.jsnum) :
  TabManager.first_with_alias a l = Some i ->
  exists before after,
    l = (before ++ (i, a) :: after)%list /\ Forall (fun entry => entry.2 <> a) before.
Proof.
  induction l as [|[k v] l IH]; [intros H; discriminate H |].
  cbn [TabManager.first_with_alias].
  destruct (String.eqb v a) eqn:E.
  - apply String.eqb_eq in E. subst v. intros [= ->].
    exists [], l. split; [reflexivity | constructor].
  - apply String.eqb_neq in E. intros H.
    destruct (IH H) as (before & after & -> & Hbefore).
    exists ((k, v) :: before), after. split; [reflexivity |].
    constructor; [exact E | exact Hbefore].
Qed.

Lemma first_with_alias_None (a : string) (l : list (JS.jsnum * string)) :
  TabManager.first_with_alias a l = None <-> Forall (fun entry => entry.2 <> a) l.
Proof.
  induction l as [|[k v] l IH]; [split; [constructor | reflexivity] |].
  cbn [TabManager.first_with_alias].
  destruct (String.eqb v a) eqn:E.
  - apply String.eqb_eq in E. subst v. split; [intros H; discriminate H |].
    intros H. inversion H as [|? ? Hv _]; subst. exfalso. apply Hv. reflexivity.
  - apply String.eqb_neq in E. rewrite IH. split.
    + intros H. constructor; [exact E | exact H].
    + intros H. inversion H; subst. assumption.
Qed.

Lemma map_get_Some_in (i : JS.jsnum) (a : string) (l : list (JS.jsnum * string)) :
  TabManager.map_get i l = Some a -> (i, a) ∈ l.
Proof.
  induction l as [|[k v] l IH]; [intros H; discriminate H |].
  cbn [TabManager.map_get].
  destruct (JS.same_value_zero k i) eqn:E.
  - apply same_value_zero_true in E. subst k. intros [= ->]. apply list_elem_of_here.
  - intros H. apply list_elem_of_further, IH, H.
Qed.

Lemma map_get_in (i : JS.jsnum) (a : string) (l : list (JS.jsnum * string)) :
  NoDup l.*1 -> (i, a) ∈ l -> TabManager.map_get i l = Some a.
Proof.
  induction l as [|[k v] l IH]; intros Hnd Hin.
  - apply elem_of_nil in Hin. contradiction.
  - rewrite fmap_cons in Hnd. apply NoDup_cons in Hnd as [Hk Hnd].
    cbn [TabManager.map_get].
    apply elem_of_cons in Hin as [Hin | Hin].
    + injection Hin as <- <-.
      rewrite (proj2 (same_value_zero_true i i) eq_refl). reflexivity.
    + destruct (JS.same_value_zero k i) eqn:E; [| exact (IH Hnd Hin)].
      apply same_value_zero_true in E. subst k.
      exfalso. apply Hk. apply (list_elem_of_fmap_2 fst) in Hin. exact Hin.
Qed.

(** X7: [getTabIndexByAlias] answers with a tab that holds the alias, the
    one that comes first in the table of the window when several tabs
    hold it, and answers [null] exactly when no tab of the window holds
    the alias. *)
Theorem getTabIndexByAlias_first_holder (w a : string) (st : Machine) :
  indexedOnce st w ->
  (forall i, fst (TabManager.getTabIndexByAlias w a st) = Return (Some i) ->
     holdsAlias st w i a /\
     exists before after,
       tabAliases st !! w = Some (before ++ (i, a) :: after)%list /\
       Forall (fun entry => entry.2 <> a) before) /\
  (fst (TabManager.getTabIndexByAlias w a st) = Return None <->
   forall i, ~ holdsAlias st w i a).
Proof.
  intros Honce.
  unfold holdsAlias, TabManager.getTabIndexByAlias, TabManager.getTabAlias, gets.
  cbn [fst]. specialize (Honce).
  destruct (tabAliases st !! w) as [l|] eqn:Hw.
  - specialize (Honce l Hw). split.
    + intros i [= Hfirst].
      destruct (first_with_alias_Some a l i Hfirst) as (before & after & -> & Hbefore).
      split.
      * f_equal. apply map_get_in; [exact Honce |].
        apply elem_of_app. right. apply list_elem_of_here.
      * exists before, after. split; [reflexivity | exact Hbefore].
    + split.
      * intros [= Hnone] i [= Hget]. apply first_with_alias_None in Hnone.
        apply map_get_Some_in in Hget. rewrite Forall_forall in Hnone.
        apply (Hnone _ Hget). reflexivity.
      * intros Hnone. f_equal. apply first_with_alias_None. apply Forall_forall.
        intros [k v] Hin Hv. cbn in Hv. subst v.
        apply (Hnone k). f_equal. apply map_get_in; assumption.
  - split.
    + intros i H. discriminate H.
    + split; [intros _ i H; discriminate H | reflexivity].
Qed.

Lemma getTabIndexByAlias_first_holder_witness :
  indexedOnce sharedAlias "w" /\
  fst (TabManager.getTabIndexByAlias "w" "x" sharedAlias) = Return (Some (JS.Num 0)) /\
  holdsAlias sharedAlias "w" (JS.Num 0) "x" /\
  holdsAlias sharedAlias "w" (JS.Num 1) "x".
Proof.
  assert (H0 : indexedOnce freshMachine "w") by (intros l H; discriminate H).
  assert (H : indexedOnce sharedAlias "w").
  { unfold sharedAlias. rewrite !runAliasOperations_cons.
    repeat apply runAliasOperation_indexedOnce. exact H0. }
  assert (E : fst (TabManager.getTabIndexByAlias "w" "x" sharedAlias)
              = Return (Some (JS.Num 0))) by (vm_compute; reflexivity).
  split; [exact H |]. split; [exact E |]. split.
  - exact (proj1 (proj1 (getTabIndexByAlias_first_holder "w" "x" sharedAlias H)
                    (JS.Num 0) E)).
  - vm_compute. reflexivity.
Defined.

(** ** [TabManager]: the listing and the tabs made from it *)

Lemma exec_tabAliases (env : Env) (c : Command) (st : Machine) :
  tabAliases (snd (exec env c st)) = tabAliases st.
Proof. unfold exec. destruct (exec_reply env (execs st) c); reflexivity. Qed.

Lemma exec_trace (env : Env) (c : Command) (st : Machine) :
  trace (snd (exec env c st)) = (trace st ++ [Exec c])%list.
Proof. unfold exec. destruct (exec_reply env (execs st) c); reflexivity. Qed.

Lemma exec_Return (env : Env) (c : Command) (st : Machine) (s : string) :
  exec_reply env (execs st) c = Stdout s ->
  exec env c st = (Return s, snd (exec env c st)).
Proof. unfold exec. intros ->. reflexivity. Qed.

Lemma exec_Throw (env : Env) (c : Command) (st : Machine) (e : string) :
  exec_reply env (execs st) c = Fails e ->
  exec env c st = (Throw e, snd (exec env c st)).
Proof. unfold exec. intros ->. reflexivity. Qed.

Lemma parseTab_render (w : string) (tab : ListedTab) (st : Machine) :
  cleanTab tab ->
  TabManager.parseTab w (renderTab tab) st = (Return (tabInfoOf st w tab), st).
Proof.
  intros (Hi & Hn & Hs & Ht).
  unfold TabManager.parseTab, renderTab.
  rewrite (split_join "|" "");
    [| intros H; discriminate H
     | repeat constructor; [apply Hi | apply Hn | apply Hs | apply Ht]].
  unfold bind, TabManager.getTabAlias, gets, ret, tabInfoOf.
  cbn [lookup list_lookup]. destruct (listedName tab); reflexivity.
Qed.

Lemma parseTabs_render (w : string) (tabs : list ListedTab) (st : Machine) :
  Forall cleanTab tabs ->
  TabManager.parseTabs w (map renderTab tabs) st
  = (Return (map (tabInfoOf st w) tabs), st).
Proof.
  intros Hall. induction Hall as [|tab tabs Htab Htabs IH]; [reflexivity |].
  cbn [map TabManager.parseTabs]. unfold bind at 1.
  rewrite (parseTab_render w tab st Htab). unfold bind at 1. rewrite IH. reflexivity.
Qed.

Lemma parseTabs_machine (w : string) (tabStrings : list string) (st : Machine) :
  exists tabs, TabManager.parseTabs w tabStrings st = (Return tabs, st).
Proof.
  induction tabStrings as [|tabString rest [tabs IH]]; [exists []; reflexivity |].
  cbn [TabManager.parseTabs].
  unfold bind at 1, TabManager.parseTab at 1, bind at 1, TabManager.getTabAlias, gets, ret.
  unfold bind at 1. rewrite IH. eexists. reflexivity.
Qed.

Lemma renderTab_clean (tab : ListedTab) :
  cleanTab tab -> ","%char ∉ chars (renderTab tab).
Proof.
  intros (Hi & Hn & Hs & Ht). unfold renderTab.
  apply join_absent; [apply absent_forallb; reflexivity |].
  repeat constructor; [apply Hi | apply Hn | apply Hs | apply Ht].
Qed.

Lemma renderTabs_not_empty (tab : ListedTab) (tabs : list ListedTab) :
  String.eqb (renderTabs (tab :: tabs)) "" = false.
Proof.
  apply String.eqb_neq. unfold renderTabs, renderTab. cbn [map].
  destruct tabs as [|next tabs]; cbn [map].
  - cbn [JS.join String.concat]. destruct (listedIndex tab); intros H; discriminate H.
  - rewrite join_cons. cbn [JS.join String.concat].
    destruct (listedIndex tab); intros H; discriminate H.
Qed.

Section Listing.

Variable env : Env.

(** X8: from a listing whose records are separated by a comma and a
    space and whose four fields by a bar, [listTabs] makes one tab for each
    record, in the order of the listing: the index is the number that the
    first field starts with, a tab without name is called [Tab] and its
    position, and the alias is the one that the table of the window holds
    for the index. *)
Theorem listTabs_reads_listing (w : string) (st : Machine) (stdout : string)
    (tabs : list ListedTab) :
  exec_reply env (execs st) (ListTabs w) = Stdout stdout ->
  JS.trim stdout = renderTabs tabs ->
  tabs <> [] ->
  Forall cleanTab tabs ->
  fst (TabManager.listTabs env w st) = Return (map (tabInfoOf st w) tabs).
Proof.
  intros Hreply Htrim Hne Hclean.
  unfold TabManager.listTabs, try_catch, bind.
  rewrite (exec_Return env _ st stdout Hreply). rewrite Htrim.
  destruct tabs as [|tab tabs]; [contradiction |].
  rewrite renderTabs_not_empty. unfold renderTabs.
  rewrite (split_join "," " ");
    [| intros H; discriminate H
     | apply Forall_map; eapply Forall_impl; [exact Hclean | exact renderTab_clean]].
  rewrite parseTabs_render by exact Hclean. cbn [fst].
  f_equal. apply map_ext. intros t. unfold tabInfoOf. rewrite exec_tabAliases. reflexivity.
Qed.

End Listing.

Lemma listTabs_reads_listing_witness :
  exec_reply threeTabs (execs aliasedMachine) (ListTabs "w")
  = Stdout "0|x|s0|/dev/ttys000, 1|y|s1|/dev/ttys001, 2|z|s2|/dev/ttys002" /\
  Forall cleanTab threeListedTabs /\
  fst (TabManager.listTabs threeTabs "w" aliasedMachine)
  = Return (map (tabInfoOf aliasedMachine "w") threeListedTabs) /\
  TabManager.alias <$> map (tabInfoOf aliasedMachine "w") threeListedTabs
  = [None; None; Some "x"].
Proof.
  assert (Hclean : Forall cleanTab threeListedTabs).
  { repeat constructor; apply absent_forallb; reflexivity. }
  split; [reflexivity |]. split; [exact Hclean |]. split.
  - apply (listTabs_reads_listing threeTabs "w" aliasedMachine
             "0|x|s0|/dev/ttys000, 1|y|s1|/dev/ttys001, 2|z|s2|/dev/ttys002"
             threeListedTabs).
    + reflexivity.
    + vm_compute. reflexivity.
    + intros H. discriminate H.
    + exact Hclean.
  - vm_compute. reflexivity.
Defined.

Lemma find_first {A : Type} (p : A -> bool) (l : list A) (x : A) :
  List.find p l = Some x ->
  exists earlier later,
    l = (earlier ++ x :: later)%list /\ Forall (fun t => p t = false) earlier /\ p x = true.
Proof.
  induction l as [|t l IH]; [intros H; discriminate H |].
  cbn [List.find]. destruct (p t) eqn:E.
  - intros [= ->]. exists [], l. repeat split; [constructor | exact E].
  - intros H. destruct (IH H) as (earlier & later & -> & Hearlier & Hx).
    exists (t :: earlier), later. repeat split; [constructor; assumption | exact Hx].
Qed.

Section EnsureTab.

Variable env : Env.

Lemma listTabs_machine (w : string) (st : Machine) :
  snd (TabManager.listTabs env w st) = snd (exec env (ListTabs w) st).
Proof.
  unfold TabManager.listTabs, try_catch, bind.
  destruct (exec env (ListTabs w) st) as [[stdout|e|] st1]; [| reflexivity | reflexivity].
  destruct (String.eqb (JS.trim stdout) ""); [reflexivity |].
  destruct (parseTabs_machine w (JS.split ", " (JS.trim stdout)) st1) as [tabs ->].
  reflexivity.
Qed.

Lemma createTab_machine (w : string) (profileName tabName : option string) (st : Machine) :
  snd (TabManager.createTab env w profileName tabName st)
  = snd (exec env (CreateTab w (JS.truthy profileName) (JS.truthy tabName)) st).
Proof.
  unfold TabManager.createTab, try_catch, bind.
  destruct (exec env _ st) as [[stdout|e|] st1]; [| reflexivity | reflexivity].
  destruct (JS.parseInt (JS.trim stdout)); reflexivity.
Qed.

Lemma createTab_integer (w : string) (profileName tabName : option string)
    (st : Machine) (i : JS.jsnum) :
  fst (TabManager.createTab env w profileName tabName st) = Return i ->
  exists z, i = JS.Num z.
Proof.
  unfold TabManager.createTab, try_catch, bind.
  destruct (exec env _ st) as [[stdout|e|] st1]; [| intros H; discriminate H ..].
  destruct (JS.parseInt (JS.trim stdout)) as [|z]; [intros H; discriminate H |].
  intros [= <-]. exists z. reflexivity.
Qed.

Lemma ensureTab_run (w tabName : string) (profileName : option string) (st : Machine) :
  TabManager.ensureTab env w tabName profileName st
  = match TabManager.listTabs env w st with
    | (Return tabs, st1) =>
        match List.find (fun t => String.eqb (TabManager.name t) tabName) tabs with
        | Some tab => (Return (TabManager.index tab), st1)
        | None => TabManager.createTab env w profileName (Some tabName) st1
        end
    | (Throw e, st1) => (Throw e, st1)
    | (OutOfFuel, st1) => (OutOfFuel, st1)
    end.
Proof.
  unfold TabManager.ensureTab, TabManager.getTabIndex, bind, ret.
  destruct (TabManager.listTabs env w st) as [[tabs|e|] st1]; [| reflexivity ..].
  destruct (List.find _ tabs); reflexivity.
Qed.

(** X9: [ensureTab] asks for the listing and, only when no listed tab has
    the name, for a new tab of that name, and for nothing else. A tab that
    is listed under the name is returned by its index, the leftmost one
    when several have the name; the index of a tab that was created is an
    integer, never [NaN]. *)
Theorem ensureTab_requests (w tabName : string) (profileName : option string)
    (st : Machine) :
  (trace (snd (TabManager.ensureTab env w tabName profileName st))
   = (trace st ++ [Exec (ListTabs w)])%list /\
   forall i, fst (TabManager.ensureTab env w tabName profileName st) = Return i ->
     exists tabs earlier tab later,
       fst (TabManager.listTabs env w st) = Return tabs /\
       tabs = (earlier ++ tab :: later)%list /\
       Forall (fun t => TabManager.name t <> tabName) earlier /\
       TabManager.name tab = tabName /\ TabManager.index tab = i) \/
  (trace (snd (TabManager.ensureTab env w tabName profileName st))
   = (trace st ++ [Exec (ListTabs w);
                   Exec (CreateTab w (JS.truthy profileName) (JS.truthy (Some tabName)))])%list /\
   (exists tabs,
      fst (TabManager.listTabs env w st) = Return tabs /\
      Forall (fun t => TabManager.name t <> tabName) tabs) /\
   forall i, fst (TabManager.ensureTab env w tabName profileName st) = Return i ->
     exists z, i = JS.Num z).
Proof.
  rewrite ensureTab_run.
  pose proof (listTabs_machine w st) as Hmachine.
  destruct (TabManager.listTabs env w st) as [[tabs|e|] st1] eqn:Hlist;
    cbn [snd] in Hmachine; subst st1.
  - destruct (List.find (fun t => String.eqb (TabManager.name t) tabName) tabs)
      as [tab|] eqn:Hfind.
    + left. cbn [fst snd]. rewrite exec_trace. split; [reflexivity |].
      intros i [= <-].
      destruct (find_first _ _ _ Hfind) as (earlier & later & -> & Hearlier & Hname).
      apply String.eqb_eq in Hname.
      exists (earlier ++ tab :: later)%list, earlier, tab, later.
      repeat split; try reflexivity; [| exact Hname].
      eapply Forall_impl; [exact Hearlier |].
      intros t Ht. apply String.eqb_neq. exact Ht.
    + right. split; [| split].
      * rewrite createTab_machine, exec_trace, exec_trace, <- app_assoc. reflexivity.
      * exists tabs. split; [reflexivity |]. apply Forall_forall. intros t Ht Hn.
        apply list_elem_of_In in Ht. apply (find_none _ _ Hfind t) in Ht.
        apply String.eqb_neq in Ht. contradiction.
      * intros i. apply createTab_integer.
  - left. cbn [fst snd]. rewrite exec_trace. split; [reflexivity |].
    intros i H. discriminate H.
  - left. cbn [fst snd]. rewrite exec_trace. split; [reflexivity |].
    intros i H. discriminate H.
Qed.

End EnsureTab.

(** ** What a computation leaves unchanged *)

Lemma unchanged_refl {A : Type} (f : Machine -> A) (st : Machine) : unchanged f st st.
Proof. reflexivity. Qed.

Lemma unchanged_trans {A : Type} (f : Machine -> A) (a b c : Machine) :
  unchanged f a b -> unchanged f b c -> unchanged f a c.
Proof. unfold unchanged. congruence. Qed.

Lemma unchanged_exec {A : Type} (f : Machine -> A) (env : Env) (c : Command) :
  storeOnly f -> keeps (unchanged f) (exec env c).
Proof.
  intros Hf st. apply Hf; unfold exec;
    destruct (exec_reply env (execs st) c); reflexivity.
Qed.

Lemma unchanged_modify {A : Type} (f : Machine -> A) (g : Machine -> Machine) :
  (forall st, f (g st) = f st) -> keeps (unchanged f) (modify g).
Proof. intros Hg st. apply Hg. Qed.

Lemma storeOnly_tabAliases : storeOnly tabAliases.
Proof. intros st st' _ _ _ H. exact H. Qed.

Lemma storeOnly_sessionTabMap : storeOnly sessionTabMap.
Proof. intros st st' _ _ H _. exact H. Qed.

Lemma storeOnly_sessions : storeOnly sessions.
Proof. intros st st' H1 H2 H3 _. unfold sessions. rewrite H1, H2, H3. reflexivity. Qed.

Lemma storeOnly_sessionOf (c : string) : storeOnly (fun st => sessionOf st c).
Proof. intros st st' H1 H2 H3 _. unfold sessionOf. rewrite H1, H2, H3. reflexivity. Qed.

Create HintDb store.

#[local] Hint Resolve storeOnly_tabAliases storeOnly_sessionTabMap storeOnly_sessions
  storeOnly_sessionOf : store.

Ltac keeps_unchanged :=
  repeat match goal with
  | |- keeps (unchanged _) (ret _) => apply keeps_ret, unchanged_refl
  | |- keeps (unchanged _) (throw _) => apply keeps_throw, unchanged_refl
  | |- keeps (unchanged _) (gets _) => apply keeps_gets, unchanged_refl
  | |- keeps (unchanged _) (settle _) => apply keeps_settle, unchanged_refl
  | |- keeps (unchanged _) (bind _ _) =>
      apply keeps_bind; [apply unchanged_trans | | intros ?]
  | |- keeps (unchanged _) (try_catch _ _) =>
      apply keeps_try_catch; [apply unchanged_trans | | intros ?]
  | |- keeps (unchanged _) (exec _ _) => apply unchanged_exec; auto with store
  | |- keeps (unchanged _) (modify _) => apply unchanged_modify; intros ?; reflexivity
  | |- keeps (unchanged _) (match ?x with _ => _ end) => destruct x
  | |- keeps (unchanged _) (let '(_, _) := ?x in _) => destruct x
  | |- _ => assumption
  end.

Section TabsUnchanged.

Variable env : Env.
Context {A : Type}.
Variable f : Machine -> A.
Hypothesis Hf : storeOnly f.

Lemma parseTabs_unchanged (w : string) (tabStrings : list string) :
  keeps (unchanged f) (TabManager.parseTabs w tabStrings).
Proof.
  intros st. destruct (parseTabs_machine w tabStrings st) as [tabs ->]. reflexivity.
Qed.

Lemma listTabs_unchanged (w : string) : keeps (unchanged f) (TabManager.listTabs env w).
Proof.
  intros st. unfold unchanged. rewrite listTabs_machine. apply unchanged_exec, Hf.
Qed.

Lemma getTabIndex_unchanged (w tabName : string) :
  keeps (unchanged f) (TabManager.getTabIndex env w tabName).
Proof. unfold TabManager.getTabIndex. keeps_unchanged. apply listTabs_unchanged. Qed.

Lemma createTab_unchanged (w : string) (profileName tabName : option string) :
  keeps (unchanged f) (TabManager.createTab env w profileName tabName).
Proof.
  intros st. unfold unchanged. rewrite createTab_machine. apply unchanged_exec, Hf.
Qed.

Lemma ensureTab_unchanged (w tabName : string) (profileName : option string) :
  keeps (unchanged f) (TabManager.ensureTab env w tabName profileName).
Proof.
  unfold TabManager.ensureTab. keeps_unchanged;
    [apply getTabIndex_unchanged | apply createTab_unchanged].
Qed.

Lemma selectTab_unchanged (w : string) (i : JS.jsnum) :
  keeps (unchanged f) (TabManager.selectTab env w i).
Proof. unfold TabManager.selectTab. keeps_unchanged. Qed.

Lemma getTabTty_unchanged (w : string) (i : JS.jsnum) :
  keeps (unchanged f) (TabManager.getTabTty env w i).
Proof. unfold TabManager.getTabTty. keeps_unchanged. Qed.

Lemma closeTab_unchanged (w : string) (i : JS.jsnum) :
  keeps (unchanged f) (TabManager.closeTab env w i).
Proof. unfold TabManager.closeTab. keeps_unchanged. Qed.

Lemma resolveTabIndex_unchanged (w : string) (tabIdentifier : TabManager.TabIdentifier) :
  keeps (unchanged f) (TabManager.resolveTabIndex env w tabIdentifier).
Proof.
  unfold TabManager.resolveTabIndex, TabManager.getTabIndexByAlias.
  keeps_unchanged. apply getTabIndex_unchanged.
Qed.

Lemma validateWindow_unchanged (w : string) :
  keeps (unchanged f) (SessionManager.validateWindow env w).
Proof. unfold SessionManager.validateWindow. keeps_unchanged. Qed.

End TabsUnchanged.

(** ** [SessionManager]: windows and paths *)

Section CreateSession.

Variable env : Env.

(** The two ways in which [createSession] ends. *)
Lemma createSession_cases (c : string) (workingDir : option string) (st : Machine) :
  (exists w,
     w <> "" /\
     fst (SessionManager.createSession env c workingDir st) = Return w /\
     sessionWindowMap (snd (SessionManager.createSession env c workingDir st))
     = <[c := w]> (sessionWindowMap st) /\
     sessionPathMap (snd (SessionManager.createSession env c workingDir st))
     = match JS.truthy workingDir with
       | Some dir => <[c := path_resolve env dir]> (sessionPathMap st)
       | None => sessionPathMap st
       end /\
     sessionTabMap (snd (SessionManager.createSession env c workingDir st))
     = sessionTabMap st) \/
  (exists e,
     fst (SessionManager.createSession env c workingDir st)
     = Throw ("Failed to create iTerm2 window: " +:+ e) /\
     sessions (snd (SessionManager.createSession env c workingDir st)) = sessions st).
Proof.
  unfold SessionManager.createSession, try_catch, bind, exec.
  destruct (exec_reply env (execs st) CreateWindow) as [out|e].
  - destruct (String.eqb (JS.trim out) "") eqn:E.
    + right. eexists. split; reflexivity.
    + left. exists (JS.trim out). split; [| split; [reflexivity | split; [reflexivity |]]].
      * intros H. rewrite H in E. discriminate E.
      * split; [| reflexivity]. destruct workingDir as [[|ch rest]|]; reflexivity.
  - right. eexists. split; reflexivity.
Qed.

Lemma createSession_tabAliases (c : string) (workingDir : option string) :
  keeps (unchanged tabAliases) (SessionManager.createSession env c workingDir).
Proof. unfold SessionManager.createSession. keeps_unchanged. Qed.

Lemma createSession_sessionTabMap (c : string) (workingDir : option string) :
  keeps (unchanged sessionTabMap) (SessionManager.createSession env c workingDir).
Proof. unfold SessionManager.createSession. keeps_unchanged. Qed.

Lemma createSession_others (c c' : string) (workingDir : option string) :
  c' <> c ->
  keeps (unchanged (fun st => sessionOf st c'))
    (SessionManager.createSession env c workingDir).
Proof.
  intros Hc st. unfold unchanged, sessionOf.
  destruct (createSession_cases c workingDir st)
    as [(w & _ & _ & Hw & Hp & Ht) | (e & _ & Hs)].
  - rewrite Hw, Hp, Ht. rewrite lookup_insert_ne by congruence.
    destruct (JS.truthy workingDir); [rewrite lookup_insert_ne by congruence |];
      reflexivity.
  - unfold sessions in Hs. injection Hs as -> -> ->. reflexivity.
Qed.

End CreateSession.

Lemma forgetClient_forgotten (c : string) (st : Machine) :
  forgotten (snd (SessionManager.forgetClient c st)) c.
Proof. unfold forgotten. cbn. rewrite !lookup_delete_eq. auto. Qed.

Lemma validateWindow_run (env : Env) (w : string) (st : Machine) :
  SessionManager.validateWindow env w st
  = (Return (reportedToExist env st w), snd (exec env (WindowExists w) st)).
Proof.
  unfold SessionManager.validateWindow, reportedToExist, try_catch, bind, exec, ret.
  destruct (exec_reply env (execs st) (WindowExists w)); reflexivity.
Qed.

Lemma getWindowId_cases (c : string) (st : Machine) :
  (exists w, sessionWindowMap st !! c = Some w /\ w <> "" /\
             SessionManager.getWindowId c st = (Return (Some w), st)) \/
  ((sessionWindowMap st !! c = None \/ sessionWindowMap st !! c = Some "") /\
   SessionManager.getWindowId c st = (Return None, st)).
Proof.
  unfold SessionManager.getWindowId, gets.
  destruct (sessionWindowMap st !! c) as [[|ch rest]|].
  - right. split; [right |]; reflexivity.
  - left. eexists. split; [reflexivity |]. split; [intros H; discriminate H | reflexivity].
  - right. split; [left |]; reflexivity.
Qed.

Lemma exec_sessions (env : Env) (cmd : Command) (st : Machine) :
  sessionWindowMap (snd (exec env cmd st)) = sessionWindowMap st /\
  sessionPathMap (snd (exec env cmd st)) = sessionPathMap st /\
  sessionTabMap (snd (exec env cmd st)) = sessionTabMap st.
Proof. unfold exec. destruct (exec_reply env (execs st) cmd); auto. Qed.

Section Refresh.

Variable env : Env.
Variable c : string.
Variable st : Machine.

#[local] Abbreviation run := (SessionManager.refreshSession env c st).

Lemma refreshSession_cases :
  (exists w, sessionWindowMap st !! c = Some w /\ w <> "" /\
     reportedToExist env st w = true /\
     run = (Return w, snd (exec env (WindowExists w) st))) \/
  (exists w, sessionWindowMap st !! c = Some w /\ w <> "" /\
     reportedToExist env st w = false /\
     run = SessionManager.createSession env c (sessionPathMap st !! c)
             (snd (SessionManager.forgetClient c (snd (exec env (WindowExists w) st))))) \/
  ((sessionWindowMap st !! c = None \/ sessionWindowMap st !! c = Some "") /\
   run = SessionManager.createSession env c (sessionPathMap st !! c) st).
Proof.
  unfold SessionManager.refreshSession.
  destruct (getWindowId_cases c st) as [(w & Hw & Hne & Hget) | [Hw Hget]];
    rewrite (bind_run _ _ _ _ _ Hget);
    unfold SessionManager.getSessionPath, bind, gets.
  - rewrite validateWindow_run.
    destruct (reportedToExist env st w) eqn:Hvalid.
    + left. exists w. auto.
    + right. left. exists w. auto.
  - right. right. auto.
Qed.

(** X10: [refreshSession] ends in one of two ways. When it returns a
    window, the window is not the empty string, the client is registered
    with it, and a working path that the client had is kept (a path that
    [resolve] leaves as it is); other clients are as they were. When it
    throws, creating a window has failed, and a client whose window had
    gone stale is left in none of the registries. A window that the
    channel reports to exist is returned after that one request, with the
    registries unchanged. *)
Theorem refreshSession_outcome :
  (forall w, fst (SessionManager.refreshSession env c st) = Return w ->
     w <> "" /\
     sessionWindowMap (snd (SessionManager.refreshSession env c st)) !! c = Some w /\
     forall p, sessionPathMap st !! c = Some p -> p <> "" -> path_resolve env p = p ->
       sessionPathMap (snd (SessionManager.refreshSession env c st)) !! c = Some p) /\
  (forall e, fst (SessionManager.refreshSession env c st) = Throw e ->
     (exists e', e = "Failed to create iTerm2 window: " +:+ e') /\
     forall w, sessionWindowMap st !! c = Some w -> w <> "" ->
       forgotten (snd (SessionManager.refreshSession env c st)) c) /\
  fst (SessionManager.refreshSession env c st) <> OutOfFuel /\
  (forall c', c' <> c ->
     sessionOf (snd (SessionManager.refreshSession env c st)) c' = sessionOf st c') /\
  (forall w,
     sessionWindowMap st !! c = Some w -> w <> "" -> reportedToExist env st w = true ->
     SessionManager.refreshSession env c st
     = (Return w, snd (exec env (WindowExists w) st)) /\
     sessions (snd (SessionManager.refreshSession env c st)) = sessions st).
Proof.
  destruct refreshSession_cases
    as [(w & Hw & Hne & Hvalid & ->) | [(w & Hw & Hne & Hvalid & ->) | [Hw ->]]].
  - (* the window exists *)
    destruct (exec_sessions env (WindowExists w) st) as (Hw1 & Hp1 & Ht1).
    cbn [fst snd]. split; [| split; [| split; [| split]]].
    + intros w' [= <-]. split; [exact Hne |]. split; [rewrite Hw1; exact Hw |].
      intros p Hp _ _. rewrite Hp1. exact Hp.
    + intros e H. discriminate H.
    + intros H. discriminate H.
    + intros c' _. unfold sessionOf. rewrite Hw1, Hp1, Ht1. reflexivity.
    + intros w' Hw' _ _. rewrite Hw in Hw'. injection Hw' as <-.
      split; [reflexivity |]. unfold sessions. rewrite Hw1, Hp1, Ht1. reflexivity.
  - (* the window is stale *)
    set (st1 := snd (SessionManager.forgetClient c (snd (exec env (WindowExists w) st)))).
    destruct (exec_sessions env (WindowExists w) st) as (Hw1 & Hp1 & Ht1).
    assert (Hothers : forall c', c' <> c -> sessionOf st1 c' = sessionOf st c').
    { intros c' Hc'. unfold st1, sessionOf. cbn.
      rewrite !lookup_delete_ne by congruence. rewrite Hw1, Hp1, Ht1. reflexivity. }
    assert (Hforgot : forgotten st1 c) by apply forgetClient_forgotten.
    split; [| split; [| split; [| split]]].
    + destruct (createSession_cases env c (sessionPathMap st !! c) st1)
        as [(w' & Hne' & Hret & Hw' & Hp' & Ht') | (e & Hthrow & Hs)].
      * intros w'' Hw''. rewrite Hret in Hw''. injection Hw'' as <-.
        split; [exact Hne' |]. split; [rewrite Hw'; apply lookup_insert_eq |].
        intros p Hp Hpne Hres. rewrite Hp', Hp.
        destruct p as [|ch rest]; [contradiction |]. cbn [JS.truthy].
        rewrite lookup_insert_eq, Hres. reflexivity.
      * intros w'' H. rewrite Hthrow in H. discriminate H.
    + destruct (createSession_cases env c (sessionPathMap st !! c) st1)
        as [(w' & Hne' & Hret & Hw' & Hp' & Ht') | (e & Hthrow & Hs)].
      * intros e H. rewrite Hret in H. discriminate H.
      * intros e' H. rewrite Hthrow in H. injection H as <-.
        split; [exists e; reflexivity |]. intros _ _ _.
        destruct Hforgot as (F1 & F2 & F3). unfold sessions in Hs.
        unfold forgotten. injection Hs as -> -> ->. repeat split; assumption.
    + destruct (createSession_cases env c (sessionPathMap st !! c) st1)
        as [(w' & _ & Hret & _) | (e & Hthrow & _)];
        [rewrite Hret | rewrite Hthrow]; intros H; discriminate H.
    + intros c' Hc'. rewrite <- (Hothers c' Hc').
      apply (createSession_others env c c' _ Hc' st1).
    + intros w' Hw' _ Hvalid'. rewrite Hw in Hw'. injection Hw' as <-.
      rewrite Hvalid in Hvalid'. discriminate Hvalid'.
  - (* the client has no window *)
    split; [| split; [| split; [| split]]].
    + destruct (createSession_cases env c (sessionPathMap st !! c) st)
        as [(w' & Hne' & Hret & Hw' & Hp' & Ht') | (e & Hthrow & Hs)].
      * intros w'' Hw''. rewrite Hret in Hw''. injection Hw'' as <-.
        split; [exact Hne' |]. split; [rewrite Hw'; apply lookup_insert_eq |].
        intros p Hp Hpne Hres. rewrite Hp', Hp.
        destruct p as [|ch rest]; [contradiction |]. cbn [JS.truthy].
        rewrite lookup_insert_eq, Hres. reflexivity.
      * intros w'' H. rewrite Hthrow in H. discriminate H.
    + destruct (createSession_cases env c (sessionPathMap st !! c) st)
        as [(w' & Hne' & Hret & Hw' & Hp' & Ht') | (e & Hthrow & Hs)].
      * intros e H. rewrite Hret in H. discriminate H.
      * intros e' H. rewrite Hthrow in H. injection H as <-.
        split; [exists e; reflexivity |]. intros w Hw' Hne.
        destruct Hw as [Hw | Hw]; rewrite Hw in Hw'; [discriminate Hw' |].
        injection Hw' as <-. contradiction.
    + destruct (createSession_cases env c (sessionPathMap st !! c) st)
        as [(w' & _ & Hret & _) | (e & Hthrow & _)];
        [rewrite Hret | rewrite Hthrow]; intros H; discriminate H.
    + intros c' Hc'. apply (createSession_others env c c' _ Hc' st).
    + intros w Hw' Hne. destruct Hw as [Hw | Hw]; rewrite Hw in Hw'; [discriminate Hw' |].
      injection Hw' as <-. contradiction.
Qed.

End Refresh.

Lemma first_with_path_Some (p : string) (paths : gmap string string)
    (clients : list string) (c : string) :
  SessionManager.first_with_path p paths clients = Some c ->
  c ∈ clients /\ paths !! c = Some p.
Proof.
  induction clients as [|c0 clients IH]; [intros H; discriminate H |].
  cbn [SessionManager.first_with_path]. case_bool_decide as Hc0.
  - intros [= <-]. split; [apply list_elem_of_here | exact Hc0].
  - intros H. destruct (IH H) as [Hin Hp].
    split; [apply list_elem_of_further; exact Hin | exact Hp].
Qed.

Lemma first_with_path_None (p : string) (paths : gmap string string)
    (clients : list string) :
  SessionManager.first_with_path p paths clients = None ->
  forall c, c ∈ clients -> paths !! c <> Some p.
Proof.
  induction clients as [|c0 clients IH]; intros H c Hin.
  - apply elem_of_nil in Hin. contradiction.
  - cbn [SessionManager.first_with_path] in H. case_bool_decide as Hc0; [discriminate H |].
    apply elem_of_cons in Hin as [-> | Hin]; [exact Hc0 | exact (IH H c Hin)].
Qed.

Lemma first_with_path_unique (p : string) (paths : gmap string string)
    (clients : list string) (c : string) :
  c ∈ clients -> paths !! c = Some p ->
  (forall c', c' ∈ clients -> paths !! c' = Some p -> c' = c) ->
  SessionManager.first_with_path p paths clients = Some c.
Proof.
  intros Hin Hp Hunique.
  destruct (SessionManager.first_with_path p paths clients) as [c'|] eqn:E.
  - apply first_with_path_Some in E as [Hin' Hp']. f_equal. apply Hunique; assumption.
  - exfalso. exact (first_with_path_None _ _ _ E c Hin Hp).
Qed.

Section ForPath.

Variable env : Env.
Variable md5_hex8 : string -> string.
Variable clients : list string.
Variable path : string.
Variable st : Machine.

#[local] Abbreviation normalizedPath := (path_resolve env path).
#[local] Abbreviation found :=
  (JS.truthy (SessionManager.first_with_path (path_resolve env (path_resolve env path))
                (sessionPathMap st) clients)).
#[local] Abbreviation create :=
  (SessionManager.createSession env
     (SessionManager.getClientIdFromPath env md5_hex8 (path_resolve env path))
     (Some (path_resolve env path))).
#[local] Abbreviation focus :=
  (SessionManager.focusOrCreateSessionForPath env md5_hex8 clients path st).

Lemma focusOrCreateSessionForPath_run :
  focus = match found with
          | Some c =>
              match sessionWindowMap st !! c with
              | Some (String ch rest) =>
                  if reportedToExist env st (String ch rest)
                  then (Return (String ch rest),
                        snd (exec env (WindowExists (String ch rest)) st))
                  else create (snd (SessionManager.forgetWindowAndPath c
                                      (snd (exec env (WindowExists (String ch rest)) st))))
              | _ => create st
              end
          | None => create st
          end.
Proof.
  unfold SessionManager.focusOrCreateSessionForPath, SessionManager.findSessionByPath,
    SessionManager.getWindowId, bind, gets.
  destruct found as [c|]; [| reflexivity].
  destruct (sessionWindowMap st !! c) as [[|ch rest]|]; try reflexivity.
  rewrite validateWindow_run.
  destruct (reportedToExist env st (String ch rest)); reflexivity.
Qed.

Lemma focusOrCreateSessionForPath_cases :
  (exists c w, found = Some c /\ sessionWindowMap st !! c = Some w /\ w <> "" /\
     reportedToExist env st w = true /\
     focus = (Return w, snd (exec env (WindowExists w) st))) \/
  (exists c w, found = Some c /\ sessionWindowMap st !! c = Some w /\ w <> "" /\
     reportedToExist env st w = false /\
     focus = create (snd (SessionManager.forgetWindowAndPath c
                            (snd (exec env (WindowExists w) st))))) \/
  ((found = None \/
    exists c, found = Some c /\
      (sessionWindowMap st !! c = None \/ sessionWindowMap st !! c = Some "")) /\
   focus = create st).
Proof.
  rewrite focusOrCreateSessionForPath_run.
  destruct found as [c|]; [| right; right; split; [left |]; reflexivity].
  destruct (sessionWindowMap st !! c) as [[|ch rest]|] eqn:Hw.
  - right. right. split; [right; exists c; auto | reflexivity].
  - destruct (reportedToExist env st (String ch rest)) eqn:Hvalid.
    + left. exists c, (String ch rest).
      repeat split; try assumption; try reflexivity. intros H; discriminate H.
    + right. left. exists c, (String ch rest).
      repeat split; try assumption; try reflexivity. intros H; discriminate H.
  - right. right. split; [right; exists c; auto | reflexivity].
Qed.

Lemma create_registers :
  path_resolve env normalizedPath = normalizedPath -> normalizedPath <> "" ->
  forall st1,
    sessionTabMap st1 = sessionTabMap st -> tabAliases st1 = tabAliases st ->
    (forall w, fst (create st1) = Return w ->
       w <> "" /\
       exists c, sessionWindowMap (snd (create st1)) !! c = Some w /\
                 sessionPathMap (snd (create st1)) !! c = Some normalizedPath) /\
    (forall e, fst (create st1) = Throw e ->
       exists e', e = "Failed to create iTerm2 window: " +:+ e') /\
    fst (create st1) <> OutOfFuel /\
    sessionTabMap (snd (create st1)) = sessionTabMap st /\
    tabAliases (snd (create st1)) = tabAliases st.
Proof.
  intros Hidem Hne st1 Htab Halias.
  pose proof (createSession_tabAliases env
                (SessionManager.getClientIdFromPath env md5_hex8 normalizedPath)
                (Some normalizedPath) st1) as Ha.
  pose proof (createSession_sessionTabMap env
                (SessionManager.getClientIdFromPath env md5_hex8 normalizedPath)
                (Some normalizedPath) st1) as Ht.
  unfold unchanged in Ha, Ht. rewrite Ha, Ht.
  destruct (createSession_cases env
              (SessionManager.getClientIdFromPath env md5_hex8 normalizedPath)
              (Some normalizedPath) st1)
    as [(w & Hw & Hret & Hwm & Hpm & _) | (e & Hthrow & _)].
  - rewrite Hret. split; [| split; [| split; [| split]]]; try assumption.
    + intros w' [= <-]. split; [exact Hw |].
      exists (SessionManager.getClientIdFromPath env md5_hex8 normalizedPath).
      rewrite Hwm, Hpm. split; [apply lookup_insert_eq |].
      destruct normalizedPath as [|ch rest] eqn:Hn; [contradiction |].
      cbn [JS.truthy]. rewrite lookup_insert_eq, Hidem. reflexivity.
    + intros e H. discriminate H.
    + intros H. discriminate H.
  - rewrite Hthrow. split; [| split; [| split; [| split]]]; try assumption.
    + intros w H. discriminate H.
    + intros e' [= <-]. exists e. reflexivity.
    + intros H. discriminate H.
Qed.

(** X11: for a path that [resolve] maps to a path that it leaves as it is
    (not the empty one), [focusOrCreateSessionForPath] returns a window
    that is not the empty string and that is registered, afterwards, for a
    client whose working path is the resolved path; when it throws,
    creating a window has failed. In no case does it change the tab that
    a client is tracked on, or an alias. *)
Theorem focusOrCreateSessionForPath_registers :
  path_resolve env (path_resolve env path) = path_resolve env path ->
  path_resolve env path <> "" ->
  (forall w,
     fst (SessionManager.focusOrCreateSessionForPath env md5_hex8 clients path st)
     = Return w ->
     w <> "" /\
     exists c,
       sessionWindowMap
         (snd (SessionManager.focusOrCreateSessionForPath env md5_hex8 clients path st))
         !! c = Some w /\
       sessionPathMap
         (snd (SessionManager.focusOrCreateSessionForPath env md5_hex8 clients path st))
         !! c = Some (path_resolve env path)) /\
  (forall e,
     fst (SessionManager.focusOrCreateSessionForPath env md5_hex8 clients path st)
     = Throw e ->
     exists e', e = "Failed to create iTerm2 window: " +:+ e') /\
  fst (SessionManager.focusOrCreateSessionForPath env md5_hex8 clients path st)
  <> OutOfFuel /\
  sessionTabMap
    (snd (SessionManager.focusOrCreateSessionForPath env md5_hex8 clients path st))
  = sessionTabMap st /\
  tabAliases
    (snd (SessionManager.focusOrCreateSessionForPath env md5_hex8 clients path st))
  = tabAliases st.
Proof.
  intros Hidem Hne.
  destruct focusOrCreateSessionForPath_cases
    as [(c & w & Hfound & Hw & Hwne & Hvalid & ->)
       | [(c & w & Hfound & Hw & Hwne & Hvalid & ->) | [_ ->]]].
  - destruct (exec_sessions env (WindowExists w) st) as (Hw1 & Hp1 & Ht1).
    cbn [fst snd]. rewrite Ht1, exec_tabAliases.
    split; [| split; [| split; [| split]]]; try reflexivity.
    + intros w' [= <-]. split; [exact Hwne |]. exists c. rewrite Hw1, Hp1.
      split; [exact Hw |].
      destruct (SessionManager.first_with_path _ _ clients) as [c0|] eqn:E;
        [| discriminate Hfound].
      apply first_with_path_Some in E as [_ Hp].
      destruct c0; [discriminate Hfound |]. injection Hfound as <-.
      rewrite Hp, Hidem. reflexivity.
    + intros e H. discriminate H.
    + intros H. discriminate H.
  - apply create_registers; [exact Hidem | exact Hne | |].
    + cbn. apply (exec_sessions env (WindowExists w) st).
    + cbn. apply exec_tabAliases.
  - apply create_registers; [exact Hidem | exact Hne | reflexivity | reflexivity].
Qed.

(** X12: when one client of the registry, and only one, has the resolved
    path, and the channel reports its window to exist, the window is
    returned after that one request: no window is created and the
    registries are as they were. *)
Theorem focusOrCreateSessionForPath_reuses (c w : string) :
  c ∈ clients -> c <> "" ->
  sessionPathMap st !! c = Some (path_resolve env (path_resolve env path)) ->
  (forall c', c' ∈ clients ->
     sessionPathMap st !! c' = Some (path_resolve env (path_resolve env path)) -> c' = c) ->
  sessionWindowMap st !! c = Some w -> w <> "" ->
  reportedToExist env st w = true ->
  SessionManager.focusOrCreateSessionForPath env md5_hex8 clients path st
  = (Return w, snd (exec env (WindowExists w) st)) /\
  sessions (snd (SessionManager.focusOrCreateSessionForPath env md5_hex8 clients path st))
  = sessions st.
Proof.
  intros Hin Hc Hp Hunique Hw Hwne Hvalid.
  assert (Hfound : found = Some c).
  { rewrite (first_with_path_unique _ _ _ c Hin Hp Hunique).
    destruct c; [contradiction | reflexivity]. }
  assert (E : focus = (Return w, snd (exec env (WindowExists w) st))).
  { destruct focusOrCreateSessionForPath_cases
      as [(c' & w' & Hfound' & Hw' & _ & _ & E)
         | [(c' & w' & Hfound' & Hw' & _ & Hvalid' & _)
           | [[Hnone | (c' & Hfound' & Hw')] _]]].
    - rewrite Hfound in Hfound'. injection Hfound' as <-.
      rewrite Hw in Hw'. injection Hw' as <-. exact E.
    - rewrite Hfound in Hfound'. injection Hfound' as <-.
      rewrite Hw in Hw'. injection Hw' as <-.
      rewrite Hvalid in Hvalid'. discriminate Hvalid'.
    - rewrite Hfound in Hnone. discriminate Hnone.
    - rewrite Hfound in Hfound'. injection Hfound' as <-.
      rewrite Hw in Hw'. destruct Hw' as [Hw' | Hw']; [discriminate Hw' |].
      injection Hw' as ->. contradiction. }
  split; [exact E |]. rewrite E. cbn [snd]. unfold sessions.
  destruct (exec_sessions env (WindowExists w) st) as (-> & -> & ->). reflexivity.
Qed.

End ForPath.

Lemma focusOrCreateSessionForPath_registers_witness :
  path_resolve openWindow (path_resolve openWindow "/p") = path_resolve openWindow "/p" /\
  fst (SessionManager.focusOrCreateSessionForPath openWindow digestOfExamples [] "/p"
         freshMachine) = Return "12345" /\
  "12345" <> "" /\
  exists c,
    sessionWindowMap pathSession !! c = Some "12345" /\
    sessionPathMap pathSession !! c = Some "/p".
Proof.
  assert (Hne : path_resolve openWindow "/p" <> "") by (intros H; discriminate H).
  assert (Hrun : fst (SessionManager.focusOrCreateSessionForPath openWindow
                        digestOfExamples [] "/p" freshMachine) = Return "12345")
    by (vm_compute; reflexivity).
  split; [reflexivity |]. split; [exact Hrun |].
  exact (proj1 (focusOrCreateSessionForPath_registers openWindow digestOfExamples []
                  "/p" freshMachine eq_refl Hne) "12345" Hrun).
Defined.

Lemma focusOrCreateSessionForPath_reuses_witness :
  sessionPathMap pathSession !! "path_0a1b2c3d" = Some "/p" /\
  sessionWindowMap pathSession !! "path_0a1b2c3d" = Some "12345" /\
  reportedToExist openWindow pathSession "12345" = true /\
  SessionManager.focusOrCreateSessionForPath openWindow digestOfExamples
    ["path_0a1b2c3d"] "/p" pathSession
  = (Return "12345", snd (exec openWindow (WindowExists "12345") pathSession)) /\
  sessions (snd (SessionManager.focusOrCreateSessionForPath openWindow digestOfExamples
                   ["path_0a1b2c3d"] "/p" pathSession))
  = sessions pathSession.
Proof.
  assert (Hp : sessionPathMap pathSession !! "path_0a1b2c3d"
               = Some (path_resolve openWindow (path_resolve openWindow "/p")))
    by (vm_compute; reflexivity).
  assert (Hw : sessionWindowMap pathSession !! "path_0a1b2c3d" = Some "12345")
    by (vm_compute; reflexivity).
  assert (Hvalid : reportedToExist openWindow pathSession "12345" = true)
    by (vm_compute; reflexivity).
  split; [exact Hp |]. split; [exact Hw |]. split; [exact Hvalid |].
  apply (focusOrCreateSessionForPath_reuses openWindow digestOfExamples
           ["path_0a1b2c3d"] "/p" pathSession "path_0a1b2c3d" "12345").
  - apply list_elem_of_here.
  - intros H. discriminate H.
  - exact Hp.
  - intros c' Hc' _. apply list_elem_of_singleton in Hc'. exact Hc'.
  - exact Hw.
  - intros H. discriminate H.
  - exact Hvalid.
Defined.

Section EndByPath.

Variable env : Env.

Lemma endSessionByPath_run (clients : list string) (path : string) (st : Machine) :
  SessionManager.endSessionByPath env clients path st
  = match JS.truthy (SessionManager.first_with_path
                       (path_resolve env (path_resolve env path))
                       (sessionPathMap st) clients) with
    | None =>
        (Return {| SessionManager.success := false;
                   SessionManager.message :=
                     "No active session found for path: " +:+ path_resolve env path |},
         st)
    | Some c =>
        (Return {| SessionManager.success := true;
                   SessionManager.message :=
                     "Successfully closed session for path: " +:+ path_resolve env path
                       +:+ match fst (SessionManager.getWindowId c st) with
                           | Return (Some w) => " (window " +:+ w +:+ ")"
                           | _ => ""
                           end |},
         snd (SessionManager.endSession env c st))
    end.
Proof.
  unfold SessionManager.endSessionByPath, SessionManager.findSessionByPath.
  unfold bind at 1, gets at 1.
  destruct (JS.truthy _) as [c|]; [| reflexivity].
  destruct (endSession_outcome env c st) as (Hret & _).
  unfold bind at 1, SessionManager.getWindowId at 1, gets at 1.
  unfold try_catch, bind.
  destruct (SessionManager.endSession env c st) as [r st1]. cbn [fst snd] in *. subst r.
  unfold SessionManager.getWindowId, gets, ret. cbn [fst].
  destruct (sessionWindowMap st !! c) as [[|ch rest]|]; reflexivity.
Qed.

(** X13: [endSessionByPath] never throws. It reports a failure only when
    no client of the registry has the resolved path (or the client that
    has it is the empty string), and then it has changed nothing and asked
    nothing; when it reports a success, a client with that path was found,
    and if that client had a window, the one request was to close it and
    the client is left in none of the registries. *)
Theorem endSessionByPath_outcome (clients : list string) (path : string) (st : Machine) :
  exists report,
    fst (SessionManager.endSessionByPath env clients path st) = Return report /\
    (SessionManager.success report = false ->
     snd (SessionManager.endSessionByPath env clients path st) = st /\
     ((forall c, c ∈ clients ->
         sessionPathMap st !! c <> Some (path_resolve env (path_resolve env path))) \/
      ("" ∈ clients /\
       sessionPathMap st !! "" = Some (path_resolve env (path_resolve env path))))) /\
    (SessionManager.success report = true ->
     exists c,
       c ∈ clients /\
       sessionPathMap st !! c = Some (path_resolve env (path_resolve env path)) /\
       forall w, sessionWindowMap st !! c = Some w -> w <> "" ->
         trace (snd (SessionManager.endSessionByPath env clients path st))
         = (trace st ++ [Exec (CloseWindow w)])%list /\
         forgotten (snd (SessionManager.endSessionByPath env clients path st)) c).
Proof.
  rewrite endSessionByPath_run.
  destruct (SessionManager.first_with_path _ (sessionPathMap st) clients) as [c|] eqn:Hfind.
  - destruct c as [|ch rest]; cbn [JS.truthy].
    + eexists. split; [reflexivity |]. cbn [SessionManager.success fst snd].
      split; [| intros H; discriminate H]. intros _. split; [reflexivity |].
      right. exact (first_with_path_Some _ _ _ _ Hfind).
    + eexists. split; [reflexivity |]. cbn [SessionManager.success fst snd].
      split; [intros H; discriminate H |]. intros _.
      apply first_with_path_Some in Hfind as [Hin Hp].
      exists (String ch rest). split; [exact Hin |]. split; [exact Hp |].
      intros w Hw Hne.
      destruct (endSession_outcome env (String ch rest) st) as (_ & _ & Hclosed).
      exact (Hclosed w Hw Hne).
  - cbn [JS.truthy]. eexists. split; [reflexivity |]. cbn [SessionManager.success fst snd].
    split; [| intros H; discriminate H]. intros _. split; [reflexivity |].
    left. intros c Hc. exact (first_with_path_None _ _ _ Hfind c Hc).
Qed.

End EndByPath.

(** ** What the operations of the session manager keep *)

(** The operations on tabs. *)
Section TabOperationsUnchanged.

Variable env : Env.
Context {A : Type}.
Variable f : Machine -> A.
Hypothesis Hf : storeOnly f.

(** The steps that write the tab that a client is tracked on leave [f] as
    it was. *)
Hypothesis Htabs :
  forall tabs st,
    f (with_sessions (sessionWindowMap st) (sessionPathMap st) tabs st) = f st.

Ltac tab_steps :=
  keeps_unchanged;
  try first
    [ apply listTabs_unchanged; exact Hf
    | apply resolveTabIndex_unchanged; exact Hf
    | apply closeTab_unchanged; exact Hf
    | apply selectTab_unchanged; exact Hf
    | apply ensureTab_unchanged; exact Hf
    | apply getTabTty_unchanged; exact Hf
    | apply unchanged_exec; exact Hf
    | apply unchanged_modify; intros ?; apply Htabs ].

Lemma focusOrCreateTab_unchanged (c : string)
    (tabIdentifier : option TabManager.TabIdentifier) :
  keeps (unchanged f) (SessionManager.focusOrCreateTab env c tabIdentifier).
Proof.
  unfold SessionManager.focusOrCreateTab, SessionManager.getWindowId,
    SessionManager.getSessionTabInfo, SessionManager.setSessionTab.
  tab_steps.
Qed.

Lemma listSessionTabs_unchanged (c : string) :
  keeps (unchanged f) (SessionManager.listSessionTabs env c).
Proof.
  unfold SessionManager.listSessionTabs, SessionManager.getWindowId. tab_steps.
Qed.

Lemma closeSessionTab_unchanged (c : string) (tabIdentifier : TabManager.TabIdentifier) :
  keeps (unchanged f) (SessionManager.closeSessionTab env c tabIdentifier).
Proof.
  unfold SessionManager.closeSessionTab, SessionManager.getWindowId,
    SessionManager.setSessionTab, SessionManager.deleteSessionTab.
  tab_steps.
Qed.

Lemma getSessionTabTty_unchanged (c : string) :
  keeps (unchanged f) (SessionManager.getSessionTabTty env c).
Proof.
  unfold SessionManager.getSessionTabTty, SessionManager.getWindowId,
    SessionManager.getSessionTabInfo.
  tab_steps.
Qed.

Lemma closeEach_unchanged (c : string) (tabList : list string) :
  keeps (unchanged f) (SessionManager.closeEach env c tabList).
Proof.
  induction tabList as [|tabIdentifier rest IH]; cbn [SessionManager.closeEach];
    tab_steps.
  apply closeSessionTab_unchanged.
Qed.

End TabOperationsUnchanged.

(** The operations on windows. *)
Section SessionsUnchanged.

Variable env : Env.
Context {A : Type}.
Variable f : Machine -> A.
Hypothesis Hf : storeOnly f.

(** The steps that write a registry of sessions leave [f] as it was. *)
Hypothesis Hsessions :
  forall windows paths tabs st, f (with_sessions windows paths tabs st) = f st.

Ltac session_steps :=
  keeps_unchanged;
  try first
    [ apply validateWindow_unchanged; exact Hf
    | apply unchanged_exec; exact Hf
    | apply unchanged_modify; intros ?; apply Hsessions ].

Lemma createSession_unchanged (c : string) (workingDir : option string) :
  keeps (unchanged f) (SessionManager.createSession env c workingDir).
Proof.
  unfold SessionManager.createSession. session_steps.
Qed.

Lemma endSession_unchanged (c : string) :
  keeps (unchanged f) (SessionManager.endSession env c).
Proof.
  unfold SessionManager.endSession, SessionManager.getWindowId,
    SessionManager.forgetClient.
  session_steps.
Qed.

Lemma refreshSession_unchanged (c : string) :
  keeps (unchanged f) (SessionManager.refreshSession env c).
Proof.
  unfold SessionManager.refreshSession, SessionManager.getWindowId,
    SessionManager.getSessionPath, SessionManager.forgetClient.
  session_steps; apply createSession_unchanged.
Qed.

Lemma focusOrCreateSessionForPath_unchanged (md5_hex8 : string -> string)
    (clients : list string) (path : string) :
  keeps (unchanged f)
    (SessionManager.focusOrCreateSessionForPath env md5_hex8 clients path).
Proof.
  unfold SessionManager.focusOrCreateSessionForPath, SessionManager.findSessionByPath,
    SessionManager.getWindowId, SessionManager.forgetWindowAndPath.
  session_steps; apply createSession_unchanged.
Qed.

Lemma endSessionByPath_unchanged (clients : list string) (path : string) :
  keeps (unchanged f) (SessionManager.endSessionByPath env clients path).
Proof.
  unfold SessionManager.endSessionByPath, SessionManager.findSessionByPath,
    SessionManager.getWindowId.
  session_steps; apply endSession_unchanged.
Qed.

Lemma closeTabs_unchanged (c : string) (tabs : SessionManager.TabsArgument) :
  keeps (unchanged f) (SessionManager.closeTabs env c tabs).
Proof.
  unfold SessionManager.closeTabs, SessionManager.getWindowId.
  session_steps;
    first [apply endSession_unchanged
          | apply closeEach_unchanged; [exact Hf | intros ? ?; apply Hsessions]].
Qed.

Lemma closeTabsByPath_unchanged (clients : list string) (path : string)
    (tabs : SessionManager.TabsArgument) :
  keeps (unchanged f) (SessionManager.closeTabsByPath env clients path tabs).
Proof.
  unfold SessionManager.closeTabsByPath, SessionManager.findSessionByPath.
  session_steps; apply closeTabs_unchanged.
Qed.

End SessionsUnchanged.

Section AliasesKept.

Variable env : Env.
Variable md5_hex8 : string -> string.

Lemma afterOperation_tabAliases (op : SessionOperation) (st : Machine) :
  writesAlias op = false ->
  tabAliases (afterOperation env md5_hex8 op st) = tabAliases st.
Proof.
  assert (Hs : forall windows paths tabs st,
             tabAliases (with_sessions windows paths tabs st) = tabAliases st)
    by reflexivity.
  assert (Ht : forall tabs st,
             tabAliases (with_sessions (sessionWindowMap st) (sessionPathMap st) tabs st)
             = tabAliases st) by reflexivity.
  intros Hop. destruct op; try discriminate Hop; cbn [afterOperation].
  - apply (createSession_unchanged env tabAliases storeOnly_tabAliases Hs).
  - apply (endSession_unchanged env tabAliases storeOnly_tabAliases Hs).
  - apply (refreshSession_unchanged env tabAliases storeOnly_tabAliases Hs).
  - apply (focusOrCreateSessionForPath_unchanged env tabAliases storeOnly_tabAliases Hs).
  - apply (endSessionByPath_unchanged env tabAliases storeOnly_tabAliases Hs).
  - apply (focusOrCreateTab_unchanged env tabAliases storeOnly_tabAliases Ht).
  - apply (listSessionTabs_unchanged env tabAliases storeOnly_tabAliases).
  - apply (closeSessionTab_unchanged env tabAliases storeOnly_tabAliases Ht).
  - apply (getSessionTabTty_unchanged env tabAliases storeOnly_tabAliases).
  - apply (closeTabs_unchanged env tabAliases storeOnly_tabAliases Hs).
  - apply (closeTabsByPath_unchanged env tabAliases storeOnly_tabAliases Hs).
Qed.

(** X14: of the operations of the session manager only [setTabAlias]
    writes the alias tables. Whatever else is done, also the closing of a
    tab or of the window, the alias of a tab stays in the table of its
    window. *)
Theorem aliases_written_by_setTabAlias_only (ops : list SessionOperation) (st : Machine) :
  Forall (fun op => writesAlias op = false) ops ->
  tabAliases (afterOperations env md5_hex8 ops st) = tabAliases st.
Proof.
  unfold afterOperations. revert st.
  induction ops as [|op ops IH]; intros st Hops; [reflexivity |].
  apply Forall_cons in Hops as [Hop Hops]. cbn [fold_left].
  rewrite (IH _ Hops). apply afterOperation_tabAliases, Hop.
Qed.

End AliasesKept.

Lemma aliases_written_by_setTabAlias_only_witness :
  holdsAlias aliasedSession "12345" (JS.Num 1) "build" /\
  sessionWindowMap
    (afterOperations openWindow digestOfExamples
       [CloseSessionTab "c1" (TabManager.ByNumber (JS.Num 1)); EndSession "c1"]
       aliasedSession) !! "c1" = None /\
  tabAliases
    (afterOperations openWindow digestOfExamples
       [CloseSessionTab "c1" (TabManager.ByNumber (JS.Num 1)); EndSession "c1"]
       aliasedSession)
  = tabAliases aliasedSession.
Proof.
  split; [vm_compute; reflexivity |]. split; [vm_compute; reflexivity |].
  apply (aliases_written_by_setTabAlias_only openWindow digestOfExamples
           [CloseSessionTab "c1" (TabManager.ByNumber (JS.Num 1)); EndSession "c1"]
           aliasedSession).
  repeat constructor.
Defined.

(** ** The registry stays well formed *)

Lemma staysRegistered_refl (st : Machine) : staysRegistered st st.
Proof. intros H. exact H. Qed.

Lemma staysRegistered_trans (a b c : Machine) :
  staysRegistered a b -> staysRegistered b c -> staysRegistered a c.
Proof. unfold staysRegistered. auto. Qed.

Lemma staysRegistered_same (st st' : Machine) :
  sessionWindowMap st' = sessionWindowMap st ->
  sessionPathMap st' = sessionPathMap st ->
  staysRegistered st st'.
Proof. intros Hw Hp [H1 H2]. split; rewrite ?Hw, ?Hp; assumption. Qed.

Lemma staysRegistered_unchanged {A : Type} (m : M A) :
  keeps (unchanged (fun st => (sessionWindowMap st, sessionPathMap st))) m ->
  keeps staysRegistered m.
Proof.
  intros Hm st. specialize (Hm st). unfold unchanged in Hm.
  injection Hm as Hw Hp. apply staysRegistered_same; assumption.
Qed.

Lemma staysRegistered_delete (c : string) (st st' : Machine) :
  sessionWindowMap st' = delete c (sessionWindowMap st) ->
  sessionPathMap st' = delete c (sessionPathMap st) ->
  staysRegistered st st'.
Proof.
  intros Hw Hp [H1 H2]. split.
  - intros c' w. rewrite Hw. intros Hc'.
    apply lookup_delete_Some in Hc' as [_ Hc']. exact (H1 c' w Hc').
  - intros c'. rewrite Hw, Hp. intros [p Hc'].
    apply lookup_delete_Some in Hc' as [Hne Hc'].
    destruct (H2 c' (mk_is_Some _ _ Hc')) as [w Hw'].
    exists w. apply lookup_delete_Some. split; assumption.
Qed.

Lemma storeOnly_windows_and_paths :
  storeOnly (fun st => (sessionWindowMap st, sessionPathMap st)).
Proof. intros st st' H1 H2 _ _. rewrite H1, H2. reflexivity. Qed.

Section Registered.

Variable env : Env.

Lemma exec_staysRegistered (c : Command) : keeps staysRegistered (exec env c).
Proof.
  apply staysRegistered_unchanged, unchanged_exec, storeOnly_windows_and_paths.
Qed.

Lemma forgetClient_staysRegistered (c : string) :
  keeps staysRegistered (SessionManager.forgetClient c).
Proof. intros st. apply (staysRegistered_delete c); reflexivity. Qed.

Lemma forgetWindowAndPath_staysRegistered (c : string) :
  keeps staysRegistered (SessionManager.forgetWindowAndPath c).
Proof. intros st. apply (staysRegistered_delete c); reflexivity. Qed.

Lemma createSession_staysRegistered (c : string) (workingDir : option string) :
  keeps staysRegistered (SessionManager.createSession env c workingDir).
Proof.
  intros st [H1 H2].
  destruct (createSession_cases env c workingDir st)
    as [(w & Hne & _ & Hw & Hp & _) | (e & _ & Hs)].
  - split.
    + intros c' w'. rewrite Hw. intros Hc'.
      apply lookup_insert_Some in Hc' as [[_ <-] | [_ Hc']]; [exact Hne | exact (H1 c' w' Hc')].
    + intros c'. rewrite Hw, Hp. intros Hc'.
      destruct (decide (c = c')) as [<-|Hcc].
      * rewrite lookup_insert_eq. eauto.
      * rewrite lookup_insert_ne by exact Hcc. apply H2.
        destruct (JS.truthy workingDir); [rewrite lookup_insert_ne in Hc' by exact Hcc |];
          exact Hc'.
  - unfold sessions in Hs. injection Hs as Hw Hp _. split; rewrite ?Hw, ?Hp; assumption.
Qed.

Lemma validateWindow_staysRegistered (w : string) :
  keeps staysRegistered (SessionManager.validateWindow env w).
Proof.
  apply staysRegistered_unchanged, validateWindow_unchanged, storeOnly_windows_and_paths.
Qed.

Ltac keeps_registered :=
  repeat match goal with
  | |- keeps staysRegistered (ret _) => apply keeps_ret, staysRegistered_refl
  | |- keeps staysRegistered (throw _) => apply keeps_throw, staysRegistered_refl
  | |- keeps staysRegistered (gets _) => apply keeps_gets, staysRegistered_refl
  | |- keeps staysRegistered (bind _ _) =>
      apply keeps_bind; [apply staysRegistered_trans | | intros ?]
  | |- keeps staysRegistered (try_catch _ _) =>
      apply keeps_try_catch; [apply staysRegistered_trans | | intros ?]
  | |- keeps staysRegistered (exec _ _) => apply exec_staysRegistered
  | |- keeps staysRegistered (SessionManager.forgetClient _) =>
      apply forgetClient_staysRegistered
  | |- keeps staysRegistered (SessionManager.forgetWindowAndPath _) =>
      apply forgetWindowAndPath_staysRegistered
  | |- keeps staysRegistered (SessionManager.createSession _ _ _) =>
      apply createSession_staysRegistered
  | |- keeps staysRegistered (SessionManager.validateWindow _ _) =>
      apply validateWindow_staysRegistered
  | |- keeps staysRegistered (match ?x with _ => _ end) => destruct x
  | |- _ => assumption
  end.

Lemma endSession_staysRegistered (c : string) :
  keeps staysRegistered (SessionManager.endSession env c).
Proof.
  unfold SessionManager.endSession, SessionManager.getWindowId. keeps_registered.
Qed.

Lemma refreshSession_staysRegistered (c : string) :
  keeps staysRegistered (SessionManager.refreshSession env c).
Proof.
  unfold SessionManager.refreshSession, SessionManager.getWindowId,
    SessionManager.getSessionPath.
  keeps_registered.
Qed.

Lemma focusOrCreateSessionForPath_staysRegistered (md5_hex8 : string -> string)
    (clients : list string) (path : string) :
  keeps staysRegistered
    (SessionManager.focusOrCreateSessionForPath env md5_hex8 clients path).
Proof.
  unfold SessionManager.focusOrCreateSessionForPath, SessionManager.findSessionByPath,
    SessionManager.getWindowId.
  keeps_registered.
Qed.

Lemma endSessionByPath_staysRegistered (clients : list string) (path : string) :
  keeps staysRegistered (SessionManager.endSessionByPath env clients path).
Proof.
  unfold SessionManager.endSessionByPath, SessionManager.findSessionByPath,
    SessionManager.getWindowId.
  keeps_registered; apply endSession_staysRegistered.
Qed.

Lemma closeTabs_staysRegistered (c : string) (tabs : SessionManager.TabsArgument) :
  keeps staysRegistered (SessionManager.closeTabs env c tabs).
Proof.
  unfold SessionManager.closeTabs, SessionManager.getWindowId.
  keeps_registered;
    first [ apply endSession_staysRegistered
          | apply staysRegistered_unchanged, closeEach_unchanged;
            [apply storeOnly_windows_and_paths | reflexivity] ].
Qed.

Lemma closeTabsByPath_staysRegistered (clients : list string) (path : string)
    (tabs : SessionManager.TabsArgument) :
  keeps staysRegistered (SessionManager.closeTabsByPath env clients path tabs).
Proof.
  unfold SessionManager.closeTabsByPath, SessionManager.findSessionByPath.
  keeps_registered; apply closeTabs_staysRegistered.
Qed.

Lemma setTabAlias_staysRegistered (c : string) (tabIdentifier : TabManager.TabIdentifier)
    (alias : string) :
  keeps staysRegistered (SessionManager.setTabAlias env c tabIdentifier alias).
Proof.
  apply staysRegistered_unchanged.
  unfold SessionManager.setTabAlias, SessionManager.getWindowId, TabManager.setTabAlias.
  keeps_unchanged. apply resolveTabIndex_unchanged, storeOnly_windows_and_paths.
Qed.

Variable md5_hex8 : string -> string.

Lemma afterOperation_registered (op : SessionOperation) (st : Machine) :
  registered st -> registered (afterOperation env md5_hex8 op st).
Proof.
  assert (Ht : forall tabs st,
             (sessionWindowMap
                (with_sessions (sessionWindowMap st) (sessionPathMap st) tabs st),
              sessionPathMap
                (with_sessions (sessionWindowMap st) (sessionPathMap st) tabs st))
             = (sessionWindowMap st, sessionPathMap st)) by reflexivity.
  destruct op; cbn [afterOperation].
  - apply createSession_staysRegistered.
  - apply endSession_staysRegistered.
  - apply refreshSession_staysRegistered.
  - apply focusOrCreateSessionForPath_staysRegistered.
  - apply endSessionByPath_staysRegistered.
  - apply (staysRegistered_unchanged _
             (focusOrCreateTab_unchanged env _ storeOnly_windows_and_paths Ht _ _)).
  - apply (staysRegistered_unchanged _
             (listSessionTabs_unchanged env _ storeOnly_windows_and_paths _)).
  - apply (staysRegistered_unchanged _
             (closeSessionTab_unchanged env _ storeOnly_windows_and_paths Ht _ _)).
  - apply (staysRegistered_unchanged _
             (getSessionTabTty_unchanged env _ storeOnly_windows_and_paths _)).
  - apply setTabAlias_staysRegistered.
  - apply closeTabs_staysRegistered.
  - apply closeTabsByPath_staysRegistered.
Qed.

(** X15: whatever the operations of the session manager that are run, in
    whatever order and whether they return or throw, a registry in which
    every window has a name (it is not the empty string) and every client
    with a working path has a window is again such a registry. *)
Theorem registry_stays_registered (ops : list SessionOperation) (st : Machine) :
  registered st -> registered (afterOperations env md5_hex8 ops st).
Proof.
  unfold afterOperations. revert st.
  induction ops as [|op ops IH]; intros st Hst; [exact Hst |].
  cbn [fold_left]. apply IH, afterOperation_registered, Hst.
Qed.

End Registered.

Lemma registry_stays_registered_witness :
  registered freshMachine /\
  registered
    (afterOperations openWindow digestOfExamples
       [FocusOrCreateSessionForPath [] "/p"; RefreshSession "default";
        FocusOrCreateTab "default" (Some (TabManager.ByString "y"));
        CloseTabs "default" (SessionManager.OneString "all");
        EndSessionByPath ["path_0a1b2c3d"] "/p"] freshMachine).
Proof.
  assert (H0 : registered freshMachine).
  { split.
    - intros c w H. exfalso. exact (lookup_empty_Some (M := gmap string) c w H).
    - intros c [p H]. exfalso. exact (lookup_empty_Some (M := gmap string) c p H). }
  split; [exact H0 |].
  exact (registry_stays_registered openWindow digestOfExamples _ freshMachine H0).
Defined.

(** ** [SessionManager]: the tab that a client is tracked on *)

Section TrackedTab.

Variable env : Env.

Lemma selectTab_trace (w : string) (i : JS.jsnum) (st : Machine) :
  trace (snd (TabManager.selectTab env w i st))
  = (trace st ++ [Exec (SelectTab w (JS.succ i))])%list.
Proof.
  unfold TabManager.selectTab, try_catch, bind, exec.
  destruct (exec_reply env (execs st) _); reflexivity.
Qed.

Lemma focusOrCreateTab_targeted (c : string) (tabIdentifier : TabManager.TabIdentifier)
    (st st' : Machine) (i : JS.jsnum) :
  SessionManager.focusOrCreateTab env c (Some tabIdentifier) st = (Return i, st') ->
  exists w st1 tabName,
    sessionWindowMap st !! c = Some w /\ w <> "" /\
    sessions st1 = sessions st /\
    fst (TabManager.selectTab env w i st1) = Return tt /\
    st' = snd (SessionManager.setSessionTab c
                 {| SessionTabInfo.windowId := w; SessionTabInfo.tabIndex := i;
                    SessionTabInfo.tabName := tabName |}
                 (snd (TabManager.selectTab env w i st1))).
Proof.
  unfold SessionManager.focusOrCreateTab.
  destruct (getWindowId_cases c st) as [(w & Hw & Hne & Hget) | [_ Hget]];
    rewrite (bind_run _ _ _ _ _ Hget); [| intros H; discriminate H].
  intros Hrun.
  apply bind_Return in Hrun as ([i0 tabName] & st1 & Htarget & Hrun).
  apply bind_Return in Hrun as ([] & st2 & Hselect & Hrun).
  apply bind_Return in Hrun as ([] & st3 & Hset & Hrun).
  injection Hrun as <- <-.
  exists w, st1, tabName. split; [exact Hw |]. split; [exact Hne |].
  split; [| split].
  - assert (Hkept : keeps (unchanged sessions)
              (match tabIdentifier with
               | TabManager.ByNumber n => ret (n, None)
               | TabManager.ByString s =>
                   match JS.parseInt s with
                   | JS.NaN =>
                       let* tabIndex := TabManager.ensureTab env w s None in
                       ret (tabIndex, Some s)
                   | JS.Num numericIndex => ret (JS.Num numericIndex, None)
                   end
               end)).
    { keeps_unchanged. apply ensureTab_unchanged, storeOnly_sessions. }
    specialize (Hkept st). rewrite Htarget in Hkept. exact Hkept.
  - rewrite Hselect. reflexivity.
  - rewrite Hselect. cbn [snd]. rewrite Hset. reflexivity.
Qed.

(** X16: when [focusOrCreateTab] has returned the index of the tab that
    was asked for, the client is tracked on that tab of its window, the
    last request was to select it, and a call that names no tab selects
    the same tab again and returns its index. *)
Theorem focusOrCreateTab_remembers (c : string) (tabIdentifier : TabManager.TabIdentifier)
    (st : Machine) (i : JS.jsnum) :
  fst (SessionManager.focusOrCreateTab env c (Some tabIdentifier) st) = Return i ->
  exists w,
    sessionWindowMap st !! c = Some w /\
    (exists info,
       sessionTabMap (snd (SessionManager.focusOrCreateTab env c (Some tabIdentifier) st))
         !! c = Some info /\
       SessionTabInfo.windowId info = w /\ SessionTabInfo.tabIndex info = i) /\
    (exists earlier,
       trace (snd (SessionManager.focusOrCreateTab env c (Some tabIdentifier) st))
       = (earlier ++ [Exec (SelectTab w (JS.succ i))])%list) /\
    SessionManager.focusOrCreateTab env c None
      (snd (SessionManager.focusOrCreateTab env c (Some tabIdentifier) st))
    = (TabManager.selectTab env w i ;; ret i)
        (snd (SessionManager.focusOrCreateTab env c (Some tabIdentifier) st)).
Proof.
  intros Hret.
  destruct (SessionManager.focusOrCreateTab env c (Some tabIdentifier) st)
    as [r st'] eqn:Hrun.
  cbn [fst snd] in *. subst r.
  destruct (focusOrCreateTab_targeted _ _ _ _ _ Hrun)
    as (w & st1 & tabName & Hw & Hne & Hsessions & Hselect & ->).
  exists w. split; [exact Hw |].
  pose proof (selectTab_unchanged env sessions storeOnly_sessions w i st1) as Hsel.
  unfold unchanged in Hsel. rewrite Hsessions in Hsel.
  unfold sessions in Hsel. injection Hsel as Hw2 Hp2 Ht2.
  split; [| split].
  - eexists. cbn. rewrite lookup_insert_eq. split; [reflexivity |]. split; reflexivity.
  - exists (trace st1). cbn [SessionManager.setSessionTab modify snd with_sessions trace].
    apply selectTab_trace.
  - unfold SessionManager.focusOrCreateTab, SessionManager.getSessionTabInfo.
    unfold bind at 1, SessionManager.getWindowId at 1, gets at 1.
    cbn [SessionManager.setSessionTab modify snd with_sessions sessionWindowMap].
    rewrite Hw2, Hw. destruct w as [|ch rest]; [contradiction |].
    unfold bind at 1, gets at 1.
    cbn [with_sessions sessionTabMap]. rewrite lookup_insert_eq.
    cbn [SessionTabInfo.tabIndex]. reflexivity.
Qed.

End TrackedTab.

Lemma focusOrCreateTab_remembers_witness :
  fst (SessionManager.focusOrCreateTab openWindow "c1" (Some (TabManager.ByString "y"))
         (oneSession openWindow)) = Return (JS.Num 1) /\
  exists w,
    sessionWindowMap (oneSession openWindow) !! "c1" = Some w /\
    (exists info,
       sessionTabMap
         (snd (SessionManager.focusOrCreateTab openWindow "c1"
                 (Some (TabManager.ByString "y")) (oneSession openWindow))) !! "c1"
       = Some info /\
       SessionTabInfo.windowId info = w /\ SessionTabInfo.tabIndex info = JS.Num 1) /\
    (exists earlier,
       trace (snd (SessionManager.focusOrCreateTab openWindow "c1"
                     (Some (TabManager.ByString "y")) (oneSession openWindow)))
       = (earlier ++ [Exec (SelectTab w (JS.succ (JS.Num 1)))])%list) /\
    SessionManager.focusOrCreateTab openWindow "c1" None
      (snd (SessionManager.focusOrCreateTab openWindow "c1"
              (Some (TabManager.ByString "y")) (oneSession openWindow)))
    = (TabManager.selectTab openWindow w (JS.Num 1) ;; ret (JS.Num 1))
        (snd (SessionManager.focusOrCreateTab openWindow "c1"
                (Some (TabManager.ByString "y")) (oneSession openWindow))).
Proof.
  assert (Hrun : fst (SessionManager.focusOrCreateTab openWindow "c1"
                        (Some (TabManager.ByString "y")) (oneSession openWindow))
                 = Return (JS.Num 1)) by (vm_compute; reflexivity).
  split; [exact Hrun |].
  exact (focusOrCreateTab_remembers openWindow "c1" (TabManager.ByString "y")
           (oneSession openWindow) (JS.Num 1) Hrun).
Defined.

(** ** Operations that do not look at the aliases *)

Lemma aliasBlind_ret {A : Type} (a : A) : aliasBlind (ret a).
Proof. intros aliases st. reflexivity. Qed.

Lemma aliasBlind_throw {A : Type} (e : string) : aliasBlind (@throw A e).
Proof. intros aliases st. reflexivity. Qed.

Lemma aliasBlind_gets {A : Type} (f : Machine -> A) :
  (forall aliases st, f (with_tabAliases aliases st) = f st) -> aliasBlind (gets f).
Proof. intros Hf aliases st. unfold gets. rewrite Hf. reflexivity. Qed.

Lemma aliasBlind_modify (g : Machine -> Machine) :
  (forall aliases st, g (with_tabAliases aliases st) = with_tabAliases aliases (g st)) ->
  aliasBlind (modify g).
Proof. intros Hg aliases st. unfold modify. rewrite Hg. reflexivity. Qed.

Lemma aliasBlind_exec (env : Env) (c : Command) : aliasBlind (exec env c).
Proof.
  intros aliases st. unfold exec. cbn [with_tabAliases execs].
  destruct (exec_reply env (execs st) c); reflexivity.
Qed.

Lemma aliasBlind_bind {A B : Type} (m : M A) (k : A -> M B) :
  aliasBlind m -> (forall a, aliasBlind (k a)) -> aliasBlind (bind m k).
Proof.
  intros Hm Hk aliases st. unfold bind. rewrite Hm.
  destruct (m st) as [[a|e|] st1]; cbn [fst snd]; [apply Hk | reflexivity ..].
Qed.

Lemma aliasBlind_try_catch {A : Type} (m : M A) (h : string -> M A) :
  aliasBlind m -> (forall e, aliasBlind (h e)) -> aliasBlind (try_catch m h).
Proof.
  intros Hm Hh aliases st. unfold try_catch. rewrite Hm.
  destruct (m st) as [[a|e|] st1]; cbn [fst snd]; [reflexivity | apply Hh | reflexivity].
Qed.

Ltac alias_blind :=
  repeat match goal with
  | |- aliasBlind (ret _) => apply aliasBlind_ret
  | |- aliasBlind (throw _) => apply aliasBlind_throw
  | |- aliasBlind (gets _) => apply aliasBlind_gets; intros ? ?; reflexivity
  | |- aliasBlind (modify _) => apply aliasBlind_modify; intros ? ?; reflexivity
  | |- aliasBlind (exec _ _) => apply aliasBlind_exec
  | |- aliasBlind (bind _ _) => apply aliasBlind_bind; [| intros ?]
  | |- aliasBlind (try_catch _ _) => apply aliasBlind_try_catch; [| intros ?]
  | |- aliasBlind (match ?x with _ => _ end) => destruct x
  | |- aliasBlind (let '(_, _) := ?x in _) => destruct x
  | |- _ => assumption
  end.

Section AliasBlind.

Variable env : Env.

(** The tabs of a listing have the same names and indices whatever the
    aliases are. *)
Lemma parseTabs_names (w tabName : string) (tabStrings : list string)
    (aliases : gmap string (list (JS.jsnum * string))) (st : Machine) :
  exists tabs tabs',
    TabManager.parseTabs w tabStrings st = (Return tabs, st) /\
    TabManager.parseTabs w tabStrings (with_tabAliases aliases st)
    = (Return tabs', with_tabAliases aliases st) /\
    TabManager.index <$> List.find (fun t => String.eqb (TabManager.name t) tabName) tabs
    = TabManager.index <$> List.find (fun t => String.eqb (TabManager.name t) tabName) tabs'.
Proof.
  induction tabStrings as [|tabString rest (tabs & tabs' & H1 & H2 & Hfind)].
  - exists [], []. repeat split.
  - cbn [TabManager.parseTabs].
    unfold bind at 1 3, TabManager.parseTab at 1 2, bind at 1 3,
      TabManager.getTabAlias, gets, ret.
    unfold bind. rewrite H1, H2. eexists. eexists.
    split; [reflexivity |]. split; [reflexivity |].
    cbn [List.find TabManager.name].
    destruct (String.eqb _ tabName); [reflexivity | exact Hfind].
Qed.

Lemma getTabIndex_aliasBlind (w tabName : string) :
  aliasBlind (TabManager.getTabIndex env w tabName).
Proof.
  intros aliases st.
  unfold TabManager.getTabIndex, TabManager.listTabs, try_catch, bind.
  rewrite (aliasBlind_exec env (ListTabs w) aliases st).
  destruct (exec env (ListTabs w) st) as [[stdout|e|] st1]; cbn [fst snd];
    [| reflexivity ..].
  destruct (String.eqb (JS.trim stdout) ""); [reflexivity |].
  destruct (parseTabs_names w tabName (JS.split ", " (JS.trim stdout)) aliases st1)
    as (tabs & tabs' & -> & -> & Hfind).
  unfold ret. cbn [fst snd]. rewrite Hfind. reflexivity.
Qed.

Lemma createTab_aliasBlind (w : string) (profileName tabName : option string) :
  aliasBlind (TabManager.createTab env w profileName tabName).
Proof. unfold TabManager.createTab. alias_blind. Qed.

Lemma selectTab_aliasBlind (w : string) (i : JS.jsnum) :
  aliasBlind (TabManager.selectTab env w i).
Proof. unfold TabManager.selectTab. alias_blind. Qed.

Lemma ensureTab_aliasBlind (w tabName : string) (profileName : option string) :
  aliasBlind (TabManager.ensureTab env w tabName profileName).
Proof.
  unfold TabManager.ensureTab. alias_blind;
    [apply getTabIndex_aliasBlind | apply createTab_aliasBlind].
Qed.

(** X17: [focusOrCreateTab] does not look at the aliases: what it
    returns, what it asks of the channel and what it writes are the same
    whatever the alias tables are, and it leaves them as they were. A
    string that is an alias of a tab is to it the name of a tab, as any
    other string that is not a number. *)
Theorem focusOrCreateTab_ignores_aliases (c : string)
    (tabIdentifier : option TabManager.TabIdentifier)
    (aliases : gmap string (list (JS.jsnum * string))) (st : Machine) :
  SessionManager.focusOrCreateTab env c tabIdentifier (with_tabAliases aliases st)
  = (fst (SessionManager.focusOrCreateTab env c tabIdentifier st),
     with_tabAliases aliases (snd (SessionManager.focusOrCreateTab env c tabIdentifier st))).
Proof.
  revert aliases st. change (aliasBlind (SessionManager.focusOrCreateTab env c tabIdentifier)).
  unfold SessionManager.focusOrCreateTab, SessionManager.getWindowId,
    SessionManager.getSessionTabInfo, SessionManager.setSessionTab.
  alias_blind;
    first [apply selectTab_aliasBlind | apply ensureTab_aliasBlind].
Qed.

End AliasBlind.

Section ClosedTab.

Variable env : Env.

Lemma closeTab_trace (w : string) (i : JS.jsnum) (st : Machine) :
  trace (snd (TabManager.closeTab env w i st))
  = (trace st ++ [Exec (CloseTab w (JS.succ i))])%list.
Proof.
  unfold TabManager.closeTab, try_catch, bind, exec.
  destruct (exec_reply env (execs st) _); reflexivity.
Qed.

(** X18: when [closeSessionTab] has returned, the tab that the identifier
    resolved to was asked to close. A client that was tracked on another
    tab is tracked as before; a client that was tracked on the closed tab
    is tracked on the first tab of its window, or on none. The window of
    the client and the aliases are as they were. *)
Theorem closeSessionTab_tracking (c : string) (tabIdentifier : TabManager.TabIdentifier)
    (st : Machine) :
  fst (SessionManager.closeSessionTab env c tabIdentifier st) = Return tt ->
  exists w i,
    sessionWindowMap st !! c = Some w /\
    fst (TabManager.resolveTabIndex env w tabIdentifier st) = Return i /\
    Exec (CloseTab w (JS.succ i))
      ∈ trace (snd (SessionManager.closeSessionTab env c tabIdentifier st)) /\
    sessionWindowMap (snd (SessionManager.closeSessionTab env c tabIdentifier st))
    = sessionWindowMap st /\
    tabAliases (snd (SessionManager.closeSessionTab env c tabIdentifier st))
    = tabAliases st /\
    match sessionTabMap st !! c with
    | Some info =>
        if JS.strict_eq (SessionTabInfo.tabIndex info) i
        then sessionTabMap (snd (SessionManager.closeSessionTab env c tabIdentifier st)) !! c
             = Some {| SessionTabInfo.windowId := w; SessionTabInfo.tabIndex := JS.Num 0;
                       SessionTabInfo.tabName := None |} \/
             sessionTabMap (snd (SessionManager.closeSessionTab env c tabIdentifier st)) !! c
             = None
        else sessionTabMap (snd (SessionManager.closeSessionTab env c tabIdentifier st)) !! c
             = Some info
    | None =>
        sessionTabMap (snd (SessionManager.closeSessionTab env c tabIdentifier st)) !! c
        = None
    end.
Proof.
  intros Hret.
  pose proof (closeSessionTab_windowKept env c tabIdentifier st) as [_ Hwindow].
  pose proof (closeSessionTab_unchanged env tabAliases storeOnly_tabAliases
                (fun _ _ => eq_refl) c tabIdentifier st) as Haliases.
  unfold unchanged in Haliases.
  destruct (SessionManager.closeSessionTab env c tabIdentifier st) as [r st'] eqn:Hrun.
  cbn [fst snd] in *. subst r. revert Hrun.
  unfold SessionManager.closeSessionTab.
  destruct (getWindowId_cases c st) as [(w & Hw & Hne & Hget) | [_ Hget]];
    rewrite (bind_run _ _ _ _ _ Hget); [| intros H; discriminate H].
  intros Hrun.
  apply bind_Return in Hrun as (i & st1 & Hresolve & Hrun).
  apply bind_Return in Hrun as ([] & st2 & Hclose & Hrun).
  apply bind_Return in Hrun as (info & st3 & Hinfo & Hrun).
  unfold gets in Hinfo. injection Hinfo as <- <-.
  pose proof (resolveTabIndex_unchanged env sessions storeOnly_sessions w tabIdentifier st)
    as H1.
  pose proof (closeTab_unchanged env sessions storeOnly_sessions w i st1) as H2.
  unfold unchanged in H1, H2. rewrite Hresolve in H1. rewrite Hclose in H2.
  cbn [snd] in H1, H2. rewrite H1 in H2. unfold sessions in H2.
  injection H2 as Hw2 Hp2 Ht2.
  pose proof (closeTab_trace w i st1) as Htrace. rewrite Hclose in Htrace. cbn [snd] in Htrace.
  exists w, i. split; [exact Hw |]. split; [rewrite Hresolve; reflexivity |].
  assert (Hlater : forall m : M unit,
            keeps windowKept m -> m st2 = (Return tt, st') ->
            Exec (CloseTab w (JS.succ i)) ∈ trace st').
  { intros m Hm Hm'. destruct (Hm st2) as [(evs & Hevs & _) _].
    rewrite Hm' in Hevs. cbn [snd] in Hevs. rewrite Hevs, Htrace.
    apply elem_of_app. left. apply elem_of_app. right. apply list_elem_of_here. }
  split; [| split; [exact Hwindow | split; [exact Haliases |]]].
  - refine (Hlater _ _ Hrun).
    unfold SessionManager.setSessionTab, SessionManager.deleteSessionTab.
    keeps_window. apply listTabs_windowKept.
  - rewrite <- Ht2.
    destruct (sessionTabMap st2 !! c) as [info|] eqn:Hinfo.
    + destruct (JS.strict_eq (SessionTabInfo.tabIndex info) i).
      * revert Hrun. unfold try_catch, bind.
        pose proof (listTabs_unchanged env sessionTabMap storeOnly_sessionTabMap w st2)
          as Hl. unfold unchanged in Hl.
        destruct (TabManager.listTabs env w st2) as [[tabs|e|] st4]; cbn [snd] in Hl.
        -- destruct (0 <? List.length tabs)%nat; intros [= <-]; cbn.
           ++ left. apply lookup_insert_eq.
           ++ right. apply lookup_delete_eq.
        -- intros [= <-]. right. cbn. apply lookup_delete_eq.
        -- intros H. discriminate H.
      * injection Hrun as <-. exact Hinfo.
    + injection Hrun as <-. exact Hinfo.
Qed.

End ClosedTab.

Lemma closeSessionTab_tracking_witness :
  sessionTabMap trackedOnSecondTab !! "c1"
  = Some {| SessionTabInfo.windowId := "12345"; SessionTabInfo.tabIndex := JS.Num 1;
            SessionTabInfo.tabName := None |} /\
  sessionTabMap
    (snd (SessionManager.closeSessionTab openWindow "c1" (TabManager.ByNumber (JS.Num 1))
            trackedOnSecondTab)) !! "c1"
  = Some {| SessionTabInfo.windowId := "12345"; SessionTabInfo.tabIndex := JS.Num 0;
            SessionTabInfo.tabName := None |} /\
  exists w i,
    sessionWindowMap trackedOnSecondTab !! "c1" = Some w /\
    fst (TabManager.resolveTabIndex openWindow w (TabManager.ByNumber (JS.Num 1))
           trackedOnSecondTab) = Return i /\
    Exec (CloseTab w (JS.succ i))
      ∈ trace (snd (SessionManager.closeSessionTab openWindow "c1"
                      (TabManager.ByNumber (JS.Num 1)) trackedOnSecondTab)) /\
    sessionWindowMap
      (snd (SessionManager.closeSessionTab openWindow "c1"
              (TabManager.ByNumber (JS.Num 1)) trackedOnSecondTab))
    = sessionWindowMap trackedOnSecondTab /\
    tabAliases
      (snd (SessionManager.closeSessionTab openWindow "c1"
              (TabManager.ByNumber (JS.Num 1)) trackedOnSecondTab))
    = tabAliases trackedOnSecondTab /\
    match sessionTabMap trackedOnSecondTab !! "c1" with
    | Some info =>
        if JS.strict_eq (SessionTabInfo.tabIndex info) i
        then sessionTabMap
               (snd (SessionManager.closeSessionTab openWindow "c1"
                       (TabManager.ByNumber (JS.Num 1)) trackedOnSecondTab)) !! "c1"
             = Some {| SessionTabInfo.windowId := w; SessionTabInfo.tabIndex := JS.Num 0;
                       SessionTabInfo.tabName := None |} \/
             sessionTabMap
               (snd (SessionManager.closeSessionTab openWindow "c1"
                       (TabManager.ByNumber (JS.Num 1)) trackedOnSecondTab)) !! "c1"
             = None
        else sessionTabMap
               (snd (SessionManager.closeSessionTab openWindow "c1"
                       (TabManager.ByNumber (JS.Num 1)) trackedOnSecondTab)) !! "c1"
             = Some info
    | None =>
        sessionTabMap
          (snd (SessionManager.closeSessionTab openWindow "c1"
                  (TabManager.ByNumber (JS.Num 1)) trackedOnSecondTab)) !! "c1"
        = None
    end.
Proof.
  assert (Hrun : fst (SessionManager.closeSessionTab openWindow "c1"
                        (TabManager.ByNumber (JS.Num 1)) trackedOnSecondTab) = Return tt)
    by (vm_compute; reflexivity).
  split; [vm_compute; reflexivity |]. split; [vm_compute; reflexivity |].
  exact (closeSessionTab_tracking openWindow "c1" (TabManager.ByNumber (JS.Num 1))
           trackedOnSecondTab Hrun).
Defined.

(** ** Computations that settle, and computations that return *)

Lemma settles_ret {A : Type} (a : A) : settles (ret a).
Proof. intros st H. discriminate H. Qed.

Lemma settles_throw {A : Type} (e : string) : settles (@throw A e).
Proof. intros st H. discriminate H. Qed.

Lemma settles_gets {A : Type} (f : Machine -> A) : settles (gets f).
Proof. intros st H. discriminate H. Qed.

Lemma settles_modify (g : Machine -> Machine) : settles (modify g).
Proof. intros st H. discriminate H. Qed.

Lemma settles_exec (env : Env) (c : Command) : settles (exec env c).
Proof.
  intros st. unfold exec. destruct (exec_reply env (execs st) c); intros H; discriminate H.
Qed.

Lemma settles_bind {A B : Type} (m : M A) (k : A -> M B) :
  settles m -> (forall a, settles (k a)) -> settles (bind m k).
Proof.
  intros Hm Hk st. unfold bind. specialize (Hm st).
  destruct (m st) as [[a|e|] st1]; cbn [fst] in *;
    [apply Hk | intros H; discriminate H | exfalso; apply Hm; reflexivity].
Qed.

Lemma settles_try_catch {A : Type} (m : M A) (h : string -> M A) :
  settles m -> (forall e, settles (h e)) -> settles (try_catch m h).
Proof.
  intros Hm Hh st. unfold try_catch. specialize (Hm st).
  destruct (m st) as [[a|e|] st1]; cbn [fst] in *;
    [intros H; discriminate H | apply Hh | exact Hm].
Qed.

Lemma returns_settles {A : Type} (m : M A) : returns m -> settles m.
Proof. intros Hm st. destruct (Hm st) as [a ->]. intros H. discriminate H. Qed.

Lemma returns_ret {A : Type} (a : A) : returns (ret a).
Proof. intros st. exists a. reflexivity. Qed.

Lemma returns_bind {A B : Type} (m : M A) (k : A -> M B) :
  returns m -> (forall a, returns (k a)) -> returns (bind m k).
Proof.
  intros Hm Hk st. unfold bind. destruct (Hm st) as [a Ha].
  destruct (m st) as [r st1]. cbn [fst] in Ha. subst r. apply Hk.
Qed.

(** A [try] whose [catch] returns. *)
Lemma returns_try_catch {A : Type} (m : M A) (h : string -> M A) :
  settles m -> (forall e, returns (h e)) -> returns (try_catch m h).
Proof.
  intros Hm Hh st. unfold try_catch. specialize (Hm st).
  destruct (m st) as [[a|e|] st1]; cbn [fst] in *.
  - exists a. reflexivity.
  - apply Hh.
  - exfalso. apply Hm. reflexivity.
Qed.

Ltac settles_steps :=
  repeat match goal with
  | |- settles (ret _) => apply settles_ret
  | |- settles (throw _) => apply settles_throw
  | |- settles (gets _) => apply settles_gets
  | |- settles (modify _) => apply settles_modify
  | |- settles (exec _ _) => apply settles_exec
  | |- settles (bind _ _) => apply settles_bind; [| intros ?]
  | |- settles (try_catch _ _) => apply settles_try_catch; [| intros ?]
  | |- settles (match ?x with _ => _ end) => destruct x
  | |- _ => assumption
  end.

Section Reports.

Variable env : Env.

Lemma parseTabs_settles (w : string) (tabStrings : list string) :
  settles (TabManager.parseTabs w tabStrings).
Proof.
  intros st. destruct (parseTabs_machine w tabStrings st) as [tabs ->].
  intros H. discriminate H.
Qed.

Lemma listTabs_settles (w : string) : settles (TabManager.listTabs env w).
Proof. unfold TabManager.listTabs. settles_steps. apply parseTabs_settles. Qed.

Lemma closeSessionTab_settles (c : string) (tabIdentifier : TabManager.TabIdentifier) :
  settles (SessionManager.closeSessionTab env c tabIdentifier).
Proof.
  unfold SessionManager.closeSessionTab, SessionManager.getWindowId,
    TabManager.resolveTabIndex, TabManager.getTabIndexByAlias, TabManager.getTabIndex,
    TabManager.closeTab, SessionManager.setSessionTab, SessionManager.deleteSessionTab.
  settles_steps; apply listTabs_settles.
Qed.

Lemma closeEach_returns (c : string) (tabList : list string) :
  returns (SessionManager.closeEach env c tabList).
Proof.
  induction tabList as [|tabIdentifier rest IH]; cbn [SessionManager.closeEach].
  - apply returns_ret.
  - apply returns_bind.
    + apply returns_try_catch; [| intros e; apply returns_ret].
      apply settles_bind; [apply closeSessionTab_settles | intros ?; apply settles_ret].
    + intros one. apply returns_bind; [exact IH | intros others; apply returns_ret].
Qed.

Lemma endSession_returns (c : string) : returns (SessionManager.endSession env c).
Proof.
  intros st. exists tt. apply (endSession_outcome env c st).
Qed.

Lemma closeTabs_returns (c : string) (tabs : SessionManager.TabsArgument) :
  returns (SessionManager.closeTabs env c tabs).
Proof.
  unfold SessionManager.closeTabs. apply returns_bind.
  - intros st. eexists. reflexivity.
  - intros [w|]; [| apply returns_ret].
    destruct (SessionManager.isAll tabs).
    + apply returns_try_catch; [| intros e; apply returns_ret].
      apply returns_settles, returns_bind;
        [apply endSession_returns | intros ?; apply returns_ret].
    + apply returns_bind; [apply closeEach_returns | intros ?; apply returns_ret].
Qed.

(** X19: [closeTabs] and [closeTabsByPath] never throw: whatever the
    client or the path, the tabs that are named and the answers of the
    channel, the result is a report. For a client without a window the
    report is a failure, and nothing was asked of the channel. *)
Theorem closeTabs_always_reports (tabs : SessionManager.TabsArgument) (st : Machine) :
  (forall c, exists report,
     fst (SessionManager.closeTabs env c tabs st) = Return report) /\
  (forall clients path, exists report,
     fst (SessionManager.closeTabsByPath env clients path tabs st) = Return report) /\
  (forall c, sessionWindowMap st !! c = None ->
     SessionManager.closeTabs env c tabs st
     = (Return {| SessionManager.success := false;
                  SessionManager.message := "No session found for client " +:+ c |}, st)).
Proof.
  split; [| split].
  - intros c. apply closeTabs_returns.
  - intros clients path. revert st.
    change (returns (SessionManager.closeTabsByPath env clients path tabs)).
    unfold SessionManager.closeTabsByPath. apply returns_bind.
    + intros st. eexists. reflexivity.
    + intros clientId. destruct (JS.truthy clientId);
        [apply closeTabs_returns | apply returns_ret].
  - intros c Hc. unfold SessionManager.closeTabs.
    rewrite (bind_run _ _ _ _ _ (getWindowId_absent c st Hc)). reflexivity.
Qed.

End Reports.

(** ** An alias and the tab that it names *)

Lemma first_with_alias_map_set (i : JS.jsnum) (a : string) (l : list (JS.jsnum * string)) :
  TabManager.first_with_alias a l = None ->
  TabManager.first_with_alias a (TabManager.map_set i a l) = Some i.
Proof.
  induction l as [|[k v] l IH]; cbn [TabManager.first_with_alias TabManager.map_set].
  - intros _. rewrite String.eqb_refl. reflexivity.
  - destruct (String.eqb v a) eqn:E; [intros H; discriminate H |]. intros Hl.
    destruct (JS.same_value_zero k i) eqn:Ek; cbn [TabManager.first_with_alias].
    + apply same_value_zero_true in Ek. subst k. rewrite String.eqb_refl. reflexivity.
    + rewrite E. exact (IH Hl).
Qed.

Section AliasRoundTrip.

Variable env : Env.

(** X20: an alias that [parseInt] does not read as a number and that no
    tab of the window has yet, once given to a tab by its index, resolves
    to that tab; neither the giving nor the resolving asks anything of the
    channel. *)
Theorem alias_resolves_to_its_tab (c w : string) (i : JS.jsnum) (a : string)
    (st : Machine) :
  sessionWindowMap st !! c = Some w -> w <> "" ->
  JS.parseInt a = JS.NaN ->
  fst (TabManager.getTabIndexByAlias w a st) = Return None ->
  fst (SessionManager.setTabAlias env c (TabManager.ByNumber i) a st) = Return tt /\
  trace (snd (SessionManager.setTabAlias env c (TabManager.ByNumber i) a st)) = trace st /\
  TabManager.resolveTabIndex env w (TabManager.ByString a)
    (snd (SessionManager.setTabAlias env c (TabManager.ByNumber i) a st))
  = (Return i, snd (SessionManager.setTabAlias env c (TabManager.ByNumber i) a st)).
Proof.
  intros Hw Hne Hnan Hnone.
  assert (E : SessionManager.setTabAlias env c (TabManager.ByNumber i) a st
              = (Return tt, snd (TabManager.setTabAlias w i a st))).
  { unfold SessionManager.setTabAlias.
    rewrite (bind_run _ _ _ _ _ (getWindowId_nonempty c w st Hw Hne)). reflexivity. }
  rewrite E. cbn [fst snd].
  split; [reflexivity |]. split; [reflexivity |].
  unfold TabManager.resolveTabIndex. rewrite Hnan.
  unfold bind, TabManager.getTabIndexByAlias, gets, TabManager.setTabAlias, modify.
  cbn [snd fst with_tabAliases tabAliases].
  rewrite lookup_alter_eq.
  unfold TabManager.getTabIndexByAlias, gets in Hnone. cbn [fst] in Hnone.
  destruct (tabAliases st !! w) as [l|] eqn:Hl.
  - rewrite Hl. cbn. injection Hnone as Hnone.
    rewrite (first_with_alias_map_set i a l Hnone). reflexivity.
  - rewrite lookup_insert_eq. cbn. rewrite String.eqb_refl. reflexivity.
Qed.

End AliasRoundTrip.

Lemma alias_resolves_to_its_tab_witness :
  sessionWindowMap (oneSession openWindow) !! "c1" = Some "12345" /\
  JS.parseInt "build" = JS.NaN /\
  fst (TabManager.getTabIndexByAlias "12345" "build" (oneSession openWindow)) = Return None /\
  TabManager.resolveTabIndex openWindow "12345" (TabManager.ByString "build") aliasedSession
  = (Return (JS.Num 1), aliasedSession).
Proof.
  assert (Hw : sessionWindowMap (oneSession openWindow) !! "c1" = Some "12345")
    by (vm_compute; reflexivity).
  assert (Hne : "12345" <> "") by (intros H; discriminate H).
  assert (Hnone : fst (TabManager.getTabIndexByAlias "12345" "build" (oneSession openWindow))
                  = Return None) by (vm_compute; reflexivity).
  split; [exact Hw |]. split; [reflexivity |]. split; [exact Hnone |].
  exact (proj2 (proj2 (alias_resolves_to_its_tab openWindow "c1" "12345" (JS.Num 1) "build"
                         (oneSession openWindow) Hw Hne eq_refl Hnone))).
Defined.

(** ** [KeySender] and [SendControlCharacter] *)

Lemma KeySender_escape_distributes : distributes KeySender.escapeForAppleScript.
Proof.
  unfold KeySender.escapeForAppleScript.
  apply (distributes_compose
           (fun s => JS.replaceAll _ _ (JS.replaceAll _ _
                       (JS.replaceAll _ _ (JS.replaceAll _ _ s))))
           (JS.replaceAll _ _)); [| apply replaceAll_distributes].
  apply (distributes_compose
           (fun s => JS.replaceAll _ _ (JS.replaceAll _ _ (JS.replaceAll _ _ s)))
           (JS.replaceAll _ _)); [| apply replaceAll_distributes].
  apply (distributes_compose (fun s => JS.replaceAll _ _ (JS.replaceAll _ _ s))
           (JS.replaceAll _ _)); [| apply replaceAll_distributes].
  apply (distributes_compose (JS.replaceAll _ _) (JS.replaceAll _ _));
    apply replaceAll_distributes.
Qed.

(** X21: whatever the text, what [typeText] puts between the double quotes
    of its script stays inside them, and holds no tab, no carriage return
    and no line feed. *)
Theorem typed_text_stays_quoted (text : string) :
  staysQuoted (KeySender.escapeForAppleScript text) = true /\
  (JS.TAB ∉ chars (KeySender.escapeForAppleScript text)) /\
  (JS.CR ∉ chars (KeySender.escapeForAppleScript text)) /\
  (JS.LFchar ∉ chars (KeySender.escapeForAppleScript text)).
Proof.
  split; [| split; [| split]].
  - apply (distributes_staysQuoted _ KeySender_escape_distributes).
    intros a rest. each_char a; reflexivity.
  - apply (distributes_never _ KeySender_escape_distributes).
    intros a. apply absent_forallb. each_char a; reflexivity.
  - apply (distributes_never _ KeySender_escape_distributes).
    intros a. apply absent_forallb. each_char a; reflexivity.
  - apply (distributes_never _ KeySender_escape_distributes).
    intros a. apply absent_forallb. each_char a; reflexivity.
Qed.

Lemma own_In {V : Type} (table : list (string * V)) (key : string) (v : V) :
  KeySender.own table key = Some v -> In (key, v) table.
Proof.
  induction table as [|[k x] table IH]; [intros H; discriminate H |].
  cbn [KeySender.own]. destruct (String.eqb k key) eqn:E.
  - apply String.eqb_eq in E. subst k. intros [= ->]. left. reflexivity.
  - intros H. right. exact (IH H).
Qed.

Lemma control_char_codes (key : string) (n : Z) :
  KeySender.lookup KeySender.CONTROL_CHARS key = Some (KeySender.Code n) ->
  1 <= n <= 27 \/ n = 29.
Proof.
  unfold KeySender.lookup.
  destruct (KeySender.own KeySender.CONTROL_CHARS key) as [m|] eqn:E.
  - intros [= ->]. apply own_In in E.
    assert (H : Forall (fun entry : string * Z => 1 <= entry.2 <= 27 \/ entry.2 = 29)
                  KeySender.CONTROL_CHARS).
    { unfold KeySender.CONTROL_CHARS. repeat constructor; cbn; lia. }
    rewrite Forall_forall in H. apply list_elem_of_In in E. exact (H _ E).
  - destruct (KeySender.inherited key); intros H; discriminate H.
Qed.

Lemma asciiOf_codes (keyCode : KeySender.KeyValue) (n : Z) :
  KeySender.asciiOf keyCode = Some n -> 1 <= n <= 27 \/ n = 29 \/ n = 32.
Proof.
  destruct keyCode as [k|text]; [| intros H; discriminate H].
  unfold KeySender.asciiOf, KeySender.asciiMap. cbn [List.find fst].
  repeat (destruct (_ =? k); [intros [= <-]; cbn; lia |]).
  intros H. discriminate H.
Qed.

Lemma convertModifiers_length (modifierParts texts : list string) :
  KeySender.convertModifiers modifierParts = Return texts ->
  List.length texts = List.length modifierParts.
Proof.
  revert texts. induction modifierParts as [|modifier rest IH]; intros texts.
  - intros [= <-]. reflexivity.
  - cbn [KeySender.convertModifiers].
    destruct (KeySender.lookupModifier modifier); [| intros H; discriminate H].
    destruct (KeySender.convertModifiers rest) as [texts'| |]; try (intros H; discriminate H).
    intros [= <-]. cbn [List.length]. rewrite (IH texts' eq_refl). reflexivity.
Qed.

Lemma convertModifiers_settled (modifierParts : list string) :
  KeySender.convertModifiers modifierParts <> OutOfFuel.
Proof.
  induction modifierParts as [|modifier rest IH];
    cbn [KeySender.convertModifiers]; [intros H; discriminate H |].
  destruct (KeySender.lookupModifier modifier); [| intros H; discriminate H].
  destruct (KeySender.convertModifiers rest); try (intros H; discriminate H).
  exact IH.
Qed.

(** The keys of the four lists have a key code that [sendKeyCode] has no
    character for. *)
Lemma listed_keys_have_no_character (key : string) :
  key ∈ (arrowKeys ++ functionKeys ++ digitKeys ++ letterKeys)%list ->
  exists n,
    KeySender.lookup KeySender.KEY_CODES key = Some (KeySender.Code n) /\
    KeySender.asciiOf (KeySender.Code n) = None.
Proof.
  intros Hin. apply list_elem_of_In in Hin.
  unfold arrowKeys, functionKeys, digitKeys, letterKeys in Hin. cbn [app In] in Hin.
  repeat (destruct Hin as [<- | Hin]; [eexists; split; reflexivity |]).
  contradiction.
Qed.

Lemma arrows_functions_digits_no_control_character (key : string) :
  key ∈ (arrowKeys ++ functionKeys ++ digitKeys)%list ->
  KeySender.lookup KeySender.CONTROL_CHARS key = None.
Proof.
  intros Hin. apply list_elem_of_In in Hin.
  unfold arrowKeys, functionKeys, digitKeys in Hin. cbn [app In] in Hin.
  repeat (destruct Hin as [<- | Hin]; [reflexivity |]).
  contradiction.
Qed.

Lemma letters_control_character (key : string) :
  key ∈ letterKeys ->
  exists code,
    KeySender.lookup KeySender.CONTROL_CHARS key = Some (KeySender.Code code) /\
    1 <= code <= 26.
Proof.
  intros Hin. apply list_elem_of_In in Hin.
  unfold letterKeys in Hin. cbn [In] in Hin.
  repeat (destruct Hin as [<- | Hin]; [eexists; split; [reflexivity | lia] |]).
  contradiction.
Qed.

Section Keys.

Variable windowId : string.

Lemma sendKey_cases (keyInput : string) :
  (exists message, forall executeCommand st,
     KeySender.sendKey executeCommand windowId keyInput st = (Throw message, st)) \/
  (exists asciiCode,
     writable asciiCode /\
     forall executeCommand,
       KeySender.sendKey executeCommand windowId keyInput
       = KeySender.sendAsciiCharacter executeCommand windowId asciiCode).
Proof.
  unfold KeySender.sendKey, KeySender.parseKeyInput.
  fold (modifierPartsOf keyInput). fold (keyOf keyInput).
  destruct (KeySender.convertModifiers (modifierPartsOf keyInput)) as [texts|e|] eqn:Hmods.
  - destruct (bool_decide ("ctrl" ∈ modifierPartsOf keyInput)
              && (List.length (modifierPartsOf keyInput) =? 1)%nat
              && bool_decide (is_Some (KeySender.lookup KeySender.CONTROL_CHARS
                                         (keyOf keyInput)))) eqn:Hctrl.
    + apply andb_true_iff in Hctrl as [_ Hsome]. apply bool_decide_eq_true in Hsome.
      destruct Hsome as [code Hcode]. right. exists code. split.
      * destruct code as [n|text]; [| exact I].
        destruct (control_char_codes _ _ Hcode) as [H | H]; cbn; lia.
      * intros executeCommand. rewrite Hcode. reflexivity.
    + destruct (KeySender.lookup KeySender.KEY_CODES (keyOf keyInput)) as [keyCode|].
      * unfold bind, settle. cbn [KeySender.useKeyCode KeySender.keyCode KeySender.modifiers].
        unfold KeySender.sendKeyCode.
        destruct texts as [|text texts].
        -- destruct (KeySender.asciiOf keyCode) as [asciiCode|] eqn:Hascii.
           ++ right. exists (KeySender.Code asciiCode). split.
              ** exact (asciiOf_codes _ _ Hascii).
              ** intros executeCommand. reflexivity.
           ++ left. eexists. intros executeCommand st. reflexivity.
        -- left. eexists. intros executeCommand st. reflexivity.
      * destruct (bool_decide (is_Some (KeySender.lookup KeySender.CONTROL_CHARS
                                          (keyOf keyInput)))
                  && (List.length texts =? 0)%nat) eqn:Hplain.
        -- apply andb_true_iff in Hplain as [Hsome _].
           apply bool_decide_eq_true in Hsome. destruct Hsome as [code Hcode].
           right. exists code. split.
           ++ destruct code as [n|text]; [| exact I].
              destruct (control_char_codes _ _ Hcode) as [H | H]; cbn; lia.
           ++ intros executeCommand. rewrite Hcode. reflexivity.
        -- left. eexists. intros executeCommand st. reflexivity.
  - left. exists e. intros executeCommand st. reflexivity.
  - exfalso. exact (convertModifiers_settled _ Hmods).
Qed.

(** A key whose code has no character is not sent, unless the first
    branch of [parseKeyInput] takes it as a control character. *)
Lemma sendKey_no_character (keyInput : string) (n : Z) :
  (bool_decide ("ctrl" ∈ modifierPartsOf keyInput)
   && (List.length (modifierPartsOf keyInput) =? 1)%nat
   && bool_decide (is_Some (KeySender.lookup KeySender.CONTROL_CHARS (keyOf keyInput))))
  = false ->
  KeySender.lookup KeySender.KEY_CODES (keyOf keyInput) = Some (KeySender.Code n) ->
  KeySender.asciiOf (KeySender.Code n) = None ->
  exists message, forall executeCommand st,
    KeySender.sendKey executeCommand windowId keyInput st = (Throw message, st).
Proof.
  intros Hctrl Hcode Hascii.
  unfold KeySender.sendKey, KeySender.parseKeyInput.
  fold (modifierPartsOf keyInput). fold (keyOf keyInput).
  destruct (KeySender.convertModifiers (modifierPartsOf keyInput)) as [texts|e|] eqn:Hmods.
  - rewrite Hctrl, Hcode.
    unfold bind, settle. cbn [KeySender.useKeyCode KeySender.keyCode KeySender.modifiers].
    unfold KeySender.sendKeyCode. rewrite Hascii.
    destruct texts; eexists; intros executeCommand st; reflexivity.
  - exists e. intros executeCommand st. reflexivity.
  - exfalso. exact (convertModifiers_settled _ Hmods).
Qed.

(** X22: [sendKey] either throws before anything is run, or runs the
    script that writes one ASCII character; the character is a control
    character from 1 to 27, the character 29 or the space (or, for
    [ctrl+constructor] and the like, the text of a property that every
    object inherits). No other key reaches the terminal: an arrow key, a
    function key or a digit is never sent, whatever its modifiers, and a
    letter is sent only with [ctrl] as its one modifier, as the control
    character of the letter. *)
Theorem sendKey_writes_one_character (keyInput : string) :
  ((exists message, forall executeCommand st,
      KeySender.sendKey executeCommand windowId keyInput st = (Throw message, st)) \/
   (exists asciiCode,
      writable asciiCode /\
      forall executeCommand,
        KeySender.sendKey executeCommand windowId keyInput
        = KeySender.sendAsciiCharacter executeCommand windowId asciiCode)) /\
  (keyOf keyInput ∈ (arrowKeys ++ functionKeys ++ digitKeys)%list ->
   exists message, forall executeCommand st,
     KeySender.sendKey executeCommand windowId keyInput st = (Throw message, st)) /\
  (keyOf keyInput ∈ letterKeys ->
   (modifierPartsOf keyInput <> ["ctrl"] ->
    exists message, forall executeCommand st,
      KeySender.sendKey executeCommand windowId keyInput st = (Throw message, st)) /\
   (modifierPartsOf keyInput = ["ctrl"] ->
    exists code,
      KeySender.lookup KeySender.CONTROL_CHARS (keyOf keyInput)
      = Some (KeySender.Code code) /\
      1 <= code <= 26 /\
      forall executeCommand,
        KeySender.sendKey executeCommand windowId keyInput
        = KeySender.sendAsciiCharacter executeCommand windowId (KeySender.Code code))).
Proof.
  split; [apply sendKey_cases |]. split.
  - intros Hkey.
    destruct (listed_keys_have_no_character (keyOf keyInput)) as (n & Hcode & Hascii).
    { rewrite !app_assoc. apply elem_of_app. left. rewrite <- !app_assoc. exact Hkey. }
    apply (sendKey_no_character keyInput n); [| exact Hcode | exact Hascii].
    rewrite (arrows_functions_digits_no_control_character _ Hkey).
    rewrite (bool_decide_eq_false_2 (is_Some None)) by (apply is_Some_None).
    apply andb_false_r.
  - intros Hkey.
    destruct (listed_keys_have_no_character (keyOf keyInput)) as (n & Hcode & Hascii).
    { rewrite !elem_of_app. right. right. right. exact Hkey. }
    destruct (letters_control_character _ Hkey) as (code & Hcontrol & Hrange).
    split.
    + intros Hnot.
      apply (sendKey_no_character keyInput n); [| exact Hcode | exact Hascii].
      apply andb_false_iff. left.
      destruct (bool_decide ("ctrl" ∈ modifierPartsOf keyInput)
                && (List.length (modifierPartsOf keyInput) =? 1)%nat) eqn:Hctrl;
        [| reflexivity].
      exfalso. apply Hnot.
      apply andb_true_iff in Hctrl as [Hin Hone].
      apply bool_decide_eq_true in Hin. apply Nat.eqb_eq in Hone.
      destruct (modifierPartsOf keyInput) as [|m [|m' ms]]; try discriminate Hone.
      apply list_elem_of_singleton in Hin. subst m. reflexivity.
    + intros Hctrl. exists code. split; [exact Hcontrol |]. split; [exact Hrange |].
      intros executeCommand.
      unfold KeySender.sendKey, KeySender.parseKeyInput.
      fold (modifierPartsOf keyInput). fold (keyOf keyInput).
      rewrite Hctrl, Hcontrol. reflexivity.
Qed.

(** X23: a key with modifiers is never sent, unless it is [ctrl] alone
    with a control character: [sendKey] throws before anything is run. *)
Theorem sendKey_with_modifiers_throws (keyInput : string) :
  modifierPartsOf keyInput <> [] ->
  ~ (modifierPartsOf keyInput = ["ctrl"] /\
     is_Some (KeySender.lookup KeySender.CONTROL_CHARS (keyOf keyInput))) ->
  exists message, forall executeCommand st,
    KeySender.sendKey executeCommand windowId keyInput st = (Throw message, st).
Proof.
  intros Hmodifiers Hnot.
  unfold KeySender.sendKey, KeySender.parseKeyInput.
  fold (modifierPartsOf keyInput). fold (keyOf keyInput).
  destruct (KeySender.convertModifiers (modifierPartsOf keyInput)) as [texts|e|] eqn:Hmods.
  - apply convertModifiers_length in Hmods as Hlen.
    destruct texts as [|text texts].
    { destruct (modifierPartsOf keyInput); [contradiction | discriminate Hlen]. }
    destruct (bool_decide ("ctrl" ∈ modifierPartsOf keyInput)
              && (List.length (modifierPartsOf keyInput) =? 1)%nat
              && bool_decide (is_Some (KeySender.lookup KeySender.CONTROL_CHARS
                                         (keyOf keyInput)))) eqn:Hctrl.
    + exfalso. apply Hnot.
      apply andb_true_iff in Hctrl as [Hctrl Hsome].
      apply andb_true_iff in Hctrl as [Hin Hone].
      apply bool_decide_eq_true in Hin, Hsome. apply Nat.eqb_eq in Hone.
      split; [| exact Hsome].
      destruct (modifierPartsOf keyInput) as [|m [|m' ms]]; try discriminate Hone.
      apply list_elem_of_singleton in Hin. subst m. reflexivity.
    + destruct (KeySender.lookup KeySender.KEY_CODES (keyOf keyInput)) as [keyCode|].
      * eexists. intros executeCommand st. reflexivity.
      * rewrite andb_false_r. eexists. intros executeCommand st. reflexivity.
  - exists e. intros executeCommand st. reflexivity.
  - exfalso. exact (convertModifiers_settled _ Hmods).
Qed.

End Keys.

Lemma sendKey_writes_one_character_witness :
  keyOf "Up" = "up" /\
  (exists message, forall executeCommand st,
     KeySender.sendKey executeCommand "12345" "Up" st = (Throw message, st)) /\
  keyOf "shift+7" = "7" /\
  (exists message, forall executeCommand st,
     KeySender.sendKey executeCommand "12345" "shift+7" st = (Throw message, st)) /\
  keyOf "a" = "a" /\ modifierPartsOf "a" = [] /\
  (exists message, forall executeCommand st,
     KeySender.sendKey executeCommand "12345" "a" st = (Throw message, st)) /\
  keyOf "Ctrl+C" = "c" /\ modifierPartsOf "Ctrl+C" = ["ctrl"] /\
  (exists code,
     KeySender.lookup KeySender.CONTROL_CHARS "c" = Some (KeySender.Code code) /\
     1 <= code <= 26 /\
     forall executeCommand,
       KeySender.sendKey executeCommand "12345" "Ctrl+C"
       = KeySender.sendAsciiCharacter executeCommand "12345" (KeySender.Code code)).
Proof.
  assert (Hup : keyOf "Up" ∈ (arrowKeys ++ functionKeys ++ digitKeys)%list)
    by (apply list_elem_of_In; vm_compute; tauto).
  assert (H7 : keyOf "shift+7" ∈ (arrowKeys ++ functionKeys ++ digitKeys)%list)
    by (apply list_elem_of_In; vm_compute; tauto).
  assert (Ha : keyOf "a" ∈ letterKeys) by (apply list_elem_of_In; vm_compute; tauto).
  assert (Hc : keyOf "Ctrl+C" ∈ letterKeys) by (apply list_elem_of_In; vm_compute; tauto).
  split; [reflexivity |].
  split; [exact (proj1 (proj2 (sendKey_writes_one_character "12345" "Up")) Hup) |].
  split; [reflexivity |].
  split; [exact (proj1 (proj2 (sendKey_writes_one_character "12345" "shift+7")) H7) |].
  split; [reflexivity |]. split; [reflexivity |].
  split.
  { apply (proj1 (proj2 (proj2 (sendKey_writes_one_character "12345" "a")) Ha)).
    intros H. discriminate H. }
  split; [reflexivity |]. split; [reflexivity |].
  apply (proj2 (proj2 (proj2 (sendKey_writes_one_character "12345" "Ctrl+C")) Hc)).
  reflexivity.
Defined.

Lemma sendKey_with_modifiers_throws_witness :
  modifierPartsOf "shift+tab" = ["shift"] /\
  keyOf "shift+tab" = "tab" /\
  exists message, forall executeCommand st,
    KeySender.sendKey executeCommand "12345" "shift+tab" st = (Throw message, st).
Proof.
  split; [reflexivity |]. split; [reflexivity |].
  apply (sendKey_with_modifiers_throws "12345" "shift+tab").
  - intros H. discriminate H.
  - intros [H _]. discriminate H.
Defined.

(** X24: for a letter of the alphabet, in either case, the two senders
    write the same control character: [SendControlCharacter.send] with the
    letter and [KeySender.sendKey] with [ctrl+] and the letter both take
    the position of the letter in the alphabet. *)
Theorem control_letters_agree (c : ascii) :
  isLetter c = true ->
  SendControlCharacter.controlCode (String c "") = Return (alphabetPosition c) /\
  KeySender.parseKeyInput ("ctrl+" +:+ String c "")
  = Return {| KeySender.keyCode := None;
              KeySender.asciiCode := Some (KeySender.Code (alphabetPosition c));
              KeySender.modifiers := [];
              KeySender.useKeyCode := false |} /\
  1 <= alphabetPosition c <= 26.
Proof.
  intros Hletter.
  each_char c; first [discriminate Hletter | vm_compute; repeat split; discriminate].
Qed.

Lemma control_letters_agree_witness :
  isLetter "c" = true /\
  SendControlCharacter.controlCode "c" = Return 3 /\
  KeySender.parseKeyInput "ctrl+c"
  = Return {| KeySender.keyCode := None;
              KeySender.asciiCode := Some (KeySender.Code 3);
              KeySender.modifiers := [];
              KeySender.useKeyCode := false |} /\
  1 <= 3 <= 26.
Proof.
  split; [reflexivity |].
  exact (control_letters_agree "c" eq_refl).
Defined.

Lemma toUpperCase_capital (letter : string) :
  SendControlCharacter.isCapitalLetter letter = true ->
  1 <= SendControlCharacter.charCodeAt0 letter - 64 <= 26.
Proof.
  destruct letter as [|c [|c' rest]]; try (intros H; discriminate H).
  cbn [SendControlCharacter.isCapitalLetter SendControlCharacter.charCodeAt0].
  intros H. apply andb_true_iff in H as [H1 H2].
  apply Nat.leb_le in H1, H2. lia.
Qed.

Section ControlCharacter.

Variable windowId : string.

(** X25: [send] either throws [Invalid control character letter] before
    anything is run, or runs the script that writes one control character,
    from 1 to 27 or the character 29, and wraps the error of the script
    when it fails. *)
Theorem send_writes_a_control_character (letter : string) :
  (forall executeCommand st,
     SendControlCharacter.send executeCommand windowId letter st
     = (Throw "Invalid control character letter", st)) \/
  (exists controlCode,
     (1 <= controlCode <= 27 \/ controlCode = 29) /\
     forall executeCommand,
       SendControlCharacter.send executeCommand windowId letter
       = try_catch
           (executeCommand {| SendControlCharacter.window := windowId;
                              SendControlCharacter.asciiCharacter := controlCode |}
              windowId)
           (fun message => throw ("Failed to send control character: " +:+ message))).
Proof.
  unfold SendControlCharacter.send, SendControlCharacter.controlCode.
  destruct (String.eqb (JS.toUpperCase letter) "]").
  { right. exists 29. split; [lia | reflexivity]. }
  destruct (String.eqb (JS.toUpperCase letter) "ESCAPE"
            || String.eqb (JS.toUpperCase letter) "ESC").
  { right. exists 27. split; [lia | reflexivity]. }
  destruct (SendControlCharacter.isCapitalLetter (JS.toUpperCase letter)) eqn:Hcapital;
    cbn [negb].
  - right. eexists. split; [| reflexivity].
    pose proof (toUpperCase_capital _ Hcapital). lia.
  - left. reflexivity.
Qed.

End ControlCharacter.

(** ** [CommandExecutor]: the first phase *)

Section FirstPhase.

Variable env : Env.

Lemma isProcessing_still (w : string) (tab : option JS.jsnum) (st : Machine) :
  stillProcessing env w tab (execs st) ->
  CommandExecutor.isProcessing env w tab st
  = (Return true,
     snd (exec env (IsProcessing w (TtyOutputReader.sessionTarget tab)) st)).
Proof.
  intros (s & Hs & Htrue).
  unfold CommandExecutor.isProcessing, try_catch, bind, exec. rewrite Hs, Htrue. reflexivity.
Qed.

Lemma isProcessing_done (w : string) (tab : option JS.jsnum) (st : Machine) :
  doneProcessing env w tab (execs st) ->
  CommandExecutor.isProcessing env w tab st
  = (Return false,
     snd (exec env (IsProcessing w (TtyOutputReader.sessionTarget tab)) st)).
Proof.
  intros (s & Hs & Hfalse).
  unfold CommandExecutor.isProcessing, try_catch, bind, exec. rewrite Hs.
  unfold ret. rewrite (proj2 (String.eqb_neq _ _) Hfalse). reflexivity.
Qed.

Lemma exec_counts (c : Command) (st : Machine) :
  execs (snd (exec env c st)) = S (execs st) /\
  clock (snd (exec env c st)) = clock st + Z.of_nat (exec_latency env (execs st)).
Proof. unfold exec. destruct (exec_reply env (execs st) c); split; reflexivity. Qed.

(** X26: when the session reports [k] times that it is processing and
    then that it is not, [waitForProcessingComplete] returns, given fuel
    for more than [k] rounds: it has asked [k + 1] times and slept 100 ms
    after each of the first [k] answers, and nothing else; the time that
    has passed is that of the sleeps and of the requests. *)
Theorem waitForProcessingComplete_polls (w : string) (tab : option JS.jsnum) (k : nat) :
  forall (st : Machine) (fuel : nat),
    (forall j, (j < k)%nat -> stillProcessing env w tab (execs st + j)) ->
    doneProcessing env w tab (execs st + k) ->
    (k < fuel)%nat ->
    exists st',
      CommandExecutor.waitForProcessingComplete env fuel w tab st = (Return tt, st') /\
      execs st' = (execs st + k + 1)%nat /\
      clock st' = clock st + 100 * Z.of_nat k + channelTime env (execs st) (k + 1) /\
      trace st'
      = (trace st ++ pollingRounds w tab k
           ++ [Exec (IsProcessing w (TtyOutputReader.sessionTarget tab))])%list.
Proof.
  induction k as [|k IH]; intros st fuel Hstill Hdone Hfuel.
  - destruct fuel as [|fuel]; [lia |].
    cbn [CommandExecutor.waitForProcessingComplete].
    rewrite Nat.add_0_r in Hdone.
    rewrite (bind_run _ _ _ _ _ (isProcessing_done w tab st Hdone)).
    eexists. split; [reflexivity |].
    destruct (exec_counts (IsProcessing w (TtyOutputReader.sessionTarget tab)) st)
      as [He Hc].
    rewrite He, Hc, exec_trace. cbn [channelTime pollingRounds Nat.add].
    repeat split; [lia | lia].
  - destruct fuel as [|fuel]; [lia |].
    cbn [CommandExecutor.waitForProcessingComplete].
    assert (H0 : stillProcessing env w tab (execs st)).
    { specialize (Hstill 0%nat). rewrite Nat.add_0_r in Hstill. apply Hstill. lia. }
    rewrite (bind_run _ _ _ _ _ (isProcessing_still w tab st H0)).
    destruct (exec_counts (IsProcessing w (TtyOutputReader.sessionTarget tab)) st)
      as [He Hc].
    set (st1 := snd (exec env (IsProcessing w (TtyOutputReader.sessionTarget tab)) st)) in *.
    unfold bind at 1, sleep at 1.
    set (st2 := advance 100 (record (Sleep 100) st1)).
    assert (He2 : execs st2 = S (execs st)) by (unfold st2; cbn; exact He).
    destruct (IH st2 fuel) as (st' & Hrun & Hexecs & Hclock & Htrace).
    + intros j Hj. rewrite He2. replace (S (execs st) + j)%nat with (execs st + S j)%nat by lia.
      apply Hstill. lia.
    + rewrite He2. replace (S (execs st) + k)%nat with (execs st + S k)%nat by lia.
      exact Hdone.
    + lia.
    + exists st'. split; [exact Hrun |]. split; [lia |]. split.
      * rewrite Hclock, He2. unfold st2. cbn [advance clock record]. rewrite Hc.
        replace (S k + 1)%nat with (S (k + 1)) by lia. cbn [channelTime]. lia.
      * rewrite Htrace. unfold st2. cbn [advance trace record].
        unfold st1. rewrite exec_trace. cbn [pollingRounds].
        rewrite <- !app_assoc. reflexivity.
Qed.

(** X27: when the wait of the first phase settles only after a quarter of
    the timeout has passed, the command is rejected with the message of
    the first phase, whatever the wait has settled with, and nothing else
    is done: the terminal is not looked up and the buffer is not read
    again. *)
Theorem first_phase_overrun (fuel : nat) (w command : string) (timeoutSeconds : Q)
    (returnOutputLines : Z) (tab : option JS.jsnum) (st st1 st2 : Machine)
    (beforeLines : Z) (r : outcome unit) :
  CommandExecutor.submit env w command tab st = (Return beforeLines, st1) ->
  CommandExecutor.waitForProcessingComplete env fuel w tab st1 = (r, st2) ->
  settled r ->
  (CommandExecutor.processingTimeout (timeoutSeconds * 1000)
   <= inject_Z (clock st2 - clock st1))%Q ->
  CommandExecutor.executeCommand env fuel w command timeoutSeconds returnOutputLines tab st
  = (Throw ("Failed to execute command: "
              +:+ "Command timed out waiting for processing to complete ("
              +:+ number_to_string env
                    (CommandExecutor.processingTimeout (timeoutSeconds * 1000) / 1000)%Q
              +:+ "s)"), st2).
Proof.
  intros Hsubmit Hwait Hsettled Hlate.
  unfold CommandExecutor.executeCommand, CommandExecutor.executeCommandWith.
  unfold bind at 1, now at 1. unfold try_catch.
  rewrite (bind_run _ _ _ _ _ Hsubmit).
  unfold bind at 1, CommandExecutor.drainProcessing, CommandExecutor.withTimeout.
  rewrite Hwait.
  assert (Hnot : Qltb (inject_Z (clock st2 - clock st1))
                   (CommandExecutor.processingTimeout (timeoutSeconds * 1000)) = false).
  { unfold Qltb. apply negb_false_iff. apply Qle_bool_iff. exact Hlate. }
  destruct r as [[]|e|]; [| | exfalso; apply Hsettled; reflexivity];
    rewrite Hnot; reflexivity.
Qed.

End FirstPhase.

Lemma waitForProcessingComplete_polls_witness :
  execs busySubmitted = 2%nat /\
  exists st',
    CommandExecutor.waitForProcessingComplete busyWorld 10 "w" None busySubmitted
    = (Return tt, st') /\
    execs st' = (execs busySubmitted + 3 + 1)%nat /\
    clock st' = clock busySubmitted + 100 * Z.of_nat 3
                + channelTime busyWorld (execs busySubmitted) (3 + 1) /\
    trace st'
    = (trace busySubmitted ++ pollingRounds "w" None 3
         ++ [Exec (IsProcessing "w" (TtyOutputReader.sessionTarget None))])%list.
Proof.
  split; [reflexivity |].
  apply (waitForProcessingComplete_polls busyWorld "w" None 3 busySubmitted 10).
  - intros j Hj. exists "true". split; [| reflexivity].
    destruct j as [|[|[|j]]]; [reflexivity | reflexivity | reflexivity | lia].
  - exists "false". split; [reflexivity | intros H; discriminate H].
  - lia.
Defined.

Lemma first_phase_overrun_witness :
  (CommandExecutor.processingTimeout (1 * 1000) == 250)%Q /\
  clock (snd (CommandExecutor.waitForProcessingComplete busyWorld 10 "w" None busySubmitted))
  - clock busySubmitted = 340 /\
  CommandExecutor.executeCommand busyWorld 10 "w" "make" 1 0 None freshMachine
  = (Throw ("Failed to execute command: "
              +:+ "Command timed out waiting for processing to complete ("
              +:+ number_to_string busyWorld
                    (CommandExecutor.processingTimeout (1 * 1000) / 1000)%Q
              +:+ "s)"),
     snd (CommandExecutor.waitForProcessingComplete busyWorld 10 "w" None busySubmitted)).
Proof.
  assert (Hsubmit : CommandExecutor.submit busyWorld "w" "make" None freshMachine
                    = (Return 1, busySubmitted)) by (vm_compute; reflexivity).
  assert (Hwait : CommandExecutor.waitForProcessingComplete busyWorld 10 "w" None
                    busySubmitted
                  = (Return tt,
                     snd (CommandExecutor.waitForProcessingComplete busyWorld 10 "w" None
                            busySubmitted))) by (vm_compute; reflexivity).
  split; [vm_compute; reflexivity |]. split; [vm_compute; reflexivity |].
  apply (first_phase_overrun busyWorld 10 "w" "make" 1 0 None freshMachine busySubmitted
           (snd (CommandExecutor.waitForProcessingComplete busyWorld 10 "w" None
                   busySubmitted))
           1 (Return tt) Hsubmit Hwait).
  - intros H. discriminate H.
  - vm_compute. discriminate.
Defined.

(** ** [CommandExecutor]: what is sent, and the descriptors *)

Section Watching.

Variable env : Env.

Lemma isProcessing_watching (w : string) (tab : option JS.jsnum) :
  keeps (emits watching) (CommandExecutor.isProcessing env w tab).
Proof. unfold CommandExecutor.isProcessing. keeps_emits. Qed.

Lemma waitForProcessingComplete_watching (fuel : nat) (w : string)
    (tab : option JS.jsnum) :
  keeps (emits watching) (CommandExecutor.waitForProcessingComplete env fuel w tab).
Proof.
  induction fuel as [|fuel IH]; simpl; keeps_emits.
  apply isProcessing_watching.
Qed.

Lemma isWaitingForUserInput_watching (polls : nat) (ttyPath : string) :
  keeps (emits watching) (CommandExecutor.isWaitingForUserInput env polls ttyPath).
Proof.
  intros st. destruct (isWaitingForUserInput_events env polls ttyPath st) as (evs & Ht & HF).
  exists (OpenSync ttyPath :: evs). split; [exact Ht |].
  constructor; [exact I |].
  eapply Forall_impl; [exact HF |].
  intros [c| | | |] H; simpl in *; first [exact I | contradiction].
Qed.

Lemma waitForUserInputReady_watching (fuel polls : nat) (w ttyPath : string) :
  keeps (emits watching) (CommandExecutor.waitForUserInputReady env fuel polls w ttyPath).
Proof.
  induction fuel as [|fuel IH]; simpl; keeps_emits.
  apply isWaitingForUserInput_watching.
Qed.

(** Once the command is written, it is only watched. *)
Lemma after_submit_watching (capture : string -> Z -> outcome string) (fuel : nat)
    (w : string) (timeoutSeconds : Q) (returnOutputLines : Z) (tab : option JS.jsnum)
    (startTime beforeLines : Z) :
  keeps (emits watching)
    (CommandExecutor.drainProcessing env fuel w tab (timeoutSeconds * 1000) ;;
     CommandExecutor.confirmIdle env fuel w tab startTime timeoutSeconds ;;
     CommandExecutor.collect env capture w tab startTime beforeLines returnOutputLines).
Proof.
  unfold CommandExecutor.drainProcessing, CommandExecutor.confirmIdle,
    CommandExecutor.retrieveTtyPath, CommandExecutor.collect,
    TtyOutputReader.retrieveBuffer.
  keeps_emits.
  - apply waitForProcessingComplete_watching.
  - apply waitForUserInputReady_watching.
Qed.

Lemma exec_run (c : Command) (st : Machine) :
  exists st1,
    trace st1 = (trace st ++ [Exec c])%list /\
    exec env c st
    = (match exec_reply env (execs st) c with
       | Stdout s => Return s
       | Fails e => Throw e
       end, st1).
Proof.
  unfold exec. destruct (exec_reply env (execs st) c); eexists; (split; [| reflexivity]);
    reflexivity.
Qed.

(** What [submit] asks of the channel: the buffer, and then, when the
    buffer was returned, the writing of the command. *)
Lemma submit_requests (w command : string) (tab : option JS.jsnum) (st : Machine) :
  (exists e st1,
     exec_reply env (execs st) (GetContents w (TtyOutputReader.sessionTarget tab))
       = Fails e /\
     CommandExecutor.submit env w command tab st = (Throw e, st1) /\
     trace st1 = (trace st ++ [Exec (GetContents w (TtyOutputReader.sessionTarget tab))])%list) \/
  (exists r st1,
     CommandExecutor.submit env w command tab st = (r, st1) /\
     trace st1
     = (trace st ++ [Exec (GetContents w (TtyOutputReader.sessionTarget tab));
                     Exec (WriteText w (TtyOutputReader.sessionTarget tab) command
                             (JS.includes JS.LF command))])%list).
Proof.
  unfold CommandExecutor.submit, TtyOutputReader.retrieveBuffer, bind.
  destruct (exec_run (GetContents w (TtyOutputReader.sessionTarget tab)) st)
    as (st1 & Ht1 & E1).
  rewrite E1.
  destruct (exec_reply env (execs st) (GetContents w (TtyOutputReader.sessionTarget tab)))
    as [s|e].
  - right. unfold ret.
    destruct (exec_run (WriteText w (TtyOutputReader.sessionTarget tab) command
                          (JS.includes JS.LF command)) st1) as (st2 & Ht2 & E2).
    rewrite E2.
    assert (Ht : trace st2
                 = (trace st ++ [Exec (GetContents w (TtyOutputReader.sessionTarget tab));
                                 Exec (WriteText w (TtyOutputReader.sessionTarget tab)
                                         command (JS.includes JS.LF command))])%list)
      by (rewrite Ht2, Ht1, <- app_assoc; reflexivity).
    destruct (exec_reply env (execs st1) _); eexists _, st2; (split; [reflexivity | exact Ht]).
  - left. exists e, st1. split; [reflexivity |]. split; [reflexivity | exact Ht1].
Qed.

Lemma rethrow_machine {A : Type} (m : M A) (wrap : string -> string) (st : Machine) :
  snd (try_catch m (fun message => throw (wrap message)) st) = snd (m st).
Proof. unfold try_catch, throw. destruct (m st) as [[a|e|] st1]; reflexivity. Qed.

(** X28: [executeCommand] first reads the buffer. When that read fails it
    throws without having written anything; otherwise it asks the channel
    to write the command, once and as it was given, and whatever happens
    then, and however the call ends, the command is only watched: nothing
    is written again, and no window or tab is created, selected or
    closed. *)
Theorem command_is_written_once (fuel : nat) (w command : string) (timeoutSeconds : Q)
    (returnOutputLines : Z) (tab : option JS.jsnum) (st : Machine) :
  exists evs,
    trace (snd (CommandExecutor.executeCommand env fuel w command timeoutSeconds
                  returnOutputLines tab st))
    = (trace st ++ Exec (GetContents w (TtyOutputReader.sessionTarget tab)) :: evs)%list /\
    ((evs = [] /\
      exists e,
        exec_reply env (execs st) (GetContents w (TtyOutputReader.sessionTarget tab))
          = Fails e /\
        fst (CommandExecutor.executeCommand env fuel w command timeoutSeconds
               returnOutputLines tab st)
        = Throw ("Failed to execute command: " +:+ e)) \/
     (exists watched,
        evs = Exec (WriteText w (TtyOutputReader.sessionTarget tab) command
                      (JS.includes JS.LF command)) :: watched /\
        Forall watching watched)).
Proof.
  pose proof (after_submit_watching CommandExecutor.tryCaptureTail fuel w timeoutSeconds
                returnOutputLines tab (clock st)) as Hafter.
  assert (Hrun :
    CommandExecutor.executeCommand env fuel w command timeoutSeconds returnOutputLines tab st
    = try_catch
        (let* beforeLines := CommandExecutor.submit env w command tab in
         CommandExecutor.drainProcessing env fuel w tab (timeoutSeconds * 1000) ;;
         CommandExecutor.confirmIdle env fuel w tab (clock st) timeoutSeconds ;;
         CommandExecutor.collect env CommandExecutor.tryCaptureTail w tab (clock st)
           beforeLines returnOutputLines)
        (fun message => throw ("Failed to execute command: " +:+ message)) st)
    by reflexivity.
  rewrite Hrun. clear Hrun.
  destruct (submit_requests w command tab st)
    as [(e & st1 & He & Hsubmit & Ht) | (r & st1 & Hsubmit & Ht)].
  - exists []. unfold try_catch, bind. rewrite Hsubmit. cbn [fst snd throw].
    split; [exact Ht |]. left. split; [reflexivity |]. exists e. split; [exact He | reflexivity].
  - rewrite rethrow_machine. unfold bind. rewrite Hsubmit.
    destruct r as [beforeLines|e|].
    + destruct (Hafter beforeLines st1) as (watched & Hw & HF).
      exists (Exec (WriteText w (TtyOutputReader.sessionTarget tab) command
                      (JS.includes JS.LF command)) :: watched).
      split.
      * unfold bind in Hw. rewrite Hw, Ht, <- app_assoc. reflexivity.
      * right. exists watched. split; [reflexivity | exact HF].
    + eexists. cbn [snd]. split; [exact Ht |].
      right. exists []. split; [reflexivity | constructor].
    + eexists. cbn [snd]. split; [exact Ht |].
      right. exists []. split; [reflexivity | constructor].
Qed.

End Watching.

Lemma filter_other_than (fd : nat) (l : list nat) :
  Forall (fun x => (x < fd)%nat) l -> filter (fun x => x <> fd) l = l.
Proof.
  induction 1 as [|x l Hx _ IH]; [reflexivity |].
  rewrite filter_cons_True by lia. rewrite IH. reflexivity.
Qed.

(** Closing the descriptor that was opened last. *)
Lemma closeSync_opened (fd : nat) (l : list nat) (st : Machine) :
  open_fds st = fd :: l ->
  Forall (fun x => (x < fd)%nat) l ->
  exists st',
    closeSync fd st = (Return tt, st') /\
    open_fds st' = l /\
    next_fd st' = next_fd st /\
    trace st' = (trace st ++ [CloseSync fd])%list.
Proof.
  intros Ho Hl. unfold closeSync. cbn [open_fds record].
  rewrite bool_decide_eq_true_2 by (rewrite Ho; apply list_elem_of_here).
  eexists. split; [reflexivity |]. cbn [open_fds next_fd trace record].
  split; [| split; reflexivity].
  rewrite Ho, filter_cons_False by (intros H; apply H; reflexivity).
  apply filter_other_than, Hl.
Qed.

Section Descriptors.

Variable env : Env.

Lemma exec_descriptors (c : Command) : keeps (unchanged descriptors) (exec env c).
Proof. intros st. unfold exec. destruct (exec_reply env (execs st) c); reflexivity. Qed.

Lemma sleep_descriptors (ms : Z) : keeps (unchanged descriptors) (sleep ms).
Proof. intros st. reflexivity. Qed.

Lemma now_descriptors : keeps (unchanged descriptors) now.
Proof. intros st. reflexivity. Qed.

Lemma getActiveProcess_descriptors (ttyPath : string) :
  keeps (unchanged descriptors) (getActiveProcess env ttyPath).
Proof.
  intros st. unfold getActiveProcess.
  destruct (inspect_reply env (inspections st) ttyPath); reflexivity.
Qed.

(** The polling loop opens and closes nothing. *)
Lemma pollActivity_descriptors (fuel : nat) (ttyPath : string) (below : Z) :
  keeps (unchanged descriptors) (CommandExecutor.pollActivity env fuel ttyPath below).
Proof.
  revert below. induction fuel as [|fuel IH]; intros below; simpl; keeps_unchanged;
    first [apply getActiveProcess_descriptors | apply sleep_descriptors | apply IH].
Qed.

Lemma pollActivity_inspecting (fuel : nat) (ttyPath : string) (below : Z) :
  keeps (emits inspecting) (CommandExecutor.pollActivity env fuel ttyPath below).
Proof.
  revert below. induction fuel as [|fuel IH]; intros below; simpl; keeps_emits.
  apply IH.
Qed.

Lemma tidy_unchanged {A : Type} (m : M A) : keeps (unchanged descriptors) m -> tidy m.
Proof.
  intros Hm st Hd _. specialize (Hm st). unfold unchanged, descriptors in Hm.
  injection Hm as Ho Hn. split; [exact Ho |].
  unfold descriptorsInUse. rewrite Ho, Hn. exact Hd.
Qed.

Lemma tidy_bind {A B : Type} (m : M A) (k : A -> M B) :
  tidy m -> (forall a, tidy (k a)) -> tidy (bind m k).
Proof.
  intros Hm Hk st Hd. unfold bind. specialize (Hm st Hd).
  destruct (m st) as [[a|e|] st1]; cbn [fst snd] in *; intros Hs.
  - destruct Hm as [Ho Hd1]; [intros H; discriminate H |].
    destruct (Hk a st1 Hd1 Hs) as [Ho2 Hd2]. split; [congruence | exact Hd2].
  - apply Hm. intros H; discriminate H.
  - exfalso. apply Hs. reflexivity.
Qed.

Lemma tidy_try_catch {A : Type} (m : M A) (h : string -> M A) :
  tidy m -> (forall e, tidy (h e)) -> tidy (try_catch m h).
Proof.
  intros Hm Hh st Hd. unfold try_catch. specialize (Hm st Hd).
  destruct (m st) as [[a|e|] st1]; cbn [fst snd] in *; intros Hs.
  - apply Hm. intros H; discriminate H.
  - destruct Hm as [Ho Hd1]; [intros H; discriminate H |].
    destruct (Hh e st1 Hd1 Hs) as [Ho2 Hd2]. split; [congruence | exact Hd2].
  - exfalso. apply Hs. reflexivity.
Qed.

(** The machine that a race leaves is the one of the promise, whether it
    has won or not. *)
Lemma tidy_withTimeout {A : Type} (promise : M A) (timeoutMs : Q) (errorMessage : string) :
  tidy promise -> tidy (CommandExecutor.withTimeout promise timeoutMs errorMessage).
Proof.
  intros Hp st Hd. unfold CommandExecutor.withTimeout. specialize (Hp st Hd).
  destruct (promise st) as [[a|e|] st1]; cbn [fst snd] in *.
  - destruct (Qltb _ _); intros _; apply Hp; intros H; discriminate H.
  - destruct (Qltb _ _); intros _; apply Hp; intros H; discriminate H.
  - intros Hs. exfalso. apply Hs. reflexivity.
Qed.

(** [isWaitingForUserInput] closes the descriptor that it opened, as the
    last thing it does. *)
Lemma isWaitingForUserInput_closes (polls : nat) (ttyPath : string) (st : Machine) :
  descriptorsInUse st ->
  settled (fst (CommandExecutor.isWaitingForUserInput env polls ttyPath st)) ->
  open_fds (snd (CommandExecutor.isWaitingForUserInput env polls ttyPath st)) = open_fds st /\
  descriptorsInUse (snd (CommandExecutor.isWaitingForUserInput env polls ttyPath st)) /\
  match open_error env ttyPath with
  | Some _ =>
      trace (snd (CommandExecutor.isWaitingForUserInput env polls ttyPath st))
      = (trace st ++ [OpenSync ttyPath])%list
  | None =>
      exists evs,
        trace (snd (CommandExecutor.isWaitingForUserInput env polls ttyPath st))
        = (trace st ++ OpenSync ttyPath :: evs ++ [CloseSync (next_fd st)])%list /\
        Forall inspecting evs
  end.
Proof.
  intros Hd. unfold CommandExecutor.isWaitingForUserInput, openSync.
  destruct (open_error env ttyPath) as [e|].
  - intros _. unfold try_finally, try_catch, throw, bind, ret. cbn [fst snd].
    split; [reflexivity |]. split; [exact Hd | reflexivity].
  - cbn [next_fd open_fds clock trace execs inspections record].
    match goal with
    | |- context [try_finally _ _ ?s] => set (st1 := s)
    end.
    pose proof (pollActivity_descriptors polls ttyPath 0 st1) as Hp.
    destruct (pollActivity_inspecting polls ttyPath 0 st1) as (evs & Ht & HF).
    unfold unchanged, descriptors in Hp. injection Hp as Ho Hn.
    assert (Hclose : forall st2,
              open_fds st2 = next_fd st :: open_fds st ->
              exists st',
                closeSync (next_fd st) st2 = (Return tt, st') /\
                open_fds st' = open_fds st /\
                next_fd st' = next_fd st2 /\
                trace st' = (trace st2 ++ [CloseSync (next_fd st)])%list)
      by (intros st2 H2; apply closeSync_opened; [exact H2 | exact Hd]).
    unfold try_finally, try_catch, bind, ret.
    destruct (CommandExecutor.pollActivity env polls ttyPath 0 st1) as [[v|e|] st2];
      cbn [fst snd] in *.
    + destruct (Hclose st2 Ho) as (st' & -> & Ho' & Hn' & Ht'). intros _. cbn [fst snd].
      split; [exact Ho' |]. split.
      * unfold descriptorsInUse. rewrite Ho', Hn', Hn. cbn [next_fd st1].
        eapply Forall_impl; [exact Hd |]. intros x Hx. cbn beta in *. lia.
      * exists evs. split; [| exact HF].
        rewrite Ht', Ht. cbn [trace st1]. rewrite <- !app_assoc. reflexivity.
    + destruct (Hclose st2 Ho) as (st' & -> & Ho' & Hn' & Ht'). intros _. cbn [fst snd].
      split; [exact Ho' |]. split.
      * unfold descriptorsInUse. rewrite Ho', Hn', Hn. cbn [next_fd st1].
        eapply Forall_impl; [exact Hd |]. intros x Hx. cbn beta in *. lia.
      * exists evs. split; [| exact HF].
        rewrite Ht', Ht. cbn [trace st1]. rewrite <- !app_assoc. reflexivity.
    + intros Hs. exfalso. apply Hs. reflexivity.
Qed.

Lemma isWaitingForUserInput_tidy (polls : nat) (ttyPath : string) :
  tidy (CommandExecutor.isWaitingForUserInput env polls ttyPath).
Proof.
  intros st Hd Hs. destruct (isWaitingForUserInput_closes polls ttyPath st Hd Hs)
    as (Ho & Hd' & _).
  split; assumption.
Qed.

End Descriptors.

Ltac tidy_steps :=
  repeat match goal with
  | |- tidy (bind _ _) => apply tidy_bind; [| intros ?]
  | |- tidy (try_catch _ _) => apply tidy_try_catch; [| intros ?]
  | |- tidy (CommandExecutor.withTimeout _ _ _) => apply tidy_withTimeout
  | |- tidy (exec _ _) => apply tidy_unchanged, exec_descriptors
  | |- tidy (sleep _) => apply tidy_unchanged, sleep_descriptors
  | |- tidy now => apply tidy_unchanged, now_descriptors
  | |- tidy (ret _) => apply tidy_unchanged; intros ?; reflexivity
  | |- tidy (throw _) => apply tidy_unchanged; intros ?; reflexivity
  | |- tidy (settle _) => apply tidy_unchanged; intros ?; reflexivity
  | |- tidy (CommandExecutor.isWaitingForUserInput _ _ _) =>
      apply isWaitingForUserInput_tidy
  | |- tidy (match ?x with _ => _ end) => destruct x
  | |- _ => assumption
  end.

Section DescriptorsOfACommand.

Variable env : Env.

Lemma waitForProcessingComplete_tidy (fuel : nat) (w : string) (tab : option JS.jsnum) :
  tidy (CommandExecutor.waitForProcessingComplete env fuel w tab).
Proof.
  induction fuel as [|fuel IH]; simpl; unfold CommandExecutor.isProcessing; tidy_steps.
Qed.

Lemma waitForUserInputReady_tidy (fuel polls : nat) (w ttyPath : string) :
  tidy (CommandExecutor.waitForUserInputReady env fuel polls w ttyPath).
Proof. induction fuel as [|fuel IH]; simpl; tidy_steps. Qed.

Lemma executeCommand_tidy (fuel : nat) (w command : string) (timeoutSeconds : Q)
    (returnOutputLines : Z) (tab : option JS.jsnum) :
  tidy (CommandExecutor.executeCommand env fuel w command timeoutSeconds
          returnOutputLines tab).
Proof.
  unfold CommandExecutor.executeCommand, CommandExecutor.executeCommandWith,
    CommandExecutor.submit, CommandExecutor.drainProcessing, CommandExecutor.confirmIdle,
    CommandExecutor.retrieveTtyPath, CommandExecutor.collect,
    TtyOutputReader.retrieveBuffer.
  tidy_steps.
  - apply waitForProcessingComplete_tidy.
  - apply waitForUserInputReady_tidy.
Qed.

(** X29: from a machine whose open descriptors were all handed out before,
    a call of [isWaitingForUserInput] that settles has closed the
    descriptor it opened, as the last thing it did, after inspections and
    sleeps of 350 ms only; when the terminal device cannot be opened
    nothing is closed. So the descriptors that are open when
    [executeCommand] and the waits it has started have settled are those
    that were open before: the command leaves no descriptor behind,
    whether it returns or throws. *)
Theorem descriptors_are_closed (st : Machine) :
  descriptorsInUse st ->
  (forall polls ttyPath,
     settled (fst (CommandExecutor.isWaitingForUserInput env polls ttyPath st)) ->
     open_fds (snd (CommandExecutor.isWaitingForUserInput env polls ttyPath st))
     = open_fds st /\
     descriptorsInUse (snd (CommandExecutor.isWaitingForUserInput env polls ttyPath st)) /\
     match open_error env ttyPath with
     | Some _ =>
         trace (snd (CommandExecutor.isWaitingForUserInput env polls ttyPath st))
         = (trace st ++ [OpenSync ttyPath])%list
     | None =>
         exists evs,
           trace (snd (CommandExecutor.isWaitingForUserInput env polls ttyPath st))
           = (trace st ++ OpenSync ttyPath :: evs ++ [CloseSync (next_fd st)])%list /\
           Forall inspecting evs
     end) /\
  (forall fuel w command timeoutSeconds returnOutputLines tab,
     settled (fst (CommandExecutor.executeCommand env fuel w command timeoutSeconds
                     returnOutputLines tab st)) ->
     open_fds (snd (CommandExecutor.executeCommand env fuel w command timeoutSeconds
                      returnOutputLines tab st))
     = open_fds st /\
     descriptorsInUse (snd (CommandExecutor.executeCommand env fuel w command
                              timeoutSeconds returnOutputLines tab st))).
Proof.
  intros Hd. split.
  - intros polls ttyPath Hs. apply isWaitingForUserInput_closes; assumption.
  - intros fuel w command timeoutSeconds returnOutputLines tab Hs.
    apply executeCommand_tidy; assumption.
Qed.

End DescriptorsOfACommand.

Lemma descriptors_are_closed_witness :
  descriptorsInUse freshMachine /\
  fst idleCheck = Return true /\
  open_fds (snd idleCheck) = [] /\
  fst (listingRun 2) <> OutOfFuel /\
  open_fds (snd (listingRun 2)) = [].
Proof.
  assert (Hd : descriptorsInUse freshMachine) by constructor.
  split; [exact Hd |]. split; [vm_compute; reflexivity |].
  destruct (descriptors_are_closed listingWorld freshMachine Hd) as [_ Hcommand].
  destruct (descriptors_are_closed quietProcessWorld freshMachine Hd) as [Hcall _].
  assert (Hs1 : settled (fst (CommandExecutor.isWaitingForUserInput quietProcessWorld 3
                                "/dev/ttys001" freshMachine)))
    by (vm_compute; intros H; discriminate H).
  assert (Hs2 : settled (fst (CommandExecutor.executeCommand listingWorld 1 "w" "ls" 30 2
                                None freshMachine)))
    by (vm_compute; intros H; discriminate H).
  split; [exact (proj1 (Hcall 3%nat "/dev/ttys001" Hs1)) |].
  split; [exact Hs2 |].
  exact (proj1 (Hcommand 1%nat "w" "ls" 30%Q 2 None Hs2)).
Defined.

(** ** index.ts: the timeout of a request *)

(** X30: whatever timeout a request asks for, [executeCommand] is called
    with a timeout from 1 to 120 seconds: the first phase has from 250 ms
    to 30 s, and the second phase, whatever time has passed, from 700 ms
    to 84 s. *)
Theorem requested_timeout_is_clamped (requested : Server.number) (elapsedTime : Z) :
  (1 <= Server.timeout requested)%Q /\ (Server.timeout requested <= 120)%Q /\
  (250 <= CommandExecutor.processingTimeout (Server.timeout requested * 1000))%Q /\
  (CommandExecutor.processingTimeout (Server.timeout requested * 1000) <= 30000)%Q /\
  (700 <= CommandExecutor.inputTimeout (Server.timeout requested * 1000) elapsedTime)%Q /\
  (CommandExecutor.inputTimeout (Server.timeout requested * 1000) elapsedTime <= 84000)%Q.
Proof.
  assert (H : (1 <= Server.timeout requested)%Q /\ (Server.timeout requested <= 120)%Q).
  { destruct requested as [| | |q]; cbn [Server.timeout];
      try (split; vm_compute; discriminate).
    destruct (Qeq_bool q 0); [split; vm_compute; discriminate |].
    split.
    - apply Q.min_glb; [apply Q.le_max_r | vm_compute; discriminate].
    - apply Q.le_min_r. }
  destruct H as [H1 H120].
  split; [exact H1 |]. split; [exact H120 |].
  unfold CommandExecutor.processingTimeout, CommandExecutor.inputTimeout.
  pose proof (remainingTime_floor (Server.timeout requested * 1000) elapsedTime) as Hfloor.
  split; [lra |]. split; [lra |]. split.
  - apply Q.min_glb; lra.
  - eapply Qle_trans; [apply Q.le_min_r | lra].
Qed.
